(** * darkcord: a shallow embedding of the resource layer, the cache and the
    request dispatcher, with the properties stated about them.

    The file has three parts.  Part I holds the model: every definition
    is a transcription of a function of the TypeScript sources (the path
    and the method are named in its comment), or, for the classes the
    sources only use through their interface, a model written from the
    design document (those comments start with "Modelled from the spec:").
    Part II holds the statements and their proofs.  Part III holds further
    properties of the sources: the other responses of an interaction,
    select menus, command options, message updates and the reaction
    handler. *)

From stdpp Require Import base tactics option list strings gmap.
From Stdlib Require Import ZArith NArith Lia.
From stdpp Require Import pretty.

Open Scope string_scope.

(* ===================================================================== *)
(** * Part I: the model                                                    *)
(* ===================================================================== *)

(** ** JavaScript completions

    A call either returns a value or throws.  An [async] method that
    throws yields a rejected promise; the caller that awaits it sees the
    same error, so both are [Throw] here.  Errors raised by [MakeError]
    are told apart by their [name]; an error that comes out of an awaited
    collaborator (the REST client, the webserver response) is [Rejected];
    calling a method that the object's class does not have is the
    TypeError "x.method is not a function", [NotAFunction]. *)

Inductive JSError : Type :=
| InteractionAlreadyAcknowledged
| InteractionNoAcknowledged
| MessageNotResolved
| Rejected (reason : string)
| NotAFunction (method : string).

Inductive Completion (A : Type) : Type :=
| Return (a : A)
| Throw (e : JSError).
Arguments Return {A} a.
Arguments Throw {A} e.

(** How an awaited promise settles; the environment decides. *)
Inductive Settled (A : Type) : Type :=
| Fulfilled (a : A)
| RejectedWith (reason : string).
Arguments Fulfilled {A} a.
Arguments RejectedWith {A} reason.

Definition threw {A} (c : Completion A) : bool :=
  match c with Throw _ => true | Return _ => false end.

(** ** Wire records (discord-api-types/v10) *)

(** [APIMessageReferenceSend]. *)
Record MessageReference : Type := mkMessageReference {
  message_id : string;
  channel_id : option string;
  guild_id : option string;
  fail_if_not_exists : option bool
}.

(** [MessagePostData] of src/src/typings/index.d.ts: the REST body of a
    channel message.  Only [message_reference] is read or written by the
    code below; the other fields travel unchanged. *)
Record MessagePostData : Type := mkMessagePostData {
  content : option string;
  tts : option bool;
  message_reference : option MessageReference
}.


Module InteractionType.
Definition Ping : Z := 1.
Definition ApplicationCommand : Z := 2.
Definition MessageComponent : Z := 3.
Definition ApplicationCommandAutocomplete : Z := 4.
Definition ModalSubmit : Z := 5.
End InteractionType.

Module InteractionResponseType.
Definition ChannelMessageWithSource : Z := 4.
Definition DeferredChannelMessageWithSource : Z := 5.
Definition DeferredMessageUpdate : Z := 6.
Definition UpdateMessage : Z := 7.
Definition ApplicationCommandAutocompleteResult : Z := 8.
Definition Modal : Z := 9.
End InteractionResponseType.

Module MessageType.
Definition Default : Z := 0.
Definition Reply : Z := 19.
End MessageType.

(** [APIInteraction]: the discriminant [type] and the fields the
    constructors copy. *)
Record APIInteraction : Type := mkAPIInteraction {
  i_id : string;
  i_application_id : string;
  i_type : Z;
  i_token : string;
  i_version : Z;
  i_guild_id : option string;
  i_channel_id : option string;
  i_locale : string;
  i_custom_id : option string;
  i_command_name : option string
}.

(** The handle of a webserver response ([InteractionResponse] of
    @darkcord/interactions); only its identity matters here. *)
Record InteractionResponse : Type := mkInteractionResponse {
  response_no : nat
}.

(** ** src/unnamed/part_001: the interaction classes *)

Module Interaction.

(** class [Interaction]: the fields set by its constructor. *)
Record Interaction : Type := mkInteraction {
  id : string;
  applicationId : string;
  type : Z;
  token : string;
  version : Z;
  rawData : APIInteraction
}.

Definition new_Interaction (data : APIInteraction) : Interaction :=
  {| id := i_id data;
     applicationId := i_application_id data;
     type := i_type data;
     token := i_token data;
     version := i_version data;
     rawData := data |}.

(** class [ReplyableInteraction extends Interaction]. *)
Record ReplyableInteraction : Type := mkReplyable {
  base : Interaction;
  _http : option InteractionResponse;
  isHTTP : bool;
  acknowledged : bool
}.

(** [Boolean(httpResponse)]: an object is truthy, [undefined] is not. *)
Definition new_ReplyableInteraction (data : APIInteraction)
    (httpResponse : option InteractionResponse) : ReplyableInteraction :=
  {| base := new_Interaction data;
     _http := httpResponse;
     isHTTP := bool_decide (is_Some httpResponse);
     acknowledged := false |}.

(** [this.acknowledged = true]. *)
Definition acknowledge (this : ReplyableInteraction) : ReplyableInteraction :=
  {| base := base this; _http := _http this; isHTTP := isHTTP this;
     acknowledged := true |}.

(** class [AutocompleteInteraction extends Interaction]: it declares
    the same three fields as [ReplyableInteraction] without inheriting
    from it. *)
Record Autocomplete : Type := mkAutocomplete {
  a_base : Interaction;
  a_http : option InteractionResponse;
  a_isHTTP : bool;
  a_acknowledged : bool
}.

Definition new_AutocompleteInteraction (data : APIInteraction)
    (httpResponse : option InteractionResponse) : Autocomplete :=
  {| a_base := new_Interaction data;
     a_http := httpResponse;
     a_isHTTP := bool_decide (is_Some httpResponse);
     a_acknowledged := false |}.

(** The classes an interaction object can belong to.  The three
    replyable subclasses add fields of their own (guild, channel,
    message, ...), filled from caches that are not part of this model;
    what is kept is the class and the inherited state. *)
Inductive AnyInteraction : Type :=
| CommandInteraction (i : ReplyableInteraction)
| ComponentInteraction (i : ReplyableInteraction)
| AutocompleteInteraction (i : Autocomplete)
| ModalSubmitInteraction (i : ReplyableInteraction)
| BaseInteraction (i : Interaction).

(** The class of an object, as [instanceof] sees it. *)
Inductive InteractionClass : Type :=
| CCommand | CComponent | CAutocomplete | CModalSubmit | CBase.

Definition class_of (x : AnyInteraction) : InteractionClass :=
  match x with
  | CommandInteraction _ => CCommand
  | ComponentInteraction _ => CComponent
  | AutocompleteInteraction _ => CAutocomplete
  | ModalSubmitInteraction _ => CModalSubmit
  | BaseInteraction _ => CBase
  end.

(** [static from(data, res)]: a [switch] on [data.type] with strict
    equality on the enum's numbers. *)
Definition from (data : APIInteraction) (res : option InteractionResponse)
    : AnyInteraction :=
  if (i_type data =? InteractionType.ApplicationCommand)%Z then
    CommandInteraction (new_ReplyableInteraction data res)
  else if (i_type data =? InteractionType.MessageComponent)%Z then
    ComponentInteraction (new_ReplyableInteraction data res)
  else if (i_type data =? InteractionType.ApplicationCommandAutocomplete)%Z then
    AutocompleteInteraction (new_AutocompleteInteraction data res)
  else if (i_type data =? InteractionType.ModalSubmit)%Z then
    ModalSubmitInteraction (new_ReplyableInteraction data res)
  else
    BaseInteraction (new_Interaction data).

(** [isCommand()], [isComponent()], [isAutoComplete()],
    [isModalSubmit()]: [this instanceof ...]. *)
Definition isCommand (x : AnyInteraction) : bool :=
  match class_of x with CCommand => true | _ => false end.
Definition isComponent (x : AnyInteraction) : bool :=
  match class_of x with CComponent => true | _ => false end.
Definition isAutoComplete (x : AnyInteraction) : bool :=
  match class_of x with CAutocomplete => true | _ => false end.
Definition isModalSubmit (x : AnyInteraction) : bool :=
  match class_of x with CModalSubmit => true | _ => false end.

(** The class that goes with a discriminant. *)
Definition class_for (t : Z) : InteractionClass :=
  match t with
  | 2%Z => CCommand
  | 3%Z => CComponent
  | 4%Z => CAutocomplete
  | 5%Z => CModalSubmit
  | _ => CBase
  end.

(** The body handed to the transport. *)
Inductive Body : Type :=
| BFlags (flags : Z)
| BMessage (c : MessagePostData).

(** The calls a method makes on its collaborators, in order. *)
Inductive Call : Type :=
| HttpSend (h : InteractionResponse) (b : Body) (responseType : Z)
| RespondInteraction (id token : string) (b : Body) (responseType : Z)
| DeleteWebhookMessage (applicationId token messageId : string)
| ExecuteWebhook (applicationId token : string) (c : MessagePostData)
| GetWebhookMessage (applicationId token messageId : string).

(** The outcome of a method: its completion, the object afterwards and
    the calls made. *)
Definition Outcome (A : Type) : Type :=
  (Completion A * ReplyableInteraction * list Call)%type.

Definition completion {A} (o : Outcome A) : Completion A := o.1.1.
Definition after {A} (o : Outcome A) : ReplyableInteraction := o.1.2.
Definition calls {A} (o : Outcome A) : list Call := o.2.

(** [await this._http?.send(body, t)] when [isHTTP], else
    [await this._client.rest.respondInteraction(id, token, body, t)].
    [net] is how the awaited promise settles; with [_http] undefined the
    optional call is skipped and [await undefined] goes on. *)
Definition respond (this : ReplyableInteraction) (b : Body) (t : Z)
    (net : Settled unit) : Completion unit * list Call :=
  if isHTTP this then
    match _http this with
    | Some h =>
        match net with
        | Fulfilled _ => (Return (), [HttpSend h b t])
        | RejectedWith r => (Throw (Rejected r), [HttpSend h b t])
        end
    | None => (Return (), [])
    end
  else
    match net with
    | Fulfilled _ =>
        (Return (), [RespondInteraction (id (base this)) (token (base this)) b t])
    | RejectedWith r =>
        (Throw (Rejected r),
         [RespondInteraction (id (base this)) (token (base this)) b t])
    end.

(** [(flags as MessageFlags) || 0]. *)
Definition flags_or_zero (flags : option Z) : Z :=
  match flags with Some f => f | None => 0%Z end.

Section Methods.

(** [transformMessagePostData] of @utils/index, not part of the
    sources at hand: any function from the caller's content (post data
    or a plain string) to post data. *)
Variable transformMessagePostData : MessagePostData + string -> MessagePostData.

(** [async defer(flags)]. *)
Definition defer (flags : option Z) (net : Settled unit)
    (this : ReplyableInteraction) : Outcome unit :=
  if acknowledged this then
    (Throw InteractionAlreadyAcknowledged, this, [])
  else
    match respond this (BFlags (flags_or_zero flags))
            InteractionResponseType.DeferredChannelMessageWithSource net with
    | (Return _, cs) => (Return (), acknowledge this, cs)
    | (Throw e, cs) => (Throw e, this, cs)
    end.

(** [async reply(content)]. *)
Definition reply (content : MessagePostData + string) (net : Settled unit)
    (this : ReplyableInteraction) : Outcome unit :=
  if acknowledged this then
    (Throw InteractionAlreadyAcknowledged, this, [])
  else
    let content := transformMessagePostData content in
    match respond this (BMessage content)
            InteractionResponseType.ChannelMessageWithSource net with
    | (Return _, cs) => (Return (), acknowledge this, cs)
    | (Throw e, cs) => (Throw e, this, cs)
    end.

(** [deleteReply(messageId)]: the guard throws synchronously; past it
    the promise of [rest.deleteWebhookMessage] is returned. *)
Definition deleteReply (messageId : string) (net : Settled unit)
    (this : ReplyableInteraction) : Outcome unit :=
  if negb (acknowledged this) then
    (Throw InteractionNoAcknowledged, this, [])
  else
    let c := DeleteWebhookMessage (applicationId (base this))
               (token (base this)) messageId in
    match net with
    | Fulfilled _ => (Return (), this, [c])
    | RejectedWith r => (Throw (Rejected r), this, [c])
    end.

(** [deleteOriginalReply()]. *)
Definition deleteOriginalReply (net : Settled unit)
    (this : ReplyableInteraction) : Outcome unit :=
  deleteReply "@original" net this.

(** [createFollowUP(content)]. *)
Definition createFollowUP (content : MessagePostData) (net : Settled unit)
    (this : ReplyableInteraction) : Outcome unit :=
  if negb (acknowledged this) then
    (Throw InteractionNoAcknowledged, this, [])
  else
    let c := ExecuteWebhook (applicationId (base this)) (token (base this))
               (transformMessagePostData (inl content)) in
    match net with
    | Fulfilled _ => (Return (), this, [c])
    | RejectedWith r => (Throw (Rejected r), this, [c])
    end.

(** [async getOriginalReply()]: past the guard it awaits
    [rest.getWebhookMessage] and then builds a [Message] from the
    answer with the help of the channel cache.  [net] stands for the
    whole remainder: the identifier of the message obtained, or the
    rejection of the REST call or of the construction. *)
Definition getOriginalReply (net : Settled string)
    (this : ReplyableInteraction) : Outcome string :=
  if negb (acknowledged this) then
    (Throw InteractionNoAcknowledged, this, [])
  else
    let c := GetWebhookMessage (applicationId (base this))
               (token (base this)) "@original" in
    match net with
    | Fulfilled m => (Return m, this, [c])
    | RejectedWith r => (Throw (Rejected r), this, [c])
    end.

(** The two acknowledging responses of a [ReplyableInteraction]. *)
Inductive AckCall : Type :=
| CallReply (content : MessagePostData + string)
| CallDefer (flags : option Z).

Definition ack_call (c : AckCall) (net : Settled unit)
    (this : ReplyableInteraction) : Outcome unit :=
  match c with
  | CallReply content => reply content net this
  | CallDefer flags => defer flags net this
  end.

(** [reply] and [defer] are [async]: a call runs synchronously as far as
    its [await], that is through the guard and the hand-over of the
    response to the transport, and the assignment to [acknowledged]
    runs later, when the awaited promise has settled.  [ack_call] above
    takes a call from its start to its end with nothing in between; the
    two halves below allow other calls to start in between. *)
Inductive Started : Type :=
| Refused (e : JSError)
| Awaiting (cs : list Call).

(** What has been handed to the transport when the method suspends. *)
Definition request (this : ReplyableInteraction) (b : Body) (t : Z) : list Call :=
  if isHTTP this then
    match _http this with
    | Some h => [HttpSend h b t]
    | None => []
    end
  else [RespondInteraction (id (base this)) (token (base this)) b t].

(** The call up to its [await]; the object is not changed. *)
Definition start (c : AckCall) (this : ReplyableInteraction) : Started :=
  if acknowledged this then Refused InteractionAlreadyAcknowledged
  else
    match c with
    | CallReply content =>
        Awaiting (request this (BMessage (transformMessagePostData content))
                    InteractionResponseType.ChannelMessageWithSource)
    | CallDefer flags =>
        Awaiting (request this (BFlags (flags_or_zero flags))
                    InteractionResponseType.DeferredChannelMessageWithSource)
    end.

(** The call from its [await] on, once the promise has settled as [net];
    [this] is the object as it is by then.  With nothing handed over
    ([_http] undefined) the method awaited [undefined]. *)
Definition resume (s : Started) (net : Settled unit)
    (this : ReplyableInteraction) : Completion unit * ReplyableInteraction :=
  match s with
  | Refused e => (Throw e, this)
  | Awaiting [] => (Return (), acknowledge this)
  | Awaiting (_ :: _) =>
      match net with
      | Fulfilled _ => (Return (), acknowledge this)
      | RejectedWith r => (Throw (Rejected r), this)
      end
  end.

Definition handed_over (s : Started) : list Call :=
  match s with Refused _ => [] | Awaiting cs => cs end.

(** The three methods that need an acknowledged interaction. *)
Inductive FollowCall : Type :=
| CallDeleteReply (messageId : string)
| CallCreateFollowUP (content : MessagePostData)
| CallGetOriginalReply.

(** The completion of a follow-up call, its value forgotten. *)
Definition follow_call (c : FollowCall) (net : Settled string)
    (this : ReplyableInteraction) : Completion unit * ReplyableInteraction :=
  let unit_net :=
    match net with
    | Fulfilled _ => Fulfilled ()
    | RejectedWith r => RejectedWith r
    end in
  let forget {A} (o : Outcome A) : Completion unit * ReplyableInteraction :=
    (match completion o with Return _ => Return () | Throw e => Throw e end,
     after o) in
  match c with
  | CallDeleteReply m => forget (deleteReply m unit_net this)
  | CallCreateFollowUP content => forget (createFollowUP content unit_net this)
  | CallGetOriginalReply => forget (getOriginalReply net this)
  end.

End Methods.

End Interaction.

(** ** Messages and their reactions *)

(** [APIPartialEmoji]: a custom emoji has an [id], a unicode emoji only a
    [name]. *)
Record APIEmoji : Type := mkAPIEmoji {
  emoji_id : option string;
  emoji_name : option string
}.

(** [APIReaction]. *)
Record APIReaction : Type := mkAPIReaction {
  count : Z;
  me : bool;
  emoji : APIEmoji
}.

(** [APIMessage]: the fields the code below reads.  [reactions] is absent
    on most payloads; [Array.isArray(data.reactions)] is the test. *)
Record APIMessage : Type := mkAPIMessage {
  m_id : string;
  m_channel_id : string;
  m_type : Z;
  m_content : string;
  m_reactions : option (list APIReaction)
}.

(** A text channel as far as a message needs it: the target of
    [createMessage]. *)
Record TextBasedChannel : Type := mkChannel {
  channel_no : string
}.

(** [channel.createMessage(content)]: the body that goes out. *)
Inductive Sent : Type :=
| CreateMessage (ch : TextBasedChannel) (body : MessagePostData).

(** The client, the [Reaction] class of @resources/Emoji and the cache
    classes are not among the sources; the message code uses them through
    these operations. *)
Class Resources : Type := {
  Client : Type;
(** [client.cache._partial(Partials.Reaction)]. *)
partial_Reaction : Client -> bool;
Reaction : Type;
(** [new Reaction({ ...reaction, client })]. *)
new_Reaction : APIReaction -> Client -> Reaction;
(** [reaction.emoji] of a hydrated reaction. *)
Reaction_emoji : Reaction -> APIEmoji
}.

Section Reactions.
Context {R : Resources}.

(** An entry of [reactions: Cache<Reaction | APIReaction>]. *)
Inductive StoredReaction : Type :=
| Raw (r : APIReaction)
| Hydrated (r : Reaction).

Definition is_raw (s : StoredReaction) : bool :=
  match s with Raw _ => true | Hydrated _ => false end.

Definition stored_emoji (s : StoredReaction) : APIEmoji :=
  match s with Raw r => emoji r | Hydrated r => Reaction_emoji r end.

(** [this._client.cache._partial(Partials.Reaction) ? reaction
      : new Reaction({ ...reaction, client: this._client })]. *)
Definition resolve_reaction (client : Client) (reaction : APIReaction)
    : StoredReaction :=
  if partial_Reaction client then Raw reaction
  else Hydrated (new_Reaction reaction client).

(** [emoji.id ?? emoji.name!]. *)
Definition reaction_key (s : StoredReaction) : option string :=
  match emoji_id (stored_emoji s) with
  | Some i => Some i
  | None => emoji_name (stored_emoji s)
  end.

(** One call [reactions._add(item, replace, id)]; the constructor of
    src/src/resources/Message.ts passes the item alone. *)
Record AddCall : Type := mkAddCall {
  add_item : StoredReaction;
  add_replace : option bool;
  add_id : option (option string)
}.

(** An item handed to [_add] has the form the client's configuration
    asks for: raw when the partial flag for reactions is set, hydrated
    otherwise. *)
Definition configured_form (client : Client) (a : AddCall) : Prop :=
  is_raw (add_item a) = partial_Reaction client.

End Reactions.

(** The reaction cache: [Cache] (src/src) or [DataCache]
    (packages/darkcord), with its [_add]. *)
Class ReactionCacheOps {R : Resources} : Type := {
  ReactionCache : Type;
  new_Cache : ReactionCache;
  _add : ReactionCache -> AddCall -> ReactionCache
}.

(** *** src/src/resources/Message.ts *)

Module Message.
Section WithResources.
Context {R : Resources} {C : ReactionCacheOps}.

Record Message : Type := mkMessage {
  client : Client;
  id : string;
  channelId : string;
  type : Z;
  resolved : bool;
  channel : option TextBasedChannel;
  reactions : ReactionCache
}.

(** The loop of the constructor over [data.reactions]: the calls of
    [_add] it makes, in order. *)
Definition constructor_adds (client : Client) (data : APIMessage)
    : list AddCall :=
  match m_reactions data with
  | Some rs =>
      map (fun reaction =>
             {| add_item := resolve_reaction client reaction;
                add_replace := None;
                add_id := None |}) rs
  | None => []
  end.

(** [constructor(data, guild)]. *)
Definition new_Message (client : Client) (data : APIMessage) : Message :=
  {| client := client;
     id := m_id data;
     channelId := m_channel_id data;
     type := m_type data;
     resolved := false;
     channel := None;
     reactions := fold_left _add (constructor_adds client data) new_Cache |}.

(** [createReaction]: what is added once the REST call has answered
    with [reaction]. *)
Definition createReaction_add (this : Message) (reaction : APIReaction)
    : AddCall :=
  let stored :=
    if negb (partial_Reaction (client this)) then
      Hydrated (new_Reaction reaction (client this))
    else Raw reaction in
  {| add_item := stored;
     add_replace := Some true;
     add_id := Some (emoji_id (stored_emoji stored)) |}.

(** The first lines of [reply]: the reference is created when absent,
    then both fields are assigned. *)
Definition with_reference (this : Message) (c : MessagePostData)
    : MessagePostData :=
  let r0 :=
    match message_reference c with
    | Some r => r
    | None => {| message_id := id this; channel_id := None;
                 guild_id := None; fail_if_not_exists := None |}
    end in
  let r1 := {| message_id := message_id r0;
               channel_id := Some (channelId this);
               guild_id := guild_id r0;
               fail_if_not_exists := fail_if_not_exists r0 |} in
  let r2 := {| message_id := id this;
               channel_id := channel_id r1;
               guild_id := guild_id r1;
               fail_if_not_exists := fail_if_not_exists r1 |} in
  {| content := content c;
     tts := tts c;
     message_reference := Some r2 |}.

(** [_resolve()] stores the channel found in the cache or fetched over
    REST and sets [#resolved]. *)
Definition _resolve (ch : TextBasedChannel) (this : Message) : Message :=
  {| client := client this; id := id this; channelId := channelId this;
     type := type this; resolved := true; channel := Some ch;
     reactions := reactions this |}.

(** [async reply(content)].  [found] is how [_resolve] ends when it is
    needed: with the channel, or with the rejection of
    [rest.getChannel].  The result is the completion, the message
    afterwards and what was handed to [createMessage]. *)
Definition reply (c : MessagePostData) (found : Settled TextBasedChannel)
    (this : Message) : Completion unit * Message * list Sent :=
  let c := with_reference this c in
  if resolved this then
    match channel this with
    | Some ch => (Return (), this, [CreateMessage ch c])
    | None => (Throw (Rejected "TypeError"), this, [])
    end
  else
    match found with
    | Fulfilled ch => (Return (), _resolve ch this, [CreateMessage ch c])
    | RejectedWith r => (Throw (Rejected r), this, [])
    end.

End WithResources.
End Message.

(** *** src/packages/darkcord/src/resources/Message.ts *)

Module DarkcordMessage.
Section WithResources.
Context {R : Resources} {C : ReactionCacheOps}.

Record Message : Type := mkMessage {
  client : Client;
  id : string;
  channelId : string;
  type : Z;
  isResolved : bool;
  channel : option TextBasedChannel;
  reactions : ReactionCache
}.

(** The loop of [_update] over [data.reactions]. *)
Definition update_adds (client : Client) (data : APIMessage) : list AddCall :=
  match m_reactions data with
  | Some rs =>
      map (fun reaction =>
             let resolved := resolve_reaction client reaction in
             {| add_item := resolved;
                add_replace := Some true;
                add_id := Some (reaction_key resolved) |}) rs
  | None => []
  end.

(** [_update(data)], as far as the fields of this record go;
    [cached] is what [client.channels.cache.get(data.channel_id)]
    answers, used by [this.channel ??= ...]. *)
Definition _update (data : APIMessage) (cached : option TextBasedChannel)
    (this : Message) : Message :=
  {| client := client this; id := id this; channelId := channelId this;
     type := type this; isResolved := isResolved this;
     channel := match channel this with Some ch => Some ch | None => cached end;
     reactions := fold_left _add (update_adds (client this) data)
                    (reactions this) |}.

(** [constructor(data, guild)]: the fields are set, then
    [this._update(data)] runs. *)
Definition new_Message (client : Client) (data : APIMessage)
    (cached : option TextBasedChannel) : Message :=
  _update data cached
    {| client := client;
       id := m_id data;
       channelId := m_channel_id data;
       type := m_type data;
       isResolved := false;
       channel := None;
       reactions := new_Cache |}.

(** [createReaction]: what is added once the REST call has answered
    with [reaction]. *)
Definition createReaction_add (this : Message) (reaction : APIReaction)
    : AddCall :=
  let stored :=
    if negb (partial_Reaction (client this)) then
      Hydrated (new_Reaction reaction (client this))
    else Raw reaction in
  {| add_item := stored;
     add_replace := Some true;
     add_id := Some (reaction_key stored) |}.

(** The reference part of [reply], the same assignments as in
    src/src. *)
Definition with_reference (this : Message) (c : MessagePostData)
    : MessagePostData :=
  let r0 :=
    match message_reference c with
    | Some r => r
    | None => {| message_id := id this; channel_id := None;
                 guild_id := None; fail_if_not_exists := None |}
    end in
  let r1 := {| message_id := message_id r0;
               channel_id := Some (channelId this);
               guild_id := guild_id r0;
               fail_if_not_exists := fail_if_not_exists r0 |} in
  let r2 := {| message_id := id this;
               channel_id := channel_id r1;
               guild_id := guild_id r1;
               fail_if_not_exists := fail_if_not_exists r1 |} in
  {| content := content c;
     tts := tts c;
     message_reference := Some r2 |}.

(** [typeof content === "string"] wraps the text in an object. *)
Definition as_post_data (c : MessagePostData + string) : MessagePostData :=
  match c with
  | inl d => d
  | inr text => {| content := Some text; tts := None;
                   message_reference := None |}
  end.

(** [async reply(content)]: nothing happens for a message that is
    neither [Default] nor [Reply]; an unresolved message throws after
    the reference has been written; [this.channel?.createMessage] is
    skipped without a channel. *)
Definition reply (c : MessagePostData + string) (this : Message)
    : Completion unit * list Sent :=
  if negb (type this =? MessageType.Reply)%Z
     && negb (type this =? MessageType.Default)%Z then
    (Return (), [])
  else
    let c := with_reference this (as_post_data c) in
    if negb (isResolved this) then (Throw MessageNotResolved, [])
    else
      match channel this with
      | Some ch => (Return (), [CreateMessage ch c])
      | None => (Return (), [])
      end.

End WithResources.
End DarkcordMessage.

(** ** The cache

    The cache classes ([Cache], [DataCache], [CacheManager]) are not among
    the sources: src/src/typings/index.d.ts declares their options
    ([BaseCacheOptions], [BaseCacheSweeper]) and the [CacheAdapter]
    contract, and the resource and event code calls them.  The collection
    below is written from sections 3 and 4.4 of the design document. *)

Module Cache.
Section Collection.
(** Keys are entity ids; [emoji.id] can be [null], so the key type is
    left open (any type with decidable equality). *)
Context {K T : Type} `{EqDecision K}.

(** Modelled from the spec: CacheEntry<T> of section 3, which is
    missing from the sources: "key (entity id string), value (...),
    insertedAt (timestamp used for default FIFO eviction and for
    sweeper age checks)". *)
Record CacheEntry : Type := mkEntry {
  key : K;
  value : T;
  insertedAt : N
}.

(** Modelled from the spec: CacheCollection of section 3, which is
    missing from the sources: "maxSize (int or unbounded), storage
    (ordered key->entry mapping; insertion order significant for
    eviction)".  The storage lists the entries oldest first. *)
Record CacheCollection : Type := mkCollection {
  maxSize : option nat;
  storage : list CacheEntry
}.


Definition with_storage (c : CacheCollection) (l : list CacheEntry)
    : CacheCollection :=
  {| maxSize := maxSize c; storage := l |}.

Definition is_key (k : K) (e : CacheEntry) : bool := bool_decide (key e = k).

(** Modelled from the spec: the contract of section 4.4 and of the
    CacheAdapter interface, "get/set/delete/has/size/keys/values/
    entries", whose implementation is missing from the sources; for an
    unknown key [get] answers [undefined] ([None]) and [has] and
    [delete] answer [false]. *)
Definition size (c : CacheCollection) : nat := length (storage c).

Definition has (k : K) (c : CacheCollection) : bool :=
  existsb (is_key k) (storage c).

Definition get (k : K) (c : CacheCollection) : option T :=
  match find (is_key k) (storage c) with
  | Some e => Some (value e)
  | None => None
  end.

Definition keys (c : CacheCollection) : list K := map key (storage c).
Definition values (c : CacheCollection) : list T := map value (storage c).
Definition entries (c : CacheCollection) : list (K * T) :=
  map (fun e => (key e, value e)) (storage c).

Definition delete (k : K) (c : CacheCollection) : bool * CacheCollection :=
  (has k c,
   with_storage c (List.filter (fun e => negb (is_key k e)) (storage c))).

Definition clear (c : CacheCollection) : CacheCollection := with_storage c [].

(** "the collection is at maxSize". *)
Definition at_maxSize (c : CacheCollection) : bool :=
  match maxSize c with
  | Some m => Nat.eqb (size c) m
  | None => false
  end.

(** "overwrite value, insertedAt unchanged": the entry keeps its place
    and its timestamp. *)
Definition overwrite (k : K) (v : T) (l : list CacheEntry) : list CacheEntry :=
  map (fun e => if is_key k e
                then {| key := key e; value := v; insertedAt := insertedAt e |}
                else e) l.

(** "evict the oldest entry by insertion order". *)
Definition evict_oldest (l : list CacheEntry) : list CacheEntry := tail l.

(** There is room for one more entry. *)
Definition has_room (c : CacheCollection) : bool :=
  match maxSize c with
  | Some m => Nat.ltb (size c) m
  | None => true
  end.

(** Modelled from the spec: the insert algorithm of section 4.4, which
    is missing from the sources: "set(key, value) - if key exists,
    overwrite value, insertedAt unchanged (...); if the collection is at
    maxSize and the key is new, evict the oldest entry by insertion
    order before inserting."  [now] is the clock at the call.  The
    algorithm names no entry to evict when maxSize is 0; there the
    invariant of section 3, "size <= maxSize holds immediately after
    every insert", leaves one outcome, which is that the entry is not
    stored: the new entry goes in when the eviction has made room for
    it. *)
Definition set (k : K) (v : T) (now : N) (c : CacheCollection)
    : CacheCollection :=
  if has k c then with_storage c (overwrite k v (storage c))
  else
    let kept := if at_maxSize c then evict_oldest (storage c) else storage c in
    if has_room (with_storage c kept) then
      with_storage c (kept ++ [{| key := k; value := v; insertedAt := now |}])%list
    else with_storage c kept.

(** Modelled from the spec: the sweep algorithm of section 4.4, which
    is missing from the sources: "iterate all entries; remove any entry
    for which filter(entry) is true AND keepFilter(entry) is false". *)
Definition sweepable (filter keepFilter : CacheEntry -> bool) (e : CacheEntry)
    : bool :=
  filter e && negb (keepFilter e).

Definition sweep (filter keepFilter : CacheEntry -> bool) (c : CacheCollection)
    : CacheCollection :=
  with_storage c
    (List.filter (fun e => negb (sweepable filter keepFilter e)) (storage c)).




(** The calls of the contract and what they answer. *)
Inductive CacheOp : Type :=
| OpSet (k : K) (v : T) (now : N)
| OpGet (k : K)
| OpDelete (k : K)
| OpClear
| OpEntries
| OpValues
| OpKeys
| OpHas (k : K)
| OpSize
| OpSweep (filter keepFilter : CacheEntry -> bool).

Inductive CacheAnswer : Type :=
| AUndefined
| AValue (v : T)
| ABool (b : bool)
| ANumber (n : nat)
| AEntries (l : list (K * T))
| AValues (l : list T)
| AKeys (l : list K).

(** Modelled from the spec: the calls of the contract as section 7
    describes them, "Cache operations never raise: unknown keys return
    an empty/absent result"; the implementation is missing from the
    sources.  One call on a collection: its completion and the
    collection afterwards.  That every arm returns is this model's
    reading of the sentence, not a fact about an implementation. *)
Definition call (op : CacheOp) (c : CacheCollection)
    : Completion CacheAnswer * CacheCollection :=
  match op with
  | OpSet k v now => (Return AUndefined, set k v now c)
  | OpGet k =>
      (Return (match get k c with Some v => AValue v | None => AUndefined end), c)
  | OpDelete k => (Return (ABool (delete k c).1), (delete k c).2)
  | OpClear => (Return AUndefined, clear c)
  | OpEntries => (Return (AEntries (entries c)), c)
  | OpValues => (Return (AValues (values c)), c)
  | OpKeys => (Return (AKeys (keys c)), c)
  | OpHas k => (Return (ABool (has k c)), c)
  | OpSize => (Return (ANumber (size c)), c)
  | OpSweep filter keepFilter => (Return AUndefined, sweep filter keepFilter c)
  end.

(** A history of calls, and the collections it goes through
    (the one reached after each call, in order). *)
Fixpoint history (ops : list CacheOp) (c : CacheCollection)
    : list CacheCollection :=
  match ops with
  | [] => []
  | op :: ops => (call op c).2 :: history ops (call op c).2
  end.


End Collection.
Arguments CacheEntry : clear implicits.
Arguments CacheCollection : clear implicits.
Arguments CacheOp : clear implicits.
Arguments CacheAnswer : clear implicits.
End Cache.

(** ** src/src/gateway/events/messageReactionRemoveEmoji.ts

    The handler reads the channel's message cache and the message's
    reaction cache through the contract above.  What else it calls is
    not among the sources and is taken as given: [getGuild] of the
    [Event] base class, the two-argument [channels.get] of the cache
    manager, [structuredClone] of @utils/index and [client.emit]. *)

Module MessageReactionRemoveEmoji.
Section Handler.
Context {R : Resources}.

(** [GatewayMessageReactionRemoveEmojiDispatchData]. *)
Record DispatchData : Type := mkDispatchData {
  d_channel_id : string;
  d_guild_id : option string;
  d_message_id : string;
  d_emoji : APIEmoji
}.

(** A cached message: its reactions are keyed by [emoji.id], which is
    [null] for a unicode emoji. *)
Record CachedMessage : Type := mkCachedMessage {
  cm_id : string;
  cm_reactions : Cache.CacheCollection (option string) StoredReaction
}.

(** A cached channel; [isTextBasedChannel] holds of those that carry a
    message cache, and of nothing else ([undefined] included). *)
Inductive CachedChannel : Type :=
| TextBased (messages : Cache.CacheCollection string CachedMessage)
| NotTextBased.

(** [client.emit("messageReactionRemoveEmoji", message, removed)]. *)
Inductive Emitted : Type :=
| EmitMessageReactionRemoveEmoji (message : CachedMessage)
    (removed : option StoredReaction).

(** [message.reactions.delete(emoji.id)] changes the message object that
    sits in the channel's cache, which sits in the client's cache: the
    changed message takes the place of the old one, entry for entry. *)
Definition put_back {K T : Type} `{EqDecision K} (k : K) (v : T)
    (c : Cache.CacheCollection K T) : Cache.CacheCollection K T :=
  Cache.with_storage c (Cache.overwrite k v (Cache.storage c)).

Section Collaborators.

(** A guild as [getGuild] answers it, and whatever the client holds
    that the channel lookup reads. *)
Variables Guild Store : Type.

(** [this.getGuild(data.guild_id)]. *)
Variable getGuild : option string -> Store -> Completion (option Guild).

(** [this.client.cache.channels.get(data.channel_id, guild)]. *)
Variable channels_get :
  string -> option Guild -> Store -> Completion (option CachedChannel).

(** The channel object found by that lookup is changed in place; in the
    store this is the replacement of what the lookup answers. *)
Variable channels_replace :
  string -> option Guild -> CachedChannel -> Store -> Store.

(** [structuredClone(value)] of @utils/index. *)
Variable structuredClone :
  option StoredReaction -> Completion (option StoredReaction).

(** [this.client.emit(...)]: the listeners run inside the call, and
    what one of them throws comes out of it. *)
Variable emit : CachedMessage -> option StoredReaction -> Completion unit.

(** [run(data)], statement by statement: the completion, the store
    afterwards and the calls of [emit] made. *)
Definition handle (data : DispatchData) (store : Store)
    : Completion unit * Store * list Emitted :=
  match getGuild (d_guild_id data) store with
  | Throw e => (Throw e, store, [])
  | Return guild =>
      match channels_get (d_channel_id data) guild store with
      | Throw e => (Throw e, store, [])
      | Return (Some (TextBased messages)) =>
          match Cache.get (d_message_id data) messages with
          | Some message =>
              match structuredClone
                      (Cache.get (emoji_id (d_emoji data)) (cm_reactions message))
              with
              | Throw e => (Throw e, store, [])
              | Return removed =>
                  let reactions :=
                    (Cache.delete (emoji_id (d_emoji data))
                       (cm_reactions message)).2 in
                  let message' :=
                    {| cm_id := cm_id message; cm_reactions := reactions |} in
                  let messages' :=
                    put_back (d_message_id data) message' messages in
                  let store' :=
                    channels_replace (d_channel_id data) guild
                      (TextBased messages') store in
                  match emit message' removed with
                  | Return _ =>
                      (Return (), store',
                       [EmitMessageReactionRemoveEmoji message' removed])
                  | Throw e =>
                      (Throw e, store',
                       [EmitMessageReactionRemoveEmoji message' removed])
                  end
              end
          | None => (Return (), store, [])
          end
      | Return (Some NotTextBased) => (Return (), store, [])
      | Return None => (Return (), store, [])
      end
  end.

End Collaborators.

(** [run(data)] with stand-ins for the collaborators: no guild is
    found, the channel is looked up by its id in the client's channel
    cache, [structuredClone] hands back a copy equal to its argument and
    no listener of [emit] throws. *)
Definition run (data : DispatchData)
    (channels : Cache.CacheCollection string CachedChannel)
    : Completion unit * Cache.CacheCollection string CachedChannel * list Emitted :=
  handle unit (Cache.CacheCollection string CachedChannel)
    (fun _ _ => Return None)
    (fun id _ store => Return (Cache.get id store))
    (fun id _ channel store => put_back id channel store)
    (fun value => Return value)
    (fun _ _ => Return ())
    data channels.

End Handler.
End MessageReactionRemoveEmoji.

(** ** The request dispatcher

    The REST client is not among the sources: src/src/typings/index.d.ts
    declares its options ([RequestHandlerOptions], with [maxRetry]), its
    events ([RestEvents], [RateLimitEvent]) and its headers.  The
    dispatcher below is written from sections 3, 4.3 and 5 of the design
    document, as a machine that reacts to what its environment does:
    callers submit requests, time passes, the worker of a bucket gets to
    run, the transport answers.  Every list of such events is a possible
    behaviour; an event that cannot happen in the state it meets (a
    worker woken while its request is in flight, an answer with nothing
    in flight) changes nothing. *)

Module Rest.

(** Modelled from the spec: the bucket key of section 4.3, whose
    derivation is missing from the sources: "combine HTTP method, route
    template (...), and any major path parameter". *)
Abbreviation BucketKey := (string * string * string)%type.

Record Request : Type := mkRequest {
  method : string;
  route : string;
  major : string;
  body : string
}.

Definition bucket_key (r : Request) : BucketKey := (method r, route r, major r).

(** What the transport answers: a success with the rate-limit headers
    (limit, remaining, reset-after), a 429 with retry-after and the
    global-scope flag, a 5xx or network error, or a 4xx that is not
    retried. *)
Inductive HttpResponse : Type :=
| Success (limit remaining resetAfter : N) (payload : string)
| TooManyRequests (retryAfter : N) (isGlobal : bool)
| ServerFailure
| ClientError (status : N) (payload : string).

(** What the caller of [request] gets in the end. *)
Inductive Outcome : Type :=
| Result (payload : string)
| APIError (status : N) (payload : string)
| RetryExhausted.

(** [RateLimitEvent] of src/src/typings/index.d.ts, the payload of the
    [rateLimit] event of [RestEvents]. *)
Record RateLimitEvent : Type := mkRateLimitEvent {
  global : bool;
  timeout : N;
  limit : N;
  router : string;
  rl_method : string
}.

(** A request waiting in a bucket, with its retry counter and, after a
    5xx, the time before which it is not sent again. *)
Record Pending : Type := mkPending {
  p_id : nat;
  p_request : Request;
  p_retries : nat;
  p_notBefore : N
}.

(** Modelled from the spec: RateBucket of section 3, which is missing
    from the sources: "limit (int), remaining (int), resetAt (timestamp),
    pending queue (ordered list of requests, FIFO)"; [inflight] says that
    the head of the queue has been sent and not yet answered ("at most
    one request per bucket is in flight at a time"). *)
Record RateBucket : Type := mkBucket {
  b_limit : N;
  b_remaining : N;
  b_resetAt : N;
  queue : list Pending;
  inflight : bool
}.

(** Modelled from the spec: GlobalLimiter of section 3, which is missing
    from the sources: "remaining (int), resetAt (timestamp)". *)
Record GlobalLimiter : Type := mkGlobal {
  g_remaining : N;
  g_resetAt : N
}.

(** Modelled from the spec: RequestDispatcher of section 4.3, which is
    missing from the sources: it "owns GlobalLimiter and all
    RateBuckets"; [maxRetry] is the option of [RequestHandlerOptions],
    [backoffBase] the first delay of the exponential backoff, [nextId]
    numbers the requests in submission order. *)
Record RequestDispatcher : Type := mkDispatcher {
  now : N;
  maxRetry : nat;
  backoffBase : N;
  nextId : nat;
  limiter : GlobalLimiter;
  buckets : gmap BucketKey RateBucket
}.

Definition init (retries : nat) (base : N) : RequestDispatcher :=
  {| now := 0; maxRetry := retries; backoffBase := base; nextId := 0;
     limiter := {| g_remaining := 0; g_resetAt := 0 |};
     buckets := ∅ |}.

(** What the environment does. *)
Inductive Event : Type :=
| Submit (r : Request)
| Tick (dt : N)
| Wake (k : BucketKey)
| Answer (k : BucketKey) (resp : HttpResponse).

(** What can be seen of the dispatcher. *)
Inductive Observation : Type :=
| Enqueued (k : BucketKey) (id : nat)
| Dispatched (k : BucketKey) (id : nat) (at_time : N)
| RateLimited (e : RateLimitEvent) (at_time : N)
| Completed (k : BucketKey) (id : nat) (o : Outcome).

(** A bucket created "lazily on first request to a new route key":
    nothing is known of its quota yet, one request may go. *)
Definition fresh_bucket : RateBucket :=
  {| b_limit := 1; b_remaining := 1; b_resetAt := 0; queue := []; inflight := false |}.

Definition bucket_of (d : RequestDispatcher) (k : BucketKey) : RateBucket :=
  match buckets d !! k with Some b => b | None => fresh_bucket end.

Definition queue_of (d : RequestDispatcher) (k : BucketKey) : list Pending :=
  match buckets d !! k with Some b => queue b | None => [] end.

Definition with_bucket (d : RequestDispatcher) (k : BucketKey) (b : RateBucket)
    : RequestDispatcher :=
  {| now := now d; maxRetry := maxRetry d; backoffBase := backoffBase d;
     nextId := nextId d; limiter := limiter d;
     buckets := <[k := b]> (buckets d) |}.

Definition with_limiter (d : RequestDispatcher) (g : GlobalLimiter)
    : RequestDispatcher :=
  {| now := now d; maxRetry := maxRetry d; backoffBase := backoffBase d;
     nextId := nextId d; limiter := g; buckets := buckets d |}.

(** Modelled from the spec: step 1 of the dispatch loop of section 4.3,
    which is missing from the sources: "Wait until remaining > 0 or
    now >= resetAt (refill remaining = limit after reset); wait until the
    GlobalLimiter gate is open." *)
Definition bucket_ready (t : N) (b : RateBucket) : bool :=
  (0 <? b_remaining b)%N || (b_resetAt b <=? t)%N.

Definition gate_open (t : N) (g : GlobalLimiter) : bool :=
  (0 <? g_remaining g)%N || (g_resetAt g <=? t)%N.

(** Passing the gate uses one unit of the global quota while the
    window is running. *)
Definition acquire (t : N) (g : GlobalLimiter) : GlobalLimiter :=
  if (g_resetAt g <=? t)%N then g
  else {| g_remaining := N.pred (g_remaining g); g_resetAt := g_resetAt g |}.

(** Modelled from the spec: the closing of the gate in step 4 of
    section 4.3, which is missing from the sources: "close the
    GlobalLimiter gate for that duration (blocking all buckets)": the
    quota is gone and the gate stays shut at least until the duration has
    run; a gate already shut for longer stays so. *)
Definition close_gate (t d : N) (g : GlobalLimiter) : GlobalLimiter :=
  {| g_remaining := 0; g_resetAt := N.max (g_resetAt g) (t + d) |}.

(** Sending uses one unit of the bucket, refilled first when its window
    has run out. *)
Definition consume (t : N) (b : RateBucket) : RateBucket :=
  {| b_limit := b_limit b;
     b_remaining := N.pred (if (b_resetAt b <=? t)%N then b_limit b
                            else b_remaining b);
     b_resetAt := b_resetAt b;
     queue := queue b;
     inflight := true |}.

(** "retry with exponential backoff". *)
Definition backoff (base : N) (retries : nat) : N := (base * 2 ^ N.of_nat retries)%N.

Definition can_send (d : RequestDispatcher) (b : RateBucket) (p : Pending) : bool :=
  negb (inflight b)
  && bucket_ready (now d) b
  && gate_open (now d) (limiter d)
  && (p_notBefore p <=? now d)%N.

(** Modelled from the spec: the enqueueing of section 4.3, which is
    missing from the sources: "requests enqueued to the same bucket are
    dispatched in submission order (FIFO)"; a submitted request goes to
    the end of its bucket's queue. *)
Definition submit (r : Request) (d : RequestDispatcher)
    : RequestDispatcher * list Observation :=
  let k := bucket_key r in
  let b := bucket_of d k in
  let p := {| p_id := nextId d; p_request := r; p_retries := 0; p_notBefore := 0 |} in
  ({| now := now d; maxRetry := maxRetry d; backoffBase := backoffBase d;
      nextId := S (nextId d); limiter := limiter d;
      buckets := <[k := {| b_limit := b_limit b; b_remaining := b_remaining b;
                           b_resetAt := b_resetAt b;
                           queue := (queue b ++ [p])%list;
                           inflight := inflight b |}]> (buckets d) |},
   [Enqueued k (nextId d)]).

(** Modelled from the spec: steps 1 and 2 of the dispatch loop of
    section 4.3, which is missing from the sources, for the worker of
    bucket [k]: when the head of the queue may go, it passes the gate and
    is sent. *)
Definition wake (k : BucketKey) (d : RequestDispatcher)
    : RequestDispatcher * list Observation :=
  match buckets d !! k with
  | Some b =>
      match queue b with
      | p :: _ =>
          if can_send d b p then
            (with_bucket (with_limiter d (acquire (now d) (limiter d))) k
               (consume (now d) b),
             [Dispatched k (p_id p) (now d)])
          else (d, [])
      | [] => (d, [])
      end
  | None => (d, [])
  end.

(** The request at the head leaves the queue. *)
Definition finish (b : RateBucket) (rest : list Pending) : RateBucket :=
  {| b_limit := b_limit b; b_remaining := b_remaining b; b_resetAt := b_resetAt b;
     queue := rest; inflight := false |}.

(** Modelled from the spec: the retry rule of steps 4 and 5 of section
    4.3, which is missing from the sources: "increment a retry counter
    and re-attempt up to maxRetry; exceeding maxRetry fails with
    RetryExhausted": the request stays at the head to be sent again, or
    leaves with RetryExhausted. *)
Definition retry_or_fail (d : RequestDispatcher) (k : BucketKey) (b : RateBucket)
    (p : Pending) (rest : list Pending) (notBefore : N)
    : RateBucket * list Observation :=
  if (maxRetry d <? S (p_retries p))%nat then
    (finish b rest, [Completed k (p_id p) RetryExhausted])
  else
    ({| b_limit := b_limit b; b_remaining := b_remaining b; b_resetAt := b_resetAt b;
        queue := {| p_id := p_id p; p_request := p_request p;
                    p_retries := S (p_retries p); p_notBefore := notBefore |} :: rest;
        inflight := false |},
     []).

(** Modelled from the spec: steps 3 to 6 of the dispatch loop of section
    4.3, which is missing from the sources. *)
Definition answer (k : BucketKey) (resp : HttpResponse) (d : RequestDispatcher)
    : RequestDispatcher * list Observation :=
  match buckets d !! k with
  | Some b =>
      match queue b with
      | p :: rest =>
          if inflight b then
            match resp with
            | Success lim rem resetAfter payload =>
                (with_bucket d k
                   {| b_limit := lim; b_remaining := rem;
                      b_resetAt := (now d + resetAfter)%N;
                      queue := rest; inflight := false |},
                 [Completed k (p_id p) (Result payload)])
            | TooManyRequests retryAfter isGlobal =>
                let e := {| global := isGlobal; timeout := retryAfter;
                            limit := b_limit b; router := route (p_request p);
                            rl_method := method (p_request p) |} in
                let g := if isGlobal then close_gate (now d) retryAfter (limiter d)
                         else limiter d in
                let b1 := if isGlobal then b
                          else {| b_limit := b_limit b; b_remaining := 0;
                                  b_resetAt := (now d + retryAfter)%N;
                                  queue := queue b; inflight := inflight b |} in
                let '(b2, obs) := retry_or_fail d k b1 p rest (p_notBefore p) in
                (with_bucket (with_limiter d g) k b2,
                 RateLimited e (now d) :: obs)
            | ServerFailure =>
                let '(b2, obs) :=
                  retry_or_fail d k b p rest
                    (now d + backoff (backoffBase d) (p_retries p))%N in
                (with_bucket d k b2, obs)
            | ClientError status payload =>
                (with_bucket d k (finish b rest),
                 [Completed k (p_id p) (APIError status payload)])
            end
          else (d, [])
      | [] => (d, [])
      end
  | None => (d, [])
  end.

Definition tick (dt : N) (d : RequestDispatcher) : RequestDispatcher :=
  {| now := (now d + dt)%N; maxRetry := maxRetry d; backoffBase := backoffBase d;
     nextId := nextId d; limiter := limiter d; buckets := buckets d |}.

Definition step (d : RequestDispatcher) (ev : Event)
    : RequestDispatcher * list Observation :=
  match ev with
  | Submit r => submit r d
  | Tick dt => (tick dt d, [])
  | Wake k => wake k d
  | Answer k resp => answer k resp d
  end.

(** A run: the state reached and everything observed so far. *)
Definition exec (st : RequestDispatcher * list Observation) (ev : Event)
    : RequestDispatcher * list Observation :=
  (fst (step (fst st) ev), (snd st ++ snd (step (fst st) ev))%list).

Definition run (evs : list Event) (st : RequestDispatcher * list Observation)
    : RequestDispatcher * list Observation :=
  fold_left exec evs st.

(** The ids submitted to, sent from and completed in bucket [k], in the
    order in which this was observed. *)
Definition submitted_id (k : BucketKey) (o : Observation) : option nat :=
  match o with
  | Enqueued k' id => if decide (k' = k) then Some id else None
  | _ => None
  end.

Definition completed_id (k : BucketKey) (o : Observation) : option nat :=
  match o with
  | Completed k' id _ => if decide (k' = k) then Some id else None
  | _ => None
  end.

Definition submitted (k : BucketKey) (obs : list Observation) : list nat :=
  omap (submitted_id k) obs.

Definition completed (k : BucketKey) (obs : list Observation) : list nat :=
  omap (completed_id k) obs.

Definition is_dispatch (o : Observation) : bool :=
  match o with Dispatched _ _ _ => true | _ => false end.

Definition dispatches (obs : list Observation) : nat :=
  length (List.filter is_dispatch obs).


(** The queue of every bucket holds what was submitted to it and has not
    completed, in submission order. *)
Definition fifo (st : RequestDispatcher * list Observation) : Prop :=
  forall k, submitted k (snd st)
            = (completed k (snd st) ++ map p_id (queue_of (fst st) k))%list.

(** Every request that was sent was, when it was sent, the oldest
    request of its bucket that had not completed. *)
Definition sent_oldest_first (obs : list Observation) : Prop :=
  forall j k id t,
    obs !! j = Some (Dispatched k id t) ->
    exists later,
      submitted k (take j obs) = (completed k (take j obs) ++ id :: later)%list.

(** A response that makes the dispatcher retry. *)
Definition failing (resp : HttpResponse) : bool :=
  match resp with
  | TooManyRequests _ _ | ServerFailure => true
  | _ => false
  end.

(** How long the worker has to wait after a failed attempt numbered
    [retries] before the next one can go. *)
Definition delay_after (base : N) (retries : nat) (resp : HttpResponse) : N :=
  match resp with
  | TooManyRequests retryAfter _ => retryAfter
  | ServerFailure => backoff base retries
  | _ => 0%N
  end.

(** The events of a request that fails again and again: each answer of
    [resps] arrives, and after each but the last the worker waits and
    sends again. *)
Fixpoint failing_attempts (k : BucketKey) (base : N) (retries : nat)
    (resps : list HttpResponse) : list Event :=
  match resps with
  | [] => []
  | [resp] => [Answer k resp]
  | resp :: resps' =>
      Answer k resp :: Tick (delay_after base retries resp) :: Wake k
        :: failing_attempts k base (S retries) resps'
  end.

(** The head of bucket [k] is request [id], in flight on its attempt
    number [retries], with nothing else holding the bucket back. *)
Definition in_flight (d : RequestDispatcher) (k : BucketKey) (id retries : nat)
    : Prop :=
  exists b p rest,
    buckets d !! k = Some b /\ queue b = p :: rest /\ inflight b = true
    /\ p_id p = id /\ p_retries p = retries
    /\ (p_notBefore p <= now d)%N
    /\ (b_resetAt b <= now d)%N /\ (g_resetAt (limiter d) <= now d)%N.

(** No pending request has been retried more often than [maxRetry]. *)
Definition retries_bounded (d : RequestDispatcher) : Prop :=
  forall k b p,
    buckets d !! k = Some b -> In p (queue b) -> p_retries p <= maxRetry d.


End Rest.

(** ** Sample data for the worked examples *)

Definition sample_component_a : APIInteraction :=
  {| i_id := "1001"; i_application_id := "app"; i_type := 3; i_token := "tok-a";
     i_version := 1; i_guild_id := Some "g1"; i_channel_id := Some "c1";
     i_locale := "en-US"; i_custom_id := Some "button"; i_command_name := None |}.

Definition sample_component_b : APIInteraction :=
  {| i_id := "2002"; i_application_id := "other"; i_type := 3; i_token := "tok-b";
     i_version := 1; i_guild_id := None; i_channel_id := None;
     i_locale := "pt-BR"; i_custom_id := None; i_command_name := Some "ping" |}.

Definition sample_command : APIInteraction :=
  {| i_id := "3003"; i_application_id := "app"; i_type := 2; i_token := "tok-c";
     i_version := 1; i_guild_id := Some "g1"; i_channel_id := Some "c1";
     i_locale := "en-US"; i_custom_id := None; i_command_name := Some "ping" |}.

(** A stand-in for [transformMessagePostData]: a string becomes the
    [content] of an otherwise empty body. *)
Definition sample_transform (c : MessagePostData + string) : MessagePostData :=
  match c with
  | inl d => d
  | inr text => {| content := Some text; tts := None; message_reference := None |}
  end.

(** A command interaction received over the gateway, not yet answered. *)
Definition sample_replyable : Interaction.ReplyableInteraction :=
  Interaction.new_ReplyableInteraction sample_command None.

(** A component interaction (a button press) received over the gateway,
    not yet answered. *)
Definition sample_component : Interaction.ReplyableInteraction :=
  Interaction.new_ReplyableInteraction sample_component_a None.

(** A client is represented by the answer of its partial test; a hydrated
    reaction by the wire record and the client it was built from; the
    reaction cache by the log of what was added. *)
Definition sample_resources : Resources :=
  {| Client := bool;
     partial_Reaction := fun client => client;
     Reaction := APIReaction * bool;
     new_Reaction := fun reaction client => (reaction, client);
     Reaction_emoji := fun r => emoji r.1 |}.

Definition sample_cache : @ReactionCacheOps sample_resources :=
  {| ReactionCache := list (@AddCall sample_resources);
     new_Cache := [];
     _add := fun cache a => (cache ++ [a])%list |}.

Definition sample_channel : TextBasedChannel := {| channel_no := "c1" |}.

(** A body whose caller already points at another message in another
    channel. *)
Definition sample_post : MessagePostData :=
  {| content := Some "hello";
     tts := None;
     message_reference :=
       Some {| message_id := "m-other"; channel_id := Some "c-other";
               guild_id := Some "g1"; fail_if_not_exists := Some false |} |}.


Definition sample_darkcord_message
    : @DarkcordMessage.Message sample_resources sample_cache :=
  @DarkcordMessage.mkMessage sample_resources sample_cache
    true "m1" "c1" MessageType.Reply true (Some sample_channel) [].

(** Two requests of the same route on two channels: two buckets. *)
Definition sample_request_a : Rest.Request :=
  {| Rest.method := "POST"; Rest.route := "/channels/:id/messages";
     Rest.major := "1"; Rest.body := "a" |}.

Definition sample_request_b : Rest.Request :=
  {| Rest.method := "POST"; Rest.route := "/channels/:id/messages";
     Rest.major := "2"; Rest.body := "b" |}.

Definition sample_key_a : Rest.BucketKey := Rest.bucket_key sample_request_a.
Definition sample_key_b : Rest.BucketKey := Rest.bucket_key sample_request_b.

(** Both are submitted and sent; the answers arrive in one order or in
    the other. *)
Definition sample_run_a_first : list Rest.Event :=
  [Rest.Submit sample_request_a; Rest.Submit sample_request_b;
   Rest.Wake sample_key_a; Rest.Wake sample_key_b;
   Rest.Tick 20;
   Rest.Answer sample_key_a (Rest.Success 5 4 1000 "a");
   Rest.Tick 30;
   Rest.Answer sample_key_b (Rest.Success 5 4 1000 "b")].

Definition sample_run_b_first : list Rest.Event :=
  [Rest.Submit sample_request_a; Rest.Submit sample_request_b;
   Rest.Wake sample_key_a; Rest.Wake sample_key_b;
   Rest.Tick 20;
   Rest.Answer sample_key_b (Rest.Success 5 4 1000 "b");
   Rest.Tick 30;
   Rest.Answer sample_key_a (Rest.Success 5 4 1000 "a")].

(** Four answers that all ask for a retry. *)
Definition sample_failures : list Rest.HttpResponse :=
  [Rest.TooManyRequests 500 false; Rest.ServerFailure;
   Rest.TooManyRequests 100 true; Rest.ServerFailure].


(** ** src/unnamed/part_001: the other responses of an interaction *)

Module Responses.
Import Interaction.

(** [APIApplicationCommandOptionChoice]. *)
Record Choice : Type := mkChoice {
  choice_name : string;
  choice_value : string
}.

(** [APIModalInteractionResponseCallbackData]. *)
Record ModalData : Type := mkModalData {
  modal_custom_id : string;
  modal_title : string
}.

(** What the responses below carry besides the bodies of [reply] and
    [defer]: the empty object of [deferUpdate], the choices of an
    autocomplete result, a modal. *)
Inductive Payload : Type :=
| PEmpty
| PChoices (choices : list Choice)
| PModal (data : ModalData).

(** The calls these methods make: those of [Interaction.Call], the two
    responding calls with one of the payloads above, and
    [rest.editWebhookMessage]. *)
Inductive Transport : Type :=
| Original (c : Call)
| Send (h : InteractionResponse) (p : Payload) (responseType : Z)
| Respond (id token : string) (p : Payload) (responseType : Z)
| EditWebhookMessage (applicationId token messageId : string) (c : MessagePostData).

(** [await this._http?.send(p, t)] when [isHTTP], else
    [await this._client.rest.respondInteraction(id, token, p, t)]: the
    pattern every responding method repeats. *)
Definition respond_with (http : option InteractionResponse) (is_http : bool)
    (id token : string) (p : Payload) (t : Z) (net : Settled unit)
    : Completion unit * list Transport :=
  if is_http then
    match http with
    | Some h =>
        match net with
        | Fulfilled _ => (Return (), [Send h p t])
        | RejectedWith r => (Throw (Rejected r), [Send h p t])
        end
    | None => (Return (), [])
    end
  else
    match net with
    | Fulfilled _ => (Return (), [Respond id token p t])
    | RejectedWith r => (Throw (Rejected r), [Respond id token p t])
    end.

Definition respond_replyable (this : ReplyableInteraction) (p : Payload) (t : Z)
    (net : Settled unit) : Completion unit * list Transport :=
  respond_with (_http this) (isHTTP this) (id (base this)) (token (base this))
    p t net.

Definition Result (A : Type) : Type :=
  (Completion A * ReplyableInteraction * list Transport)%type.

(** A method of [Interaction] with its calls as [Transport]. *)
Definition lift {A} (o : Outcome A) : Result A :=
  (completion o, after o, map Original (calls o)).

Section Methods.

(** [transformMessagePostData] of @utils/index, as in [Interaction]. *)
Variable transformMessagePostData : MessagePostData + string -> MessagePostData.

(** [ComponentInteraction.deferUpdate()] and
    [ModalSubmitInteraction.deferUpdate()], the same text twice: the
    guard, the response, and no assignment to [acknowledged]. *)
Definition deferUpdate (net : Settled unit) (this : ReplyableInteraction)
    : Result unit :=
  if acknowledged this then
    (Throw InteractionAlreadyAcknowledged, this, [])
  else
    let '(c, cs) := respond_replyable this PEmpty
                      InteractionResponseType.DeferredMessageUpdate net in
    (c, this, cs).

(** [async editReply(messageId, content)]: no guard. *)
Definition editReply (messageId : string) (content : MessagePostData + string)
    (net : Settled unit) (this : ReplyableInteraction) : Result unit :=
  let c := EditWebhookMessage (applicationId (base this)) (token (base this))
             messageId (transformMessagePostData content) in
  match net with
  | Fulfilled _ => (Return (), this, [c])
  | RejectedWith r => (Throw (Rejected r), this, [c])
  end.

(** [editOriginalReply(content)]. *)
Definition editOriginalReply (content : MessagePostData) (net : Settled unit)
    (this : ReplyableInteraction) : Result unit :=
  editReply "@original" (inl content) net this.

(** [deleteFollowUP(messageId)]: no guard. *)
Definition deleteFollowUP (messageId : string) (net : Settled unit)
    (this : ReplyableInteraction) : Result unit :=
  let c := Original (DeleteWebhookMessage (applicationId (base this))
                       (token (base this)) messageId) in
  match net with
  | Fulfilled _ => (Return (), this, [c])
  | RejectedWith r => (Throw (Rejected r), this, [c])
  end.

(** [ComponentInteraction.editParent(content)]: the content is
    transformed first; an acknowledged interaction edits its original
    reply (which transforms once more), another one answers with
    UpdateMessage. *)
Definition component_editParent (content : MessagePostData) (net : Settled unit)
    (this : ReplyableInteraction) : Result unit :=
  let content := transformMessagePostData (inl content) in
  if acknowledged this then editOriginalReply content net this
  else
    let '(c, cs) := respond this (BMessage content)
                      InteractionResponseType.UpdateMessage net in
    (c, this, map Original cs).

(** [ModalSubmitInteraction.editParent(data)]: the same without the
    first transformation. *)
Definition modal_editParent (data : MessagePostData) (net : Settled unit)
    (this : ReplyableInteraction) : Result unit :=
  if acknowledged this then editOriginalReply data net this
  else
    let '(c, cs) := respond this (BMessage data)
                      InteractionResponseType.UpdateMessage net in
    (c, this, map Original cs).

(** [CommandInteraction.createModal(data)]: [acknowledged] is set in
    both branches, after the awaited response. *)
Definition createModal (data : ModalData) (net : Settled unit)
    (this : ReplyableInteraction) : Result unit :=
  if acknowledged this then
    (Throw InteractionAlreadyAcknowledged, this, [])
  else
    match respond_replyable this (PModal data)
            InteractionResponseType.Modal net with
    | (Return _, cs) => (Return (), acknowledge this, cs)
    | (Throw e, cs) => (Throw e, this, cs)
    end.

(** The calls that answer the interaction itself. *)
Inductive Response : Type :=
| DoReply (content : MessagePostData + string)
| DoDefer (flags : option Z)
| DoDeferUpdate
| DoCreateModal (data : ModalData).

Definition method_name (r : Response) : string :=
  match r with
  | DoReply _ => "reply"
  | DoDefer _ => "defer"
  | DoDeferUpdate => "deferUpdate"
  | DoCreateModal _ => "createModal"
  end.

(** Which class has which method: [reply] and [defer] are inherited from
    [ReplyableInteraction] by [CommandInteraction],
    [ComponentInteraction] and [ModalSubmitInteraction]; [deferUpdate] is
    declared by [ComponentInteraction] and [ModalSubmitInteraction];
    [createModal] by [CommandInteraction] alone.
    [AutocompleteInteraction] and the base [Interaction] have none of
    them. *)
Definition has_method (cls : InteractionClass) (r : Response) : bool :=
  match cls, r with
  | CCommand, (DoReply _ | DoDefer _ | DoCreateModal _) => true
  | CComponent, (DoReply _ | DoDefer _ | DoDeferUpdate) => true
  | CModalSubmit, (DoReply _ | DoDefer _ | DoDeferUpdate) => true
  | _, _ => false
  end.

(** The body of the method behind a response. *)
Definition body_of (r : Response) (net : Settled unit)
    (this : ReplyableInteraction) : Result unit :=
  match r with
  | DoReply content => lift (reply transformMessagePostData content net this)
  | DoDefer flags => lift (defer flags net this)
  | DoDeferUpdate => deferUpdate net this
  | DoCreateModal data => createModal data net this
  end.

(** A response called on an object of class [cls] whose inherited state
    is [this]: the method's body when the class has the method, and
    otherwise the TypeError of calling [undefined], before anything
    runs. *)
Definition perform (cls : InteractionClass) (r : Response) (net : Settled unit)
    (this : ReplyableInteraction) : Result unit :=
  if has_method cls r then body_of r net this
  else (Throw (NotAFunction (method_name r)), this, []).

(** The responses that assign [acknowledged]. *)
Definition acknowledges (r : Response) : bool :=
  match r with DoDeferUpdate => false | _ => true end.

End Methods.

(** [AutocompleteInteraction.result(choices)]. *)
Definition autocomplete_result (choices : list Choice) (net : Settled unit)
    (this : Autocomplete) : Completion unit * Autocomplete * list Transport :=
  if a_acknowledged this then
    (Throw InteractionAlreadyAcknowledged, this, [])
  else
    match respond_with (a_http this) (a_isHTTP this) (id (a_base this))
            (token (a_base this)) (PChoices choices)
            InteractionResponseType.ApplicationCommandAutocompleteResult net with
    | (Return _, cs) =>
        (Return (),
         {| a_base := a_base this; a_http := a_http this;
            a_isHTTP := a_isHTTP this; a_acknowledged := true |},
         cs)
    | (Throw e, cs) => (Throw e, this, cs)
    end.

End Responses.

(** ** src/unnamed/part_001: resolved data, select menus, command options *)

Module ComponentType.
Definition ActionRow : Z := 1.
Definition Button : Z := 2.
Definition StringSelect : Z := 3.
Definition TextInput : Z := 4.
Definition UserSelect : Z := 5.
Definition RoleSelect : Z := 6.
Definition MentionableSelect : Z := 7.
Definition ChannelSelect : Z := 8.
End ComponentType.

Module ApplicationCommandOptionType.
Definition Subcommand : Z := 1.
Definition SubcommandGroup : Z := 2.
Definition String : Z := 3.
Definition Integer : Z := 4.
Definition Boolean : Z := 5.
Definition User : Z := 6.
Definition Channel : Z := 7.
Definition Role : Z := 8.
Definition Mentionable : Z := 9.
Definition Number : Z := 10.
Definition Attachment : Z := 11.
End ApplicationCommandOptionType.

(** Wire records of discord-api-types/v10, as far as the code reads
    them. *)
Record APIUser : Type := mkAPIUser {
  user_id : string;
  username : string
}.

Record APIRole : Type := mkAPIRole {
  role_id : string;
  role_name : string
}.

Record APIResolvedChannel : Type := mkAPIResolvedChannel {
  rc_id : string;
  rc_type : Z
}.

Record APIResolvedMember : Type := mkAPIResolvedMember {
  nick : option string
}.

Record APIAttachment : Type := mkAPIAttachment {
  attachment_id : string;
  filename : string
}.

(** [APIInteractionDataResolved]: maps from id to record, each of them
    optional. *)
Record Resolved : Type := mkResolved {
  r_users : option (gmap string APIUser);
  r_members : option (gmap string APIResolvedMember);
  r_roles : option (gmap string APIRole);
  r_channels : option (gmap string APIResolvedChannel);
  r_attachments : option (gmap string APIAttachment)
}.

(** [map?.[id]]. *)
Definition at_id {A : Type} (m : option (gmap string A)) (id : string) : option A :=
  match m with Some m => m !! id | None => None end.

(** The hydrated classes and the caches of the client and of a guild are
    not among the sources; the code reaches them through these
    operations.  [users_add] and [guild_roles_add] also put the entity
    into the cache; the functions below record that they were called. *)
Class Entities : Type := {
  User : Type;
  Member : Type;
  Role : Type;
  Channel : Type;
  Guild : Type;
  (** [client.users.get(id)]. *)
  users_get : string -> option User;
  (** [client.users.add(user)]. *)
  users_add : APIUser -> User;
  (** [client.channels.cache.get(id)]. *)
  channels_cache_get : string -> option Channel;
  (** [client.roles.cache.get(id)]. *)
  roles_cache_get : string -> option Role;
  (** [guild.members.cache.get(id)]. *)
  members_cache_get : Guild -> string -> option Member;
  (** [guild.roles.cache.get(id)]. *)
  guild_roles_cache_get : Guild -> string -> option Role;
  (** [guild.roles.add(role)]. *)
  guild_roles_add : Guild -> APIRole -> Role
}.

Module SelectMenu.
Section WithEntities.
Context {E : Entities}.

(** class [SelectMenuInteractionValues]; [resolved] is [null] for a
    string select. *)
Record SelectMenuInteractionValues : Type := mkValues {
  resolved : option Resolved;
  _rawValues : list string;
  guild : option Guild
}.

(** The [Error] thrown by [_get]: "Cannot get channels, mentions, roles
    or members in string select menu". *)
Inductive SelectError : Type := CannotGetInStringSelect.

(** [_get(fn)]: [this._rawValues.map(fn).filter((r) => !!r)] unless
    [#resolved] is null. *)
Definition _get {T : Type} (fn : string -> option T)
    (this : SelectMenuInteractionValues) : SelectError + list T :=
  match resolved this with
  | None => inl CannotGetInStringSelect
  | Some _ => inr (omap fn (_rawValues this))
  end.

(** [this.#resolved?.part?.[id]]. *)
Definition resolved_at {A : Type} (part : Resolved -> option (gmap string A))
    (this : SelectMenuInteractionValues) (id : string) : option A :=
  match resolved this with
  | Some r => at_id (part r) id
  | None => None
  end.

(** [channels()]. *)
Definition channels (this : SelectMenuInteractionValues)
    : SelectError + list Channel :=
  _get (fun id =>
          match resolved_at r_channels this id with
          | Some channel => channels_cache_get (rc_id channel)
          | None => None
          end) this.

(** [users()]. *)
Definition users (this : SelectMenuInteractionValues) : SelectError + list User :=
  _get (fun id =>
          match resolved_at r_users this id with
          | Some user => users_get (user_id user)
          | None => None
          end) this.

(** [this.guild?.members.cache.get(id)]. *)
Definition guild_member (this : SelectMenuInteractionValues) (id : string)
    : option Member :=
  match guild this with
  | Some g => members_cache_get g id
  | None => None
  end.

(** [members()]. *)
Definition members (this : SelectMenuInteractionValues)
    : SelectError + list Member :=
  _get (fun id =>
          match resolved_at r_members this id with
          | Some member => guild_member this id
          | None => None
          end) this.

(** [roles()]. *)
Definition roles (this : SelectMenuInteractionValues) : SelectError + list Role :=
  _get (fun id =>
          match resolved_at r_roles this id with
          | Some role =>
              match guild this with
              | Some g => guild_roles_cache_get g (role_id role)
              | None => None
              end
          | None => None
          end) this.

(** What [mentionables()] collects. *)
Inductive Mentioned : Type :=
| MentionedMember (m : Member)
| MentionedUser (u : User)
| MentionedChannel (c : Channel)
| MentionedRole (r : Role).

(** The callback of [mentionables()]: member first, then user, channel,
    role. *)
Definition mentionable_of (this : SelectMenuInteractionValues) (id : string)
    : option Mentioned :=
  match resolved_at r_members this id with
  | Some _ =>
      match guild_member this id with
      | Some m => Some (MentionedMember m)
      | None => MentionedUser <$> users_get id
      end
  | None =>
      match resolved_at r_users this id with
      | Some user => MentionedUser <$> users_get (user_id user)
      | None =>
          match resolved_at r_channels this id with
          | Some channel => MentionedChannel <$> channels_cache_get (rc_id channel)
          | None =>
              match resolved_at r_roles this id with
              | Some role => MentionedRole <$> roles_cache_get (role_id role)
              | None => None
              end
          end
      end
  end.

(** [mentionables()]. *)
Definition mentionables (this : SelectMenuInteractionValues)
    : SelectError + list Mentioned :=
  _get (mentionable_of this) this.

(** [strings()]. *)
Definition strings (this : SelectMenuInteractionValues) : list string :=
  _rawValues this.

(** [APIMessageComponentInteractionData]: [values] and [resolved] come
    with select menus only. *)
Record ComponentData : Type := mkComponentData {
  component_type : Z;
  custom_id : string;
  values : list string;
  data_resolved : option Resolved
}.

(** class [SelectMenuInteractionData]. *)
Record SelectMenuInteractionData : Type := mkSelectData {
  componentType : Z;
  customId : string;
  sd_resolved : option Resolved;
  sd_values : SelectMenuInteractionValues
}.

(** Its constructor: [resolved] is taken from the payload when the key is
    there, and handed to the values. *)
Definition new_SelectMenuInteractionData (data : ComponentData)
    (guild : option Guild) : SelectMenuInteractionData :=
  {| componentType := component_type data;
     customId := custom_id data;
     sd_resolved := data_resolved data;
     sd_values := {| resolved := data_resolved data;
                     _rawValues := values data;
                     guild := guild |} |}.

(** The test of the [ComponentInteraction] constructor:
    [[ChannelSelect, MentionableSelect, RoleSelect, StringSelect,
      UserSelect].some((type) => this.componentType === type)]. *)
Definition is_select (t : Z) : bool :=
  existsb (fun type => (t =? type)%Z)
    [ComponentType.ChannelSelect; ComponentType.MentionableSelect;
     ComponentType.RoleSelect; ComponentType.StringSelect;
     ComponentType.UserSelect].

(** The [data] field a [ComponentInteraction] ends up with. *)
Definition component_data (data : ComponentData) (guild : option Guild)
    : option SelectMenuInteractionData :=
  if is_select (component_type data)
  then Some (new_SelectMenuInteractionData data guild)
  else None.

End WithEntities.
End SelectMenu.

Module CommandOptions.

(** The value of an option on the wire: a string (also the id of a
    user, channel, role or attachment), a number (integers here) or a
    boolean. *)
Inductive OptionValue : Type :=
| VString (s : string)
| VNumber (n : Z)
| VBoolean (b : bool).

(** [APIApplicationCommandInteractionDataOption]. *)
#[local] Unset Elimination Schemes.
Inductive DataOption : Type :=
| mkDataOption (name : string) (type : Z) (value : option OptionValue)
    (options : option (list DataOption)).
#[local] Set Elimination Schemes.

Definition opt_name (o : DataOption) : string :=
  match o with mkDataOption n _ _ _ => n end.
Definition opt_type (o : DataOption) : Z :=
  match o with mkDataOption _ t _ _ => t end.
Definition opt_value (o : DataOption) : option OptionValue :=
  match o with mkDataOption _ _ v _ => v end.
Definition opt_options (o : DataOption) : option (list DataOption) :=
  match o with mkDataOption _ _ _ os => os end.

(** [options[0].options ?? []]. *)
Definition children (o : DataOption) : list DataOption :=
  match opt_options o with Some os => os | None => [] end.

Section WithEntities.
Context {E : Entities}.

(** class [CommandInteractionOptions]; [#resolved] is what the caller
    passed as [data.resolved!], which the payload may lack. *)
Record CommandInteractionOptions : Type := mkOptions {
  options : list DataOption;
  subCommand : option string;
  subCommandGroup : option string;
  resolved : option Resolved;
  guild : option Guild
}.

(** The two unwrapping steps of the constructor, in its order: first a
    leading Subcommand, then a leading SubcommandGroup. *)
Definition unwrap (kind : Z) (opts : list DataOption)
    : option string * list DataOption :=
  match opts with
  | o :: _ =>
      if (opt_type o =? kind)%Z then (Some (opt_name o), children o)
      else (None, opts)
  | [] => (None, opts)
  end.

Definition new_CommandInteractionOptions (opts : list DataOption)
    (res : option Resolved) (g : option Guild) : CommandInteractionOptions :=
  let '(sub, opts1) := unwrap ApplicationCommandOptionType.Subcommand opts in
  let '(group, opts2) := unwrap ApplicationCommandOptionType.SubcommandGroup opts1 in
  {| options := opts2; subCommand := sub; subCommandGroup := group;
     resolved := res; guild := g |}.

(** [toArray()]. *)
Definition toArray (this : CommandInteractionOptions) : list DataOption :=
  options this.

(** The JavaScript values [get] and the typed getters hand out. *)
Inductive Value : Type :=
| Null
| Undefined
| Basic (v : OptionValue)
| AttachmentValue (a : APIAttachment)
| UserValue (u : User)
| ChannelValue (c : Channel)
| RawChannelValue (c : APIResolvedChannel)
| RoleValue (r : Role)
| MemberValue (m : Member).

(** What [get] returns when the option exists: for the five resolved
    kinds a fresh object [{ value, name, type }], otherwise the option
    itself (whose [value] may be missing). *)
Record Got : Type := mkGot {
  got_value : Value;
  got_name : string;
  got_type : Z;
  got_option : option DataOption
}.

(** The entities [get] puts into a cache on its way. *)
Inductive CacheEffect : Type :=
| AddedUser (u : APIUser)
| AddedRole (r : APIRole).

(** Reading a property of [this.#resolved] when it is [undefined]. *)
Inductive OptionsError : Type := TypeErrorResolvedUndefined.

(** The property key [option.value] turns into when it indexes a
    resolved map: a string as it is, a number in decimal, a boolean or a
    missing value by its name. *)
Definition property_key (v : option OptionValue) : string :=
  match v with
  | Some (VString s) => s
  | Some (VNumber n) => pretty n
  | Some (VBoolean true) => "true"
  | Some (VBoolean false) => "false"
  | None => "undefined"
  end.

(** [this.#resolved.part?.[option.value]]. *)
Definition lookup_id {A : Type} (m : option (gmap string A))
    (v : option OptionValue) : option A :=
  at_id m (property_key v).

(** [this.guild?.members.cache.get(option.value)]: the cache is keyed
    by id strings, and a key that is not a string finds nothing. *)
Definition guild_member (g : option Guild) (v : option OptionValue)
    : option Member :=
  match g, v with
  | Some g, Some (VString id) => members_cache_get g id
  | _, _ => None
  end.

(** The value and the cache effects of an option of a resolved kind. *)
Definition resolve (g : option Guild) (r : Resolved) (o : DataOption)
    : Value * list CacheEffect :=
  let v := opt_value o in
  if (opt_type o =? ApplicationCommandOptionType.Attachment)%Z then
    (match lookup_id (r_attachments r) v with
     | Some a => AttachmentValue a
     | None => Null
     end, [])
  else if (opt_type o =? ApplicationCommandOptionType.User)%Z then
    match lookup_id (r_users r) v with
    | Some user => (UserValue (users_add user), [AddedUser user])
    | None => (Null, [])
    end
  else if (opt_type o =? ApplicationCommandOptionType.Channel)%Z then
    (match lookup_id (r_channels r) v with
     | Some channel =>
         match channels_cache_get (rc_id channel) with
         | Some c => ChannelValue c
         | None => RawChannelValue channel
         end
     | None => Null
     end, [])
  else if (opt_type o =? ApplicationCommandOptionType.Role)%Z then
    match lookup_id (r_roles r) v, g with
    | Some role, Some g => (RoleValue (guild_roles_add g role), [AddedRole role])
    | _, _ => (Null, [])
    end
  else
    match lookup_id (r_members r) v, guild_member g v with
    | Some _, Some m => (MemberValue m, [])
    | _, _ =>
        match lookup_id (r_users r) v with
        | Some user => (UserValue (users_add user), [AddedUser user])
        | None =>
            match lookup_id (r_roles r) v, g with
            | Some role, Some g =>
                (RoleValue (guild_roles_add g role), [AddedRole role])
            | _, _ => (Null, [])
            end
        end
    end.

(** The types whose [case] builds a new object from [#resolved]. *)
Definition is_resolved_kind (t : Z) : bool :=
  existsb (fun k => (t =? k)%Z)
    [ApplicationCommandOptionType.Attachment; ApplicationCommandOptionType.User;
     ApplicationCommandOptionType.Channel; ApplicationCommandOptionType.Role;
     ApplicationCommandOptionType.Mentionable].

(** [get(name)]: [undefined] ([None]) when no option has the name. *)
Definition get (name : string) (this : CommandInteractionOptions)
    : OptionsError + (option Got * list CacheEffect) :=
  match find (fun o => String.eqb (opt_name o) name) (options this) with
  | None => inr (None, [])
  | Some o =>
      if is_resolved_kind (opt_type o) then
        match resolved this with
        | None => inl TypeErrorResolvedUndefined
        | Some r =>
            let '(v, effects) := resolve (guild this) r o in
            inr (Some {| got_value := v; got_name := opt_name o;
                         got_type := opt_type o; got_option := None |},
                 effects)
        end
      else
        inr (Some {| got_value := match opt_value o with
                                  | Some v => Basic v
                                  | None => Undefined
                                  end;
                     got_name := opt_name o;
                     got_type := opt_type o;
                     got_option := Some o |},
             [])
  end.

(** The typed getters: [r?.type === kind ? r.value : null]. *)
Definition typed (kind : Z) (name : string) (this : CommandInteractionOptions)
    : OptionsError + (Value * list CacheEffect) :=
  match get name this with
  | inl e => inl e
  | inr (Some r, effects) =>
      inr (if (got_type r =? kind)%Z then got_value r else Null, effects)
  | inr (None, effects) => inr (Null, effects)
  end.

Definition string := typed ApplicationCommandOptionType.String.
Definition number := typed ApplicationCommandOptionType.Number.
Definition integer := typed ApplicationCommandOptionType.Integer.
Definition boolean := typed ApplicationCommandOptionType.Boolean.
Definition attachment := typed ApplicationCommandOptionType.Attachment.
Definition user := typed ApplicationCommandOptionType.User.
Definition role := typed ApplicationCommandOptionType.Role.
Definition mentionable := typed ApplicationCommandOptionType.Mentionable.

End WithEntities.
End CommandOptions.

(** ** src/packages/darkcord/src/resources/Message.ts: the other methods *)

Module DarkcordMessageMore.

(** The payload [_update] receives, key by key: a key can be absent
    ([None]); [position] and [edited_timestamp] can be there and [null]. *)
Record MessageUpdate : Type := mkMessageUpdate {
  u_content : option string;
  u_mention_everyone : option bool;
  u_embeds : option (list string);
  u_attachments : option (list string);
  u_position : option (option Z);
  u_flags : option Z;
  u_edited_timestamp : option (option string);
  u_sticker_items : option (list string)
}.

(** The fields of a message [_update] assigns; before the first
    assignment they are [undefined] ([None]), [editedTimestamp] is
    [null]. *)
Record Fields : Type := mkFields {
  f_content : option string;
  f_mentionEveryone : option bool;
  f_embeds : option (list string);
  f_attachments : option (list string);
  f_position : option Z;
  f_flags : option Z;
  f_editedTimestamp : option Z;
  f_stickerItems : option (list string);
  f_channel : option TextBasedChannel
}.

(** What the constructor leaves before it calls [_update]. *)
Definition initial_fields : Fields :=
  {| f_content := None; f_mentionEveryone := None; f_embeds := None;
     f_attachments := None; f_position := None; f_flags := None;
     f_editedTimestamp := None; f_stickerItems := None; f_channel := None |}.

(** [if ("key" in data) this.field = data.key]. *)
Definition assign {A : Type} (new : option A) (old : option A) : option A :=
  match new with Some v => Some v | None => old end.

(** A string is truthy unless it is empty. *)
Definition truthy_string (s : string) : bool := negb (String.eqb s "").

(** A payload with no key at all. *)
Definition empty_update : MessageUpdate :=
  {| u_content := None; u_mention_everyone := None; u_embeds := None;
     u_attachments := None; u_position := None; u_flags := None;
     u_edited_timestamp := None; u_sticker_items := None |}.

Section Update.

(** [Date.parse], which is not modelled. *)
Variable Date_parse : string -> Z.

(** [_update(data)] on these fields; [cached] is what
    [client.channels.cache.get(data.channel_id)] answers. *)
Definition update_fields (data : MessageUpdate) (cached : option TextBasedChannel)
    (this : Fields) : Fields :=
  {| f_content := assign (u_content data) (f_content this);
     f_mentionEveryone := assign (u_mention_everyone data) (f_mentionEveryone this);
     f_embeds := assign (u_embeds data) (f_embeds this);
     f_attachments := assign (u_attachments data) (f_attachments this);
     f_position :=
       match u_position data with
       | Some (Some p) => Some p
       | Some None => Some 0%Z
       | None => f_position this
       end;
     f_flags :=
       match u_flags data with
       | Some f => if (f =? 0)%Z then f_flags this else Some f
       | None => f_flags this
       end;
     f_editedTimestamp :=
       match u_edited_timestamp data with
       | Some (Some s) =>
           if truthy_string s then Some (Date_parse s) else f_editedTimestamp this
       | _ => f_editedTimestamp this
       end;
     f_stickerItems := assign (u_sticker_items data) (f_stickerItems this);
     f_channel :=
       match f_channel this with
       | Some ch => Some ch
       | None => cached
       end |}.

(** [async edit(content)]: the REST call, then [_update] with its
    answer. *)
Definition edit (answer : Settled MessageUpdate) (cached : option TextBasedChannel)
    (this : Fields) : Completion unit * Fields :=
  match answer with
  | Fulfilled data => (Return (), update_fields data cached this)
  | RejectedWith r => (Throw (Rejected r), this)
  end.

End Update.

(** [channel.deleteMessage(id, reason)]. *)
Inductive Deleted : Type :=
| DeleteMessage (ch : TextBasedChannel) (id : string) (reason : option string).

Section WithResources.
Context {R : Resources} {C : ReactionCacheOps}.

(** [delete(reason)]: an unresolved message throws;
    [this.channel?.deleteMessage] is skipped without a channel. *)
Definition delete (reason : option string) (this : DarkcordMessage.Message)
    : Completion unit * list Deleted :=
  if negb (DarkcordMessage.isResolved this) then (Throw MessageNotResolved, [])
  else
    match DarkcordMessage.channel this with
    | Some ch => (Return (), [DeleteMessage ch (DarkcordMessage.id this) reason])
    | None => (Return (), [])
    end.

End WithResources.
End DarkcordMessageMore.

(** ** src/src/resources/Message.ts: the other methods *)

Module MessageMore.
Section WithResources.
Context {R : Resources} {C : ReactionCacheOps}.

(** [async delete(reason)]: resolves the message first when needed,
    like [reply]. *)
Definition delete (reason : option string) (found : Settled TextBasedChannel)
    (this : Message.Message)
    : Completion unit * Message.Message * list DarkcordMessageMore.Deleted :=
  if Message.resolved this then
    match Message.channel this with
    | Some ch =>
        (Return (), this,
         [DarkcordMessageMore.DeleteMessage ch (Message.id this) reason])
    | None => (Throw (Rejected "TypeError"), this, [])
    end
  else
    match found with
    | Fulfilled ch =>
        (Return (), Message._resolve ch this,
         [DarkcordMessageMore.DeleteMessage ch (Message.id this) reason])
    | RejectedWith r => (Throw (Rejected r), this, [])
    end.

End WithResources.
End MessageMore.

(** ** Sample data for the further examples *)

(** Users, roles and channels are known by their ids; the client has
    cached user u1 and channel c1, the guild member u1 and role r1. *)
Definition sample_entities : Entities :=
  {| User := string; Member := string; Role := string; Channel := string;
     Guild := unit;
     users_get := fun id => if String.eqb id "u1" then Some "user u1" else None;
     users_add := fun u => "user " ++ user_id u;
     channels_cache_get :=
       fun id => if String.eqb id "c1" then Some "channel c1" else None;
     roles_cache_get := fun id => if String.eqb id "r1" then Some "role r1" else None;
     members_cache_get :=
       fun _ id => if String.eqb id "u1" then Some "member u1" else None;
     guild_roles_cache_get :=
       fun _ id => if String.eqb id "r1" then Some "role r1" else None;
     guild_roles_add := fun _ r => "role " ++ role_id r |}.

Definition sample_resolved : Resolved :=
  {| r_users := Some {[ "u1" := mkAPIUser "u1" "ann"; "u2" := mkAPIUser "u2" "bob" ]};
     r_members := Some {[ "u1" := mkAPIResolvedMember None ]};
     r_roles := Some {[ "r1" := mkAPIRole "r1" "admin" ]};
     r_channels := Some {[ "c1" := mkAPIResolvedChannel "c1" 0;
                           "c2" := mkAPIResolvedChannel "c2" 0 ]};
     r_attachments := None |}.

Definition sample_ping : APIInteraction :=
  {| i_id := "4004"; i_application_id := "app"; i_type := 1; i_token := "tok-p";
     i_version := 1; i_guild_id := None; i_channel_id := None;
     i_locale := "en-US"; i_custom_id := None; i_command_name := None |}.

Definition sample_modal : Responses.ModalData :=
  {| Responses.modal_custom_id := "feedback"; Responses.modal_title := "Feedback" |}.

(** An autocomplete interaction received over the gateway. *)
Definition sample_autocomplete : Interaction.Autocomplete :=
  Interaction.new_AutocompleteInteraction sample_command None.

(** A channel select in a guild: c1 is resolved and cached, c2 resolved
    only, zz not even resolved. *)
Definition sample_values : @SelectMenu.SelectMenuInteractionValues sample_entities :=
  @SelectMenu.mkValues sample_entities (Some sample_resolved) ["c1"; "c2"; "zz"]
    (Some tt).

(** The payload of a string select: no resolved data. *)
Definition sample_string_select : SelectMenu.ComponentData :=
  {| SelectMenu.component_type := 3; SelectMenu.custom_id := "colour";
     SelectMenu.values := ["red"; "blue"]; SelectMenu.data_resolved := None |}.

(** /moderation ban user:u2 reason:spam, as it comes over the wire: a
    group, in it a subcommand, in it the options. *)
Definition sample_ban_options : list CommandOptions.DataOption :=
  [CommandOptions.mkDataOption "user" 6 (Some (CommandOptions.VString "u2")) None;
   CommandOptions.mkDataOption "reason" 3 (Some (CommandOptions.VString "spam")) None].

Definition sample_ban : CommandOptions.DataOption :=
  CommandOptions.mkDataOption "ban" 1 None (Some sample_ban_options).

Definition sample_moderation : CommandOptions.DataOption :=
  CommandOptions.mkDataOption "moderation" 2 None (Some [sample_ban]).

(** A flat command with a string, a user, a channel, a role and a
    mentionable option, in a guild. *)
Definition sample_flat_options : list CommandOptions.DataOption :=
  [CommandOptions.mkDataOption "reason" 3 (Some (CommandOptions.VString "spam")) None;
   CommandOptions.mkDataOption "target" 6 (Some (CommandOptions.VString "u2")) None;
   CommandOptions.mkDataOption "where" 7 (Some (CommandOptions.VString "c2")) None;
   CommandOptions.mkDataOption "rank" 8 (Some (CommandOptions.VString "r1")) None;
   CommandOptions.mkDataOption "who" 9 (Some (CommandOptions.VString "u1")) None].

Definition sample_options : @CommandOptions.CommandInteractionOptions sample_entities :=
  @CommandOptions.new_CommandInteractionOptions sample_entities
    sample_flat_options (Some sample_resolved) (Some tt).

(** The same command from a payload without resolved data. *)
Definition sample_options_unresolved
    : @CommandOptions.CommandInteractionOptions sample_entities :=
  @CommandOptions.new_CommandInteractionOptions sample_entities
    sample_flat_options None (Some tt).

(** Messages that have not been resolved yet. *)
Definition sample_unresolved_message
    : @Message.Message sample_resources sample_cache :=
  @Message.mkMessage sample_resources sample_cache
    true "m1" "c1" MessageType.Default false None [].

Definition sample_unresolved_darkcord_message
    : @DarkcordMessage.Message sample_resources sample_cache :=
  @DarkcordMessage.mkMessage sample_resources sample_cache
    true "m1" "c1" MessageType.Default false None [].

(** A member-join message (type 7), resolved. *)
Definition sample_join_message
    : @DarkcordMessage.Message sample_resources sample_cache :=
  @DarkcordMessage.mkMessage sample_resources sample_cache
    true "m2" "c1" 7 true (Some sample_channel) [].

Definition sample_reaction : APIReaction :=
  {| count := 2; me := false;
     emoji := {| emoji_id := Some "e1"; emoji_name := Some "party" |} |}.

Definition sample_payload : APIMessage :=
  {| m_id := "m1"; m_channel_id := "c1"; m_type := 0; m_content := "hi";
     m_reactions := Some [sample_reaction] |}.

(** An edit that touches the content only, with flags 0 and a null edit
    time on the wire. *)
Definition sample_update : DarkcordMessageMore.MessageUpdate :=
  {| DarkcordMessageMore.u_content := Some "edited";
     DarkcordMessageMore.u_mention_everyone := None;
     DarkcordMessageMore.u_embeds := None;
     DarkcordMessageMore.u_attachments := None;
     DarkcordMessageMore.u_position := Some None;
     DarkcordMessageMore.u_flags := Some 0%Z;
     DarkcordMessageMore.u_edited_timestamp := Some None;
     DarkcordMessageMore.u_sticker_items := None |}.

Definition sample_fields : DarkcordMessageMore.Fields :=
  {| DarkcordMessageMore.f_content := Some "hi";
     DarkcordMessageMore.f_mentionEveryone := Some false;
     DarkcordMessageMore.f_embeds := Some [];
     DarkcordMessageMore.f_attachments := Some [];
     DarkcordMessageMore.f_position := None;
     DarkcordMessageMore.f_flags := Some 64%Z;
     DarkcordMessageMore.f_editedTimestamp := Some 1700000000000%Z;
     DarkcordMessageMore.f_stickerItems := None;
     DarkcordMessageMore.f_channel := Some sample_channel |}.

(** The caches the handler meets: channel c1 holds message m1, which
    has one reaction under emoji e1. *)
Definition sample_cached_message
    : @MessageReactionRemoveEmoji.CachedMessage sample_resources :=
  @MessageReactionRemoveEmoji.mkCachedMessage sample_resources "m1"
    (Cache.mkCollection None
       [Cache.mkEntry (Some "e1") (@Raw sample_resources sample_reaction) 5%N]).

Definition sample_messages
    : Cache.CacheCollection string
        (@MessageReactionRemoveEmoji.CachedMessage sample_resources) :=
  Cache.mkCollection None [Cache.mkEntry "m1" sample_cached_message 3%N].

Definition sample_channels
    : Cache.CacheCollection string
        (@MessageReactionRemoveEmoji.CachedChannel sample_resources) :=
  Cache.mkCollection None
    [Cache.mkEntry "c1" (@MessageReactionRemoveEmoji.TextBased sample_resources
                           sample_messages) 1%N].

Definition sample_dispatch : MessageReactionRemoveEmoji.DispatchData :=
  {| MessageReactionRemoveEmoji.d_channel_id := "c1";
     MessageReactionRemoveEmoji.d_guild_id := None;
     MessageReactionRemoveEmoji.d_message_id := "m1";
     MessageReactionRemoveEmoji.d_emoji :=
       {| emoji_id := Some "e1"; emoji_name := Some "party" |} |}.

(** The same caches with the reaction stored as a hydrated Reaction, and
    a stand-in for [structuredClone] that fails on such a value. *)
Definition sample_hydrated_message
    : @MessageReactionRemoveEmoji.CachedMessage sample_resources :=
  @MessageReactionRemoveEmoji.mkCachedMessage sample_resources "m1"
    (Cache.mkCollection None
       [Cache.mkEntry (Some "e1")
          (@Hydrated sample_resources (sample_reaction, false)) 5%N]).

Definition sample_hydrated_messages
    : Cache.CacheCollection string
        (@MessageReactionRemoveEmoji.CachedMessage sample_resources) :=
  Cache.mkCollection None [Cache.mkEntry "m1" sample_hydrated_message 3%N].

Definition sample_hydrated_channels
    : Cache.CacheCollection string
        (@MessageReactionRemoveEmoji.CachedChannel sample_resources) :=
  Cache.mkCollection None
    [Cache.mkEntry "c1" (@MessageReactionRemoveEmoji.TextBased sample_resources
                           sample_hydrated_messages) 1%N].

Definition sample_clone (value : option (@StoredReaction sample_resources))
    : Completion (option (@StoredReaction sample_resources)) :=
  match value with
  | Some (Hydrated _) => Throw (Rejected "DataCloneError")
  | _ => Return value
  end.

(* ===================================================================== *)
(** * Part II: statements and proofs                                       *)
(* ===================================================================== *)

(** ** Interactions (src/unnamed/part_001) *)

Module InteractionFacts.
Import Interaction.

Lemma class_for_other (t : Z) :
  t <> 2%Z -> t <> 3%Z -> t <> 4%Z -> t <> 5%Z -> class_for t = CBase.
Proof.
  intros H2 H3 H4 H5.
  destruct t as [|p|p]; try reflexivity.
  destruct p as [[[|q|]|[|q|]|]|[[|q|]|[|q|]|]|]; try reflexivity; congruence.
Qed.

Lemma from_class (data : APIInteraction) (res : option InteractionResponse) :
  class_of (from data res) = class_for (i_type data).
Proof.
  unfold from, InteractionType.ApplicationCommand,
    InteractionType.MessageComponent,
    InteractionType.ApplicationCommandAutocomplete, InteractionType.ModalSubmit.
  destruct (Z.eqb_spec (i_type data) 2) as [->|N2]; [reflexivity|].
  destruct (Z.eqb_spec (i_type data) 3) as [->|N3]; [reflexivity|].
  destruct (Z.eqb_spec (i_type data) 4) as [->|N4]; [reflexivity|].
  destruct (Z.eqb_spec (i_type data) 5) as [->|N5]; [reflexivity|].
  simpl. symmetry. now apply class_for_other.
Qed.

(** C7.  The class of the object built by [Interaction.from] is a
    function of [data.type] alone: type ApplicationCommand gives a
    CommandInteraction, MessageComponent a ComponentInteraction,
    ApplicationCommandAutocomplete an AutocompleteInteraction,
    ModalSubmit a ModalSubmitInteraction and every other number the base
    Interaction; two payloads with the same type give the same class
    whatever their other fields and whatever response handle comes with
    them. *)
Theorem from_keyed_on_type :
  (forall data res,
      i_type data = InteractionType.ApplicationCommand ->
      from data res = CommandInteraction (new_ReplyableInteraction data res))
  /\ (forall data res,
      i_type data = InteractionType.MessageComponent ->
      from data res = ComponentInteraction (new_ReplyableInteraction data res))
  /\ (forall data res,
      i_type data = InteractionType.ApplicationCommandAutocomplete ->
      from data res = AutocompleteInteraction (new_AutocompleteInteraction data res))
  /\ (forall data res,
      i_type data = InteractionType.ModalSubmit ->
      from data res = ModalSubmitInteraction (new_ReplyableInteraction data res))
  /\ (forall data res,
      i_type data <> InteractionType.ApplicationCommand ->
      i_type data <> InteractionType.MessageComponent ->
      i_type data <> InteractionType.ApplicationCommandAutocomplete ->
      i_type data <> InteractionType.ModalSubmit ->
      from data res = BaseInteraction (new_Interaction data))
  /\ (forall d1 d2 r1 r2,
      i_type d1 = i_type d2 ->
      class_of (from d1 r1) = class_of (from d2 r2)).
Proof.
  repeat split.
  - intros data res H. unfold from. now rewrite H.
  - intros data res H. unfold from. now rewrite H.
  - intros data res H. unfold from. now rewrite H.
  - intros data res H. unfold from. now rewrite H.
  - intros data res H2 H3 H4 H5. unfold from.
    repeat match goal with
           | |- context [Z.eqb ?a ?b] =>
               destruct (Z.eqb_spec a b); [congruence|]
           end.
    reflexivity.
  - intros d1 d2 r1 r2 H. rewrite !from_class. now rewrite H.
Qed.

(** Two payloads of type MessageComponent that differ in every other
    field, one of them with a webserver response: same class. *)
Lemma from_keyed_on_type_witness :
  class_of (from sample_component_a None)
  = class_of (from sample_component_b (Some (mkInteractionResponse 7)))
  /\ from sample_component_a None
     = ComponentInteraction (new_ReplyableInteraction sample_component_a None).
Proof.
  split.
  - apply (proj2 (proj2 (proj2 (proj2 (proj2 from_keyed_on_type))))).
    reflexivity.
  - apply (proj1 (proj2 from_keyed_on_type)). reflexivity.
Defined.

Section Acknowledgement.
Variable transform : MessagePostData + string -> MessagePostData.

Lemma respond_completion this b t net :
  (respond this b t net).1 = Return ()
  \/ exists r, (respond this b t net).1 = Throw (Rejected r).
Proof.
  unfold respond.
  destruct (isHTTP this), (_http this), net; simpl; eauto.
Qed.

Lemma ack_call_acknowledged c net this :
  acknowledged this = true ->
  ack_call transform c net this
  = (Throw InteractionAlreadyAcknowledged, this, []).
Proof.
  intros H. destruct c; simpl; unfold reply, defer; now rewrite H.
Qed.

Lemma ack_call_fresh c net this :
  acknowledged this = false ->
  (completion (ack_call transform c net this) = Return ()
   /\ acknowledged (after (ack_call transform c net this)) = true)
  \/ (exists r, completion (ack_call transform c net this) = Throw (Rejected r)
      /\ after (ack_call transform c net this) = this).
Proof.
  intros H. destruct c; simpl; unfold reply, defer; rewrite H.
  - destruct (respond_completion this (BMessage (transform content0))
                InteractionResponseType.ChannelMessageWithSource net) as [E|[r E]];
      destruct (respond _ _ _ _) as [c cs]; simpl in E; subst c;
      [left|right; exists r]; split; reflexivity.
  - destruct (respond_completion this (BFlags (flags_or_zero flags))
                InteractionResponseType.DeferredChannelMessageWithSource net)
      as [E|[r E]];
      destruct (respond _ _ _ _) as [c cs]; simpl in E; subst c;
      [left|right; exists r]; split; reflexivity.
Qed.

Lemma follow_call_guard c net this :
  (follow_call transform c net this).1 = Throw InteractionNoAcknowledged
  <-> acknowledged this = false.
Proof.
  destruct c; simpl;
    unfold deleteReply, createFollowUP, getOriginalReply, completion;
    destruct (acknowledged this), net; simpl; split; intros H;
    try reflexivity; try discriminate.
Qed.

(** A call that nothing interrupts is its first half followed by its
    second half on the same object. *)
Lemma ack_call_in_two_halves c net this :
  ack_call transform c net this
  = ((resume (start transform c this) net this).1,
     (resume (start transform c this) net this).2,
     handed_over (start transform c this)).
Proof.
  destruct c; simpl; unfold reply, defer, start, respond, request;
    destruct (acknowledged this); simpl; try reflexivity;
    destruct (isHTTP this), (_http this), net; reflexivity.
Qed.

(** A call started on an unacknowledged object is not refused, however
    the object has changed by the time it resumes. *)
Lemma started_fresh c this :
  acknowledged this = false ->
  exists cs, start transform c this = Awaiting cs.
Proof. intros H. unfold start. rewrite H. destruct c; eauto. Qed.

Lemma resume_awaiting cs net that :
  (resume (Awaiting cs) net that).1 = Return ()
  \/ exists r, net = RejectedWith r
               /\ (resume (Awaiting cs) net that).1 = Throw (Rejected r).
Proof. destruct cs, net; simpl; eauto. Qed.

(** C9, as amended.  On a ReplyableInteraction, [reply] and [defer]
    throw InteractionAlreadyAcknowledged exactly when [acknowledged]
    is true at the call, and then leave the object as it was; a call
    that returns has set [acknowledged]; a call whose transport
    rejects leaves [acknowledged] false.  So a call made after an
    earlier one has run to its end throws
    InteractionAlreadyAcknowledged whenever the earlier one did not
    fail in the transport.  The flag is written after the [await]: a
    call is its first half, which tests the guard and hands the response
    over, and its second half, which sets the flag; a call that starts
    on an unacknowledged object before an earlier one has resumed passes
    the guard and hands its response over too, and both return when the
    transport fulfils them.  [deleteReply], [createFollowUP] and
    [getOriginalReply] throw InteractionNoAcknowledged exactly when
    [acknowledged] is false. *)
Theorem acknowledged_guards (this : ReplyableInteraction) :
  (forall c net,
      completion (ack_call transform c net this)
      = Throw InteractionAlreadyAcknowledged
      <-> acknowledged this = true)
  /\ (forall c net,
      completion (ack_call transform c net this)
      = Throw InteractionAlreadyAcknowledged ->
      after (ack_call transform c net this) = this)
  /\ (forall c net,
      completion (ack_call transform c net this) = Return () ->
      acknowledged (after (ack_call transform c net this)) = true)
  /\ (forall c net r,
      completion (ack_call transform c net this) = Throw (Rejected r) ->
      after (ack_call transform c net this) = this
      /\ acknowledged this = false)
  /\ (forall c1 net1 c2 net2,
      (forall r, completion (ack_call transform c1 net1 this)
                 <> Throw (Rejected r)) ->
      completion (ack_call transform c2 net2
                    (after (ack_call transform c1 net1 this)))
      = Throw InteractionAlreadyAcknowledged)
  /\ (forall c net,
      (follow_call transform c net this).1 = Throw InteractionNoAcknowledged
      <-> acknowledged this = false)
  /\ (forall c net,
      ack_call transform c net this
      = ((resume (start transform c this) net this).1,
         (resume (start transform c this) net this).2,
         handed_over (start transform c this)))
  /\ (forall c1 c2,
      acknowledged this = false ->
      start transform c1 this
      = Awaiting (calls (ack_call transform c1 (Fulfilled ()) this))
      /\ start transform c2 this
         = Awaiting (calls (ack_call transform c2 (Fulfilled ()) this))
      /\ forall net1 net2,
           let first := resume (start transform c1 this) net1 this in
           let second := resume (start transform c2 this) net2 first.2 in
           second.1 <> Throw InteractionAlreadyAcknowledged
           /\ (net2 = Fulfilled () ->
               second.1 = Return () /\ acknowledged second.2 = true)).
Proof.
  split; [|split; [|split; [|split; [|split; [|split; [|split]]]]]].
  - intros c net. split.
    + intros H. destruct (acknowledged this) eqn:A; [reflexivity|].
      destruct (ack_call_fresh c net this A) as [[E1 _]|[r [E1 _]]];
        congruence.
    + intros A. now rewrite ack_call_acknowledged.
  - intros c net H. destruct (acknowledged this) eqn:A.
    + now rewrite ack_call_acknowledged.
    + destruct (ack_call_fresh c net this A) as [[E1 _]|[r [E1 _]]];
        congruence.
  - intros c net H. destruct (acknowledged this) eqn:A.
    + rewrite ack_call_acknowledged in H by assumption. discriminate.
    + destruct (ack_call_fresh c net this A) as [[_ E2]|[r [E1 _]]];
        [exact E2 | congruence].
  - intros c net r H. destruct (acknowledged this) eqn:A.
    + rewrite ack_call_acknowledged in H by assumption. discriminate.
    + destruct (ack_call_fresh c net this A) as [[E1 _]|[r' [_ E2]]];
        [congruence | split; [exact E2 | reflexivity]].
  - intros c1 net1 c2 net2 H. destruct (acknowledged this) eqn:A.
    + rewrite (ack_call_acknowledged c1 net1 this A). unfold after. simpl.
      now rewrite ack_call_acknowledged.
    + destruct (ack_call_fresh c1 net1 this A) as [[E1 E2]|[r [E1 E2]]].
      * now rewrite ack_call_acknowledged.
      * exfalso. eapply H. exact E1.
  - intros c net. exact (follow_call_guard c net this).
  - intros c net. apply ack_call_in_two_halves.
  - intros c1 c2 A.
    assert (forall c, start transform c this
                      = Awaiting (calls (ack_call transform c (Fulfilled ()) this)))
      as Hstart.
    { intros c. rewrite ack_call_in_two_halves. unfold calls. simpl.
      destruct (started_fresh c this A) as [cs ->]. reflexivity. }
    split; [apply Hstart|]. split; [apply Hstart|].
    intros net1 net2 first second. subst second.
    rewrite (Hstart c2). split.
    + destruct (resume_awaiting
                  (calls (ack_call transform c2 (Fulfilled ()) this)) net2 first.2)
        as [E|(r & _ & E)]; rewrite E; discriminate.
    + intros ->.
      now destruct (calls (ack_call transform c2 (Fulfilled ()) this)).
Qed.

End Acknowledgement.

(** A reply that went through, then a defer: the defer throws. *)
Lemma acknowledged_guards_witness :
  completion
    (ack_call sample_transform (CallDefer None) (Fulfilled ())
       (after (ack_call sample_transform (CallReply (inr "pong"))
                 (Fulfilled ()) sample_replyable)))
  = Throw InteractionAlreadyAcknowledged.
Proof.
  apply (proj1 (proj2 (proj2 (proj2 (proj2
           (acknowledged_guards sample_transform sample_replyable)))))).
  intros r. vm_compute. discriminate.
Defined.

(** C9 as first stated fails: when the first reply is rejected by the
    transport the interaction stays unacknowledged, and a second reply
    returns instead of throwing. *)
Lemma second_call_after_rejection_returns :
  let first := ack_call sample_transform (CallReply (inr "pong"))
                 (RejectedWith "ECONNRESET") sample_replyable in
  let second := ack_call sample_transform (CallReply (inr "pong"))
                  (Fulfilled ()) (after first) in
  completion first = Throw (Rejected "ECONNRESET")
  /\ acknowledged (after first) = false
  /\ completion second = Return ()
  /\ threw (completion second) = false.
Proof. vm_compute. repeat split. Qed.

(** Two replies started one after the other on the same interaction
    before either has resumed: both pass the guard, both responses go
    to the REST client, and both return. *)
Lemma replies_started_together_both_return :
  let first := start sample_transform (CallReply (inr "pong")) sample_replyable in
  let second := start sample_transform (CallReply (inr "again")) sample_replyable in
  let after_first := (resume first (Fulfilled ()) sample_replyable).2 in
  handed_over first
  = [RespondInteraction "3003" "tok-c"
       (BMessage (sample_transform (inr "pong")))
       InteractionResponseType.ChannelMessageWithSource]
  /\ handed_over second
     = [RespondInteraction "3003" "tok-c"
          (BMessage (sample_transform (inr "again")))
          InteractionResponseType.ChannelMessageWithSource]
  /\ (resume first (Fulfilled ()) sample_replyable).1 = Return ()
  /\ (resume second (Fulfilled ()) after_first).1 = Return ().
Proof. vm_compute. repeat split. Qed.

End InteractionFacts.

(** ** Messages (src/src/resources/Message.ts and
    src/packages/darkcord/src/resources/Message.ts) *)

Module MessageFacts.
Section WithResources.
Context {R : Resources} {C : ReactionCacheOps}.



(** The caller's other fields go out untouched. *)
Lemma with_reference_keeps (this : Message.Message) c :
  content (Message.with_reference this c) = content c
  /\ tts (Message.with_reference this c) = tts c
  /\ forall r, message_reference c = Some r ->
       exists r', message_reference (Message.with_reference this c) = Some r'
                  /\ guild_id r' = guild_id r
                  /\ fail_if_not_exists r' = fail_if_not_exists r.
Proof.
  unfold Message.with_reference. simpl. repeat split.
  intros r ->. eexists. repeat split.
Qed.







Lemma resolve_reaction_form client reaction :
  is_raw (resolve_reaction client reaction) = partial_Reaction client.
Proof.
  unfold resolve_reaction. now destruct (partial_Reaction client).
Qed.

Lemma constructor_adds_form client data :
  Forall (configured_form client) (Message.constructor_adds client data).
Proof.
  unfold Message.constructor_adds.
  destruct (m_reactions data) as [rs|]; [|constructor].
  induction rs as [|reaction rs IH]; simpl; constructor; [|exact IH].
  apply resolve_reaction_form.
Qed.

Lemma update_adds_form client data :
  Forall (configured_form client) (DarkcordMessage.update_adds client data).
Proof.
  unfold DarkcordMessage.update_adds.
  destruct (m_reactions data) as [rs|]; [|constructor].
  induction rs as [|reaction rs IH]; simpl; constructor; [|exact IH].
  apply resolve_reaction_form.
Qed.

Lemma same_form client (l : list AddCall) :
  Forall (configured_form client) l ->
  Forall (fun a => Forall (fun b => is_raw (add_item a) = is_raw (add_item b)) l) l.
Proof.
  intros H. rewrite Forall_forall in H.
  apply Forall_forall. intros a Ha. apply Forall_forall. intros b Hb.
  unfold configured_form in H. now rewrite (H a Ha), (H b Hb).
Qed.

(** The items the loops hand to [_add] are the reactions of the
    payload, one for one and in order, each in the configured form. *)
Lemma constructor_adds_items client data rs :
  m_reactions data = Some rs ->
  map add_item (Message.constructor_adds client data)
  = if partial_Reaction client then map Raw rs
    else map (fun r => Hydrated (new_Reaction r client)) rs.
Proof.
  intros H. unfold Message.constructor_adds, resolve_reaction. rewrite H.
  rewrite map_map. simpl. now destruct (partial_Reaction client).
Qed.

Lemma update_adds_items client data rs :
  m_reactions data = Some rs ->
  map add_item (DarkcordMessage.update_adds client data)
  = if partial_Reaction client then map Raw rs
    else map (fun r => Hydrated (new_Reaction r client)) rs.
Proof.
  intros H. unfold DarkcordMessage.update_adds, resolve_reaction. rewrite H.
  rewrite map_map. simpl. now destruct (partial_Reaction client).
Qed.

(** C8.  The form in which a reaction enters a message's reaction
    cache is decided by the client's partial flag for the Reaction
    type and by nothing else.  The constructor (src/src) and the
    [_update] loop (packages/darkcord) hand to [_add] the reactions of
    the payload, one for one and in order: each as the raw wire record
    it came as when the flag is set, each as the Reaction hydrated from
    it otherwise, and none when the payload has no reactions;
    [createReaction] does the same with the reaction the REST call
    answered.  The reaction cache of a new message is exactly the result
    of these additions, and so all reactions of one payload are added in
    the same form. *)
Theorem reactions_stored_per_type (client : Client) (data : APIMessage) :
  Forall (configured_form client) (Message.constructor_adds client data)
  /\ Message.reactions (Message.new_Message client data)
     = fold_left _add (Message.constructor_adds client data) new_Cache
  /\ Forall (configured_form client) (DarkcordMessage.update_adds client data)
  /\ (forall cached,
        DarkcordMessage.reactions (DarkcordMessage.new_Message client data cached)
        = fold_left _add (DarkcordMessage.update_adds client data) new_Cache)
  /\ (forall (this : DarkcordMessage.Message) cached,
        DarkcordMessage.reactions (DarkcordMessage._update data cached this)
        = fold_left _add
            (DarkcordMessage.update_adds (DarkcordMessage.client this) data)
            (DarkcordMessage.reactions this))
  /\ (forall (this : Message.Message) reaction,
        configured_form (Message.client this)
          (Message.createReaction_add this reaction))
  /\ (forall (this : DarkcordMessage.Message) reaction,
        configured_form (DarkcordMessage.client this)
          (DarkcordMessage.createReaction_add this reaction))
  /\ Forall (fun a =>
               Forall (fun b => is_raw (add_item a) = is_raw (add_item b))
                 (Message.constructor_adds client data))
       (Message.constructor_adds client data)
  /\ Forall (fun a =>
               Forall (fun b => is_raw (add_item a) = is_raw (add_item b))
                 (DarkcordMessage.update_adds client data))
       (DarkcordMessage.update_adds client data)
  /\ (forall rs,
        m_reactions data = Some rs ->
        map add_item (Message.constructor_adds client data)
        = (if partial_Reaction client then map Raw rs
           else map (fun r => Hydrated (new_Reaction r client)) rs)
        /\ map add_item (DarkcordMessage.update_adds client data)
           = (if partial_Reaction client then map Raw rs
              else map (fun r => Hydrated (new_Reaction r client)) rs)
        /\ length (Message.constructor_adds client data) = length rs
        /\ length (DarkcordMessage.update_adds client data) = length rs)
  /\ (m_reactions data = None ->
      Message.constructor_adds client data = []
      /\ DarkcordMessage.update_adds client data = [])
  /\ (forall (this : Message.Message) reaction,
        add_item (Message.createReaction_add this reaction)
        = if partial_Reaction (Message.client this) then Raw reaction
          else Hydrated (new_Reaction reaction (Message.client this)))
  /\ (forall (this : DarkcordMessage.Message) reaction,
        add_item (DarkcordMessage.createReaction_add this reaction)
        = if partial_Reaction (DarkcordMessage.client this) then Raw reaction
          else Hydrated (new_Reaction reaction (DarkcordMessage.client this))).
Proof.
  split; [apply constructor_adds_form|].
  split; [reflexivity|].
  split; [apply update_adds_form|].
  split; [reflexivity|].
  split; [reflexivity|].
  split.
  { intros this reaction.
    unfold configured_form, Message.createReaction_add. simpl.
    now destruct (partial_Reaction (Message.client this)). }
  split.
  { intros this reaction.
    unfold configured_form, DarkcordMessage.createReaction_add. simpl.
    now destruct (partial_Reaction (DarkcordMessage.client this)). }
  split; [eapply same_form, constructor_adds_form|].
  split; [eapply same_form, update_adds_form|].
  split.
  { intros rs H.
    split; [now apply constructor_adds_items|].
    split; [now apply update_adds_items|].
    unfold Message.constructor_adds, DarkcordMessage.update_adds.
    rewrite H, !length_map. auto. }
  split.
  { intros H. unfold Message.constructor_adds, DarkcordMessage.update_adds.
    now rewrite H. }
  split.
  - intros this reaction. unfold Message.createReaction_add. simpl.
    now destruct (partial_Reaction (Message.client this)).
  - intros this reaction. unfold DarkcordMessage.createReaction_add. simpl.
    now destruct (partial_Reaction (DarkcordMessage.client this)).
Qed.

End WithResources.

(** One payload with one reaction, built by a client with the partial
    flag set and by one without it: the raw record, the hydrated
    Reaction. *)
Lemma reactions_stored_per_type_witness :
  map add_item (Message.constructor_adds (R:=sample_resources) true sample_payload)
  = [Raw sample_reaction]
  /\ map add_item
       (DarkcordMessage.update_adds (R:=sample_resources) false sample_payload)
     = [Hydrated (R:=sample_resources) (sample_reaction, false)].
Proof.
  split.
  - apply (proj1 (proj1 (proj2 (proj2 (proj2 (proj2 (proj2 (proj2 (proj2
             (proj2 (proj2 (@reactions_stored_per_type sample_resources
                              sample_cache true sample_payload))))))))))
                    [sample_reaction] eq_refl)).
  - apply (proj1 (proj2 (proj1 (proj2 (proj2 (proj2 (proj2 (proj2 (proj2
             (proj2 (proj2 (proj2 (@reactions_stored_per_type sample_resources
                                     sample_cache false sample_payload))))))))))
                           [sample_reaction] eq_refl))).
Defined.


End MessageFacts.

(** ** The cache (design document, sections 3 and 4.4) *)

Module CacheFacts.
Import Cache.
Section Collection.
Context {K T : Type} `{EqDecision K}.
Implicit Types (c : CacheCollection K T) (e : CacheEntry K T) (k : K).

Lemma is_key_true k e : is_key k e = true <-> key e = k.
Proof. unfold is_key. apply bool_decide_eq_true. Qed.

Lemma is_key_false k e : is_key k e = false <-> key e <> k.
Proof. unfold is_key. apply bool_decide_eq_false. Qed.

Lemma has_true k c : has k c = true <-> In k (keys c).
Proof.
  unfold has, keys. rewrite existsb_exists, in_map_iff.
  split; intros [e [H1 H2]]; exists e.
  - split; [now apply is_key_true | exact H1].
  - split; [exact H2 | now apply is_key_true].
Qed.

Lemma has_false k c : has k c = false <-> ~ In k (keys c).
Proof.
  rewrite <- has_true. destruct (has k c); split; intros; congruence.
Qed.

Lemma find_absent k (l : list (CacheEntry K T)) :
  ~ In k (map key l) -> find (is_key k) l = None.
Proof.
  induction l as [|e l IH]; simpl; [reflexivity|].
  intros N. destruct (is_key k e) eqn:E.
  - apply is_key_true in E. tauto.
  - apply IH. tauto.
Qed.


Lemma length_overwrite k (v : T) (l : list (CacheEntry K T)) :
  length (overwrite k v l) = length l.
Proof. unfold overwrite. apply length_map. Qed.

Lemma keys_overwrite k (v : T) (l : list (CacheEntry K T)) :
  map key (overwrite k v l) = map key l.
Proof.
  unfold overwrite. rewrite map_map. apply map_ext.
  intros e. now destruct (is_key k e).
Qed.

Lemma maxSize_set k (v : T) now c : maxSize (set k v now c) = maxSize c.
Proof.
  unfold set. destruct (has k c); [reflexivity|].
  now destruct (has_room _).
Qed.

Lemma maxSize_call (op : CacheOp K T) c : maxSize (call op c).2 = maxSize c.
Proof. destruct op; simpl; try reflexivity. apply maxSize_set. Qed.

(** An update in place leaves the size alone. *)
Lemma size_set_known k (v : T) now c :
  has k c = true -> size (set k v now c) = size c.
Proof.
  intros H1. unfold set. rewrite H1. unfold size. simpl.
  apply length_overwrite.
Qed.

(** What a true insert keeps of the old entries: all of them, or all
    but the oldest when the collection is at maxSize. *)
Lemma length_evict_oldest (l : list (CacheEntry K T)) :
  length (evict_oldest l) = Nat.pred (length l).
Proof. now destruct l. Qed.


Lemma set_size_bounded c m k (v : T) now :
  maxSize c = Some m -> size c <= m -> size (set k v now c) <= m.
Proof.
  intros Hm Hs. destruct (has k c) eqn:Hk.
  - now rewrite size_set_known.
  - unfold set. rewrite Hk. unfold has_room, size in *. simpl. rewrite Hm.
    assert (length (if at_maxSize c then evict_oldest (storage c)
                    else storage c) <= length (storage c)) as Hle.
    { destruct (at_maxSize c); [rewrite length_evict_oldest|]; lia. }
    destruct (Nat.ltb_spec
                (length (if at_maxSize c then evict_oldest (storage c)
                         else storage c)) m); simpl.
    + rewrite length_app. simpl. lia.
    + lia.
Qed.

Lemma length_filter_le (f : CacheEntry K T -> bool) l :
  length (List.filter f l) <= length l.
Proof.
  induction l as [|e l IH]; simpl; [lia|]. destruct (f e); simpl; lia.
Qed.

Lemma call_size_bounded (op : CacheOp K T) c m :
  maxSize c = Some m -> size c <= m -> size (call op c).2 <= m.
Proof.
  intros Hm Hs. destruct op; simpl; try assumption.
  - now apply set_size_bounded.
  - unfold size. simpl.
    etransitivity; [apply length_filter_le | exact Hs].
  - unfold size. simpl. lia.
  - unfold size. simpl.
    etransitivity; [apply length_filter_le | exact Hs].
Qed.

Lemma history_bounded (ops : list (CacheOp K T)) c m :
  maxSize c = Some m -> size c <= m ->
  Forall (fun c' => size c' <= m) (history ops c).
Proof.
  revert c. induction ops as [|op ops IH]; intros c Hm Hs; simpl.
  - constructor.
  - constructor.
    + now apply call_size_bounded.
    + apply IH; [now rewrite maxSize_call |].
      now apply call_size_bounded.
Qed.


(** The keys of a collection stay distinct. *)
Lemma NoDup_keys_set k (v : T) now c :
  List.NoDup (keys c) -> List.NoDup (keys (set k v now c)).
Proof.
  intros ND. unfold set. destruct (has k c) eqn:Hk; unfold keys; simpl.
  - now rewrite keys_overwrite.
  - apply has_false in Hk. unfold keys in *.
    assert (List.NoDup (map key (storage c) ++ [k])) as ND'.
    { apply List.NoDup_app;
        [exact ND | constructor; [simpl; tauto | constructor] |].
      intros x Hx [<-|[]]. tauto. }
    assert (List.NoDup
              (map key (if at_maxSize c then evict_oldest (storage c)
                        else storage c) ++ [k])) as ND''.
    { destruct (at_maxSize c); [|exact ND'].
      unfold evict_oldest. destruct (storage c) as [|e l]; simpl in *;
        [exact ND'|].
      now apply NoDup_cons_iff in ND'. }
    destruct (has_room _); simpl.
    + now rewrite map_app.
    + now apply List.NoDup_app_remove_r in ND''.
Qed.


Lemma filter_keeps_all (f : CacheEntry K T -> bool) l :
  (forall e, In e l -> f e = true) -> List.filter f l = l.
Proof.
  induction l as [|e l IH]; simpl; [reflexivity|]. intros Hf.
  rewrite (Hf e) by now left. f_equal. apply IH. intros x Hx. apply Hf.
  now right.
Qed.



Lemma with_storage_same c : with_storage c (storage c) = c.
Proof. now destruct c. Qed.

Lemma delete_unknown k c : has k c = false -> delete k c = (false, c).
Proof.
  intros Hk. unfold delete. rewrite Hk. f_equal.
  rewrite filter_keeps_all; [apply with_storage_same|].
  intros e He. apply negb_true_iff, is_key_false. intros E.
  apply has_false in Hk. apply Hk. unfold keys. rewrite <- E.
  now apply in_map.
Qed.

Lemma get_unknown k c : has k c = false -> get k c = None.
Proof.
  intros Hk. unfold get. rewrite find_absent; [reflexivity|].
  now apply has_false.
Qed.










End Collection.




End CacheFacts.

(** ** The reaction-removal handler
    (src/src/gateway/events/messageReactionRemoveEmoji.ts) *)

Module HandlerFacts.
Import MessageReactionRemoveEmoji.
Section Handler.
Context {R : Resources}.

(** For an emoji that has no entry, the event carries undefined and the
    message keeps the reactions it had. *)
Lemma run_unknown_emoji data channels messages message :
  Cache.get (d_channel_id data) channels = Some (TextBased messages) ->
  Cache.get (d_message_id data) messages = Some message ->
  Cache.has (emoji_id (d_emoji data)) (cm_reactions message) = false ->
  (run data channels).2 = [EmitMessageReactionRemoveEmoji message None].
Proof.
  intros Hc Hm He. unfold run, handle. rewrite Hc, Hm.
  rewrite (CacheFacts.get_unknown _ _ He), (CacheFacts.delete_unknown _ _ He).
  simpl. now destruct message.
Qed.

(** Nothing is emitted for a channel that is not cached. *)
Lemma run_unknown_channel data channels :
  Cache.has (d_channel_id data) channels = false ->
  run data channels = (Return (), channels, []).
Proof.
  intros Hc. unfold run, handle. now rewrite (CacheFacts.get_unknown _ _ Hc).
Qed.

End Handler.
End HandlerFacts.

(** ** The request dispatcher (design document, sections 3 and 4.3) *)

Module RestFacts.
Import Rest.

Lemma retry_or_fail_cases d k b p rest nb :
  (retry_or_fail d k b p rest nb
   = (finish b rest, [Completed k (p_id p) RetryExhausted])
   /\ maxRetry d < S (p_retries p))
  \/ (exists p',
        retry_or_fail d k b p rest nb
        = ({| b_limit := b_limit b; b_remaining := b_remaining b;
              b_resetAt := b_resetAt b; queue := p' :: rest; inflight := false |},
           [])
        /\ p_id p' = p_id p /\ p_retries p' = S (p_retries p)
        /\ p_notBefore p' = nb
        /\ S (p_retries p) <= maxRetry d).
Proof.
  unfold retry_or_fail.
  destruct (Nat.ltb_spec (maxRetry d) (S (p_retries p))).
  - left. split; [reflexivity | assumption].
  - right. eexists. repeat split. simpl. lia.
Qed.


Ltac retry_cases :=
  let E := fresh "E" in
  let p' := fresh "p'" in
  let Hp := fresh "Hp" in
  match goal with
  | |- context [retry_or_fail ?d ?k ?b ?p ?rest ?nb] =>
      destruct (retry_or_fail_cases d k b p rest nb) as [[E Hp]|[p' [E Hp]]];
      rewrite E in *
  | H : context [retry_or_fail ?d ?k ?b ?p ?rest ?nb] |- _ =>
      destruct (retry_or_fail_cases d k b p rest nb) as [[E Hp]|[p' [E Hp]]];
      rewrite E in *
  end.



(** A request is sent only by a worker that found the gate open, and
    the time observed is the time of the sending. *)
Lemma dispatched_step d ev k id t :
  In (Dispatched k id t) (step d ev).2 ->
  ev = Wake k /\ t = now d
  /\ gate_open (now d) (limiter d) = true
  /\ (step d ev).2 = [Dispatched k id t]
  /\ exists b p rest,
       buckets d !! k = Some b /\ queue b = p :: rest /\ p_id p = id
       /\ inflight b = false /\ bucket_ready (now d) b = true.
Proof.
  destruct ev as [r|dt|k'|k' resp]; simpl.
  - intros [E|[]]. discriminate.
  - tauto.
  - unfold wake. destruct (buckets d !! k') as [b|] eqn:Eb; simpl; [|tauto].
    destruct (queue b) as [|p rest] eqn:Eq; simpl; [tauto|].
    destruct (can_send d b p) eqn:E; simpl; [|tauto].
    intros [E'|[]]. inversion E'; subst.
    unfold can_send in E. rewrite !andb_true_iff, negb_true_iff in E.
    destruct E as [[[E1 E2] E3] E4].
    repeat split; auto. exists b, p, rest. auto.
  - unfold answer. destruct (buckets d !! k') as [b|]; simpl; [|tauto].
    destruct (queue b) as [|p rest]; simpl; [tauto|].
    destruct (inflight b); simpl; [|tauto].
    destruct resp as [lim rem ra payload|ra g| |st payload]; simpl.
    + intros [E|[]]. discriminate.
    + retry_cases; simpl in *.
      * intros [X|[X|[]]]; discriminate.
      * intros [X|[]]; discriminate.
    + retry_cases; simpl in *.
      * intros [X|[]]; discriminate.
      * tauto.
    + intros [E|[]]. discriminate.
Qed.







(** *** Order within a bucket *)

Lemma queue_of_with_bucket d k0 b k :
  queue_of (with_bucket d k0 b) k
  = if decide (k0 = k) then queue b else queue_of d k.
Proof.
  unfold queue_of, with_bucket. simpl. destruct (decide (k0 = k)) as [->|N].
  - now rewrite lookup_insert_eq.
  - now rewrite lookup_insert_ne.
Qed.

Lemma queue_of_with_limiter d g k : queue_of (with_limiter d g) k = queue_of d k.
Proof. reflexivity. Qed.

Lemma queue_of_lookup d k b : buckets d !! k = Some b -> queue_of d k = queue b.
Proof. intros H. unfold queue_of. now rewrite H. Qed.

(** What one step does to a bucket: what is submitted joins the queue at
    its end, what completes leaves it at its head. *)
Lemma step_fifo d ev k :
  (map p_id (queue_of d k) ++ submitted k (step d ev).2)%list
  = (completed k (step d ev).2 ++ map p_id (queue_of (step d ev).1 k))%list.
Proof.
  destruct ev as [r|dt|k0|k0 resp]; simpl.
  - unfold submitted, completed, queue_of. simpl.
    destruct (decide (bucket_key r = k)) as [<-|N].
    + rewrite lookup_insert_eq. simpl. unfold bucket_of.
      destruct (buckets d !! bucket_key r); simpl; [|reflexivity].
      now rewrite map_app.
    + rewrite lookup_insert_ne by assumption. simpl. now rewrite app_nil_r.
  - now rewrite app_nil_r.
  - unfold wake. destruct (buckets d !! k0) as [b|] eqn:Eb; simpl;
      [|now rewrite app_nil_r].
    destruct (queue b) as [|p rest] eqn:Eq; simpl; [now rewrite app_nil_r|].
    destruct (can_send d b p); simpl; [|now rewrite app_nil_r].
    rewrite app_nil_r, queue_of_with_bucket, queue_of_with_limiter.
    destruct (decide (k0 = k)) as [<-|N]; [|reflexivity].
    simpl. now rewrite (queue_of_lookup d k0 b Eb).
  - unfold answer. destruct (buckets d !! k0) as [b|] eqn:Eb; simpl;
      [|now rewrite app_nil_r].
    destruct (queue b) as [|p rest] eqn:Eq; simpl; [now rewrite app_nil_r|].
    destruct (inflight b); simpl; [|now rewrite app_nil_r].
    pose proof (queue_of_lookup d k0 b Eb) as Hq. rewrite Eq in Hq.
    destruct resp as [lim rem ra payload|ra g| |st payload]; simpl.
    + unfold submitted, completed. simpl. rewrite queue_of_with_bucket.
      destruct (decide (k0 = k)) as [<-|N]; simpl.
      * now rewrite Hq, app_nil_r.
      * now rewrite app_nil_r.
    + retry_cases; simpl; unfold submitted, completed; simpl;
        rewrite queue_of_with_bucket, ?queue_of_with_limiter;
        destruct (decide (k0 = k)) as [<-|N]; simpl;
        rewrite ?Hq, ?app_nil_r; simpl; try reflexivity.
      destruct Hp as (-> & _). reflexivity.
    + retry_cases; simpl; unfold submitted, completed; simpl;
        rewrite queue_of_with_bucket;
        destruct (decide (k0 = k)) as [<-|N]; simpl;
        rewrite ?Hq, ?app_nil_r; simpl; try reflexivity.
      destruct Hp as (-> & _). reflexivity.
    + unfold submitted, completed. simpl. rewrite queue_of_with_bucket.
      destruct (decide (k0 = k)) as [<-|N]; simpl.
      * now rewrite Hq, app_nil_r.
      * now rewrite app_nil_r.
Qed.

Lemma fifo_exec st ev : fifo st -> fifo (exec st ev).
Proof.
  destruct st as [d obs]. unfold fifo, exec. simpl. intros IH k.
  unfold submitted, completed in *. rewrite !omap_app, IH.
  rewrite <- !app_assoc. f_equal. apply step_fifo.
Qed.

Lemma ordered_exec st ev :
  fifo st /\ sent_oldest_first st.2 ->
  fifo (exec st ev) /\ sent_oldest_first (exec st ev).2.
Proof.
  intros [Hf Hs]. split; [now apply fifo_exec|].
  destruct st as [d obs]. unfold exec. simpl in *.
  intros j k id t Hj.
  apply lookup_app_Some in Hj as [Hj | [Hlen Hj]].
  - destruct (Hs j k id t Hj) as [later Hl]. exists later.
    apply lookup_lt_Some in Hj.
    now rewrite take_app_le by lia.
  - assert (In (Dispatched k id t) (step d ev).2) as Hin.
    { apply list_elem_of_In. eapply list_elem_of_lookup_2. exact Hj. }
    apply dispatched_step in Hin
      as (_ & _ & _ & E & b & p & rest & Hb & Hq & Hid & _).
    rewrite E in Hj.
    assert (j = length obs) as ->.
    { destruct (j - length obs) eqn:Ej; simpl in Hj; [lia | discriminate]. }
    rewrite take_app_length. exists (map p_id rest).
    pose proof (Hf k) as Hk. simpl in Hk. rewrite Hk.
    rewrite (queue_of_lookup d k b Hb), Hq. simpl.
    now rewrite Hid.
Qed.

Lemma ordered_run evs st :
  fifo st /\ sent_oldest_first st.2 ->
  fifo (run evs st) /\ sent_oldest_first (run evs st).2.
Proof.
  revert st. induction evs as [|ev evs IH]; intros st H; simpl; [exact H|].
  apply IH. now apply ordered_exec.
Qed.

Lemma ordered_init retries base :
  fifo (init retries base, []) /\ sent_oldest_first (init retries base, []).2.
Proof.
  split.
  - intros k. reflexivity.
  - intros j k id t Hj. destruct j; discriminate.
Qed.

(** C2.  In every run of the dispatcher from its initial state, whatever
    the time each request takes: the requests of one bucket complete in
    the order in which they were submitted (what has completed is a
    prefix of what was submitted, and the queue holds the rest in
    order), and every request sent is the oldest request of its bucket
    not yet completed.  Between buckets there is no such order: two
    requests of different buckets complete in either order. *)
Theorem bucket_fifo :
  (forall retries base evs k,
      completed k (run evs (init retries base, [])).2
      `prefix_of` submitted k (run evs (init retries base, [])).2)
  /\ (forall retries base evs, fifo (run evs (init retries base, [])))
  /\ (forall retries base evs,
        sent_oldest_first (run evs (init retries base, [])).2)
  /\ (run sample_run_a_first (init 3 100, [])).2
     = [Enqueued sample_key_a 0; Enqueued sample_key_b 1;
        Dispatched sample_key_a 0 0; Dispatched sample_key_b 1 0;
        Completed sample_key_a 0 (Result "a"); Completed sample_key_b 1 (Result "b")]
  /\ (run sample_run_b_first (init 3 100, [])).2
     = [Enqueued sample_key_a 0; Enqueued sample_key_b 1;
        Dispatched sample_key_a 0 0; Dispatched sample_key_b 1 0;
        Completed sample_key_b 1 (Result "b"); Completed sample_key_a 0 (Result "a")].
Proof.
  split; [|split; [|split; [|split]]].
  - intros retries base evs k.
    destruct (ordered_run evs _ (ordered_init retries base)) as [Hf _].
    exists (map p_id (queue_of (run evs (init retries base, [])).1 k)).
    apply Hf.
  - intros retries base evs.
    now destruct (ordered_run evs _ (ordered_init retries base)).
  - intros retries base evs.
    now destruct (ordered_run evs _ (ordered_init retries base)).
  - vm_compute. reflexivity.
  - vm_compute. reflexivity.
Qed.

(** *** Retries *)

Lemma maxRetry_step d ev : maxRetry (step d ev).1 = maxRetry d.
Proof.
  destruct ev as [r|dt|k|k resp]; simpl; try reflexivity.
  - unfold wake. destruct (buckets d !! k) as [b|]; [|reflexivity].
    destruct (queue b) as [|p rest]; [reflexivity|].
    now destruct (can_send d b p).
  - unfold answer. destruct (buckets d !! k) as [b|]; [|reflexivity].
    destruct (queue b) as [|p rest]; [reflexivity|].
    destruct (inflight b); [|reflexivity].
    destruct resp as [lim rem ra payload|ra g| |st payload]; try reflexivity;
      retry_cases; reflexivity.
Qed.

(** The only answers after which a request stays in its queue are the
    failures that have not used up the retries. *)
Lemma retries_bounded_step d ev :
  retries_bounded d -> retries_bounded (step d ev).1.
Proof.
  intros IH k b p. rewrite maxRetry_step.
  destruct ev as [r|dt|k0|k0 resp]; simpl.
  - destruct (decide (bucket_key r = k)) as [<-|N].
    + rewrite lookup_insert_eq. intros [= <-]. simpl.
      rewrite in_app_iff. intros [Hin|[<-|[]]]; [|simpl; lia].
      unfold bucket_of in Hin.
      destruct (buckets d !! bucket_key r) as [b0|] eqn:Eb; [|destruct Hin].
      eapply IH; eauto.
    + rewrite lookup_insert_ne by assumption. apply IH.
  - apply IH.
  - unfold wake. destruct (buckets d !! k0) as [b0|] eqn:Eb; [|apply IH].
    destruct (queue b0) as [|p0 rest] eqn:Eq; [apply IH|].
    destruct (can_send d b0 p0); [|apply IH]. simpl.
    destruct (decide (k0 = k)) as [<-|N].
    + rewrite lookup_insert_eq. intros [= <-]. simpl. rewrite Eq.
      intros Hin. eapply IH; eauto. now rewrite Eq.
    + rewrite lookup_insert_ne by assumption. apply IH.
  - unfold answer. destruct (buckets d !! k0) as [b0|] eqn:Eb; [|apply IH].
    destruct (queue b0) as [|p0 rest] eqn:Eq; [apply IH|].
    destruct (inflight b0); [|apply IH].
    assert (forall q, In q rest -> p_retries q <= maxRetry d) as Hrest.
    { intros q Hq. eapply IH; eauto. rewrite Eq. now right. }
    destruct resp as [lim rem ra payload|ra g| |st payload];
      try retry_cases; simpl;
      (destruct (decide (k0 = k)) as [<-|N];
       [rewrite lookup_insert_eq; intros [= <-]; simpl
       |rewrite lookup_insert_ne by assumption; apply IH]);
      try apply Hrest.
    + intros [<-|Hin]; [|now apply Hrest]. destruct Hp as (_ & -> & _ & Hle).
      exact Hle.
    + intros [<-|Hin]; [|now apply Hrest]. destruct Hp as (_ & -> & _ & Hle).
      exact Hle.
Qed.

Lemma retries_bounded_run evs st :
  retries_bounded st.1 -> retries_bounded (run evs st).1.
Proof.
  revert st. induction evs as [|ev evs IH]; intros st H; simpl; [exact H|].
  apply IH. simpl. now apply retries_bounded_step.
Qed.

(** What the caller is told, and on what answer. *)
Lemma completed_step d ev k id o :
  In (Completed k id o) (step d ev).2 ->
  exists resp b p rest,
    ev = Answer k resp
    /\ buckets d !! k = Some b /\ queue b = p :: rest /\ inflight b = true
    /\ p_id p = id
    /\ match resp with
       | Success _ _ _ payload => o = Result payload
       | ClientError status payload => o = APIError status payload
       | TooManyRequests _ _ | ServerFailure =>
           o = RetryExhausted /\ maxRetry d < S (p_retries p)
       end.
Proof.
  destruct ev as [r|dt|k0|k0 resp]; simpl.
  - intros [X|[]]. discriminate.
  - tauto.
  - unfold wake. destruct (buckets d !! k0) as [b|]; simpl; [|tauto].
    destruct (queue b) as [|p rest]; simpl; [tauto|].
    destruct (can_send d b p); simpl; [|tauto].
    intros [X|[]]. discriminate.
  - unfold answer. destruct (buckets d !! k0) as [b|] eqn:Eb; simpl; [|tauto].
    destruct (queue b) as [|p rest] eqn:Eq; simpl; [tauto|].
    destruct (inflight b) eqn:Ei; simpl; [|tauto].
    destruct resp as [lim rem ra payload|ra g| |st payload]; simpl.
    + intros [X|[]]. inversion X; subst.
      exists (Success lim rem ra payload), b, p, rest. auto 10.
    + retry_cases; simpl.
      * intros [X|[X|[]]]; [discriminate|]. inversion X; subst.
        exists (TooManyRequests ra g), b, p, rest. auto 10.
      * intros [X|[]]. discriminate.
    + retry_cases; simpl.
      * intros [X|[]]. inversion X; subst.
        exists ServerFailure, b, p, rest. auto 10.
      * tauto.
    + intros [X|[]]. inversion X; subst.
      exists (ClientError st payload), b, p, rest. auto 10.
Qed.

(** The last failure: the request leaves with RetryExhausted. *)
Lemma last_round d k id n resp obs :
  in_flight d k id n -> failing resp = true -> maxRetry d <= n ->
  exists seen,
    (exec (d, obs) (Answer k resp)).2
    = (obs ++ seen ++ [Completed k id RetryExhausted])%list
    /\ dispatches seen = 0 /\ completed k seen = [].
Proof.
  intros (b & p & rest & Hb & Hq & Hi & Hid & Hn & _) Hf Hmax.
  unfold exec. simpl. unfold answer. rewrite Hb, Hq, Hi.
  destruct resp as [lim rem ra payload|ra g| |st payload]; try discriminate.
  - retry_cases; [|destruct Hp as (_ & _ & _ & Hle); lia].
    simpl. eexists [_]. split; [rewrite Hid; reflexivity|]. split; reflexivity.
  - retry_cases; [|destruct Hp as (_ & _ & _ & Hle); lia].
    simpl. exists []. split; [rewrite Hid; reflexivity|]. split; reflexivity.
Qed.

Lemma wake_sends d k b p rest :
  buckets d !! k = Some b -> queue b = p :: rest -> can_send d b p = true ->
  wake k d
  = (with_bucket (with_limiter d (acquire (now d) (limiter d))) k
       (consume (now d) b),
     [Dispatched k (p_id p) (now d)]).
Proof. intros Hb Hq Hs. unfold wake. now rewrite Hb, Hq, Hs. Qed.

(** A failure with retries left keeps the request at the head of its
    queue, one retry further, and holds back the bucket, the gate or the
    request for no longer than the delay of that answer. *)
Lemma answer_retry d k b p rest resp :
  buckets d !! k = Some b -> queue b = p :: rest -> inflight b = true ->
  failing resp = true -> p_retries p < maxRetry d ->
  exists b2 p' seen,
    (answer k resp d).2 = seen
    /\ buckets (answer k resp d).1 = <[k := b2]> (buckets d)
    /\ now (answer k resp d).1 = now d
    /\ maxRetry (answer k resp d).1 = maxRetry d
    /\ backoffBase (answer k resp d).1 = backoffBase d
    /\ queue b2 = p' :: rest /\ inflight b2 = false
    /\ p_id p' = p_id p /\ p_retries p' = S (p_retries p)
    /\ (p_notBefore p'
        <= N.max (p_notBefore p)
             (now d + delay_after (backoffBase d) (p_retries p) resp))%N
    /\ (b_resetAt b2
        <= N.max (b_resetAt b)
             (now d + delay_after (backoffBase d) (p_retries p) resp))%N
    /\ (g_resetAt (limiter (answer k resp d).1)
        <= N.max (g_resetAt (limiter d))
             (now d + delay_after (backoffBase d) (p_retries p) resp))%N
    /\ dispatches seen = 0 /\ completed k seen = [].
Proof.
  intros Hb Hq Hi Hf Hlt. unfold answer. rewrite Hb, Hq, Hi.
  destruct resp as [lim rem ra payload|ra g| |st payload]; try discriminate.
  - retry_cases; [lia|]. destruct Hp as (Hid' & Hn' & Hnb' & _).
    simpl. eexists _, p', _. split; [reflexivity|]. split; [reflexivity|].
    simpl. repeat split; auto; try lia; destruct g; simpl; lia.
  - retry_cases; [lia|]. destruct Hp as (Hid' & Hn' & Hnb' & _).
    simpl. eexists _, p', _. split; [reflexivity|]. split; [reflexivity|].
    simpl. repeat split; auto; lia.
Qed.

(** A failure with retries left: the worker waits as long as the
    answer (or the backoff) says, and sends the same request again. *)
Lemma retry_round d k id n resp obs :
  in_flight d k id n -> failing resp = true -> n < maxRetry d ->
  exists d' seen,
    run [Answer k resp; Tick (delay_after (backoffBase d) n resp); Wake k] (d, obs)
    = (d', (obs ++ seen ++ [Dispatched k id (now d')])%list)
    /\ in_flight d' k id (S n)
    /\ maxRetry d' = maxRetry d /\ backoffBase d' = backoffBase d
    /\ dispatches seen = 0 /\ completed k seen = [].
Proof.
  intros (b & p & rest & Hb & Hq & Hi & Hid & Hn & Hnb & Hbr & Hgr) Hf Hlt.
  rewrite <- Hn in Hlt.
  destruct (answer_retry d k b p rest resp Hb Hq Hi Hf Hlt)
    as (b2 & p' & seen & Hseen & Hbs & Hnow & Hmax & Hbase & Hq2 & Hi2
        & Hid2 & Hn2 & Hnb2 & Hbr2 & Hgr2 & Hd & Hc).
  rewrite Hn in *.
  set (dt := delay_after (backoffBase d) n resp) in *.
  set (d1 := (answer k resp d).1) in *.
  assert (buckets (tick dt d1) !! k = Some b2) as Hb2.
  { simpl. rewrite Hbs. apply lookup_insert_eq. }
  assert (can_send (tick dt d1) b2 p' = true) as Hsend.
  { unfold can_send, bucket_ready, gate_open. simpl. rewrite Hi2, Hnow.
    rewrite !andb_true_iff. repeat split.
    - apply orb_true_iff. right. apply N.leb_le. lia.
    - apply orb_true_iff. right. apply N.leb_le. lia.
    - apply N.leb_le. lia. }
  unfold run, fold_left, exec. simpl. fold d1.
  rewrite (wake_sends (tick dt d1) k b2 p' rest Hb2 Hq2 Hsend). simpl.
  exists (with_bucket
            (with_limiter (tick dt d1) (acquire (now d1 + dt) (limiter d1))) k
            (consume (now d1 + dt) b2)), seen.
  rewrite Hseen, Hid2, Hid, <- !app_assoc. simpl.
  split; [reflexivity|]. simpl.
  split; [|repeat split; auto].
  exists (consume (now d1 + dt) b2), p', rest. simpl.
  rewrite lookup_insert_eq, Hnow.
  repeat split; auto; try congruence; try lia.
  unfold acquire.
  destruct (N.leb_spec (g_resetAt (limiter d1)) (now d + dt)); simpl; lia.
Qed.

Lemma failing_attempts_more k base n resp resp' resps :
  failing_attempts k base n (resp :: resp' :: resps)
  = ([Answer k resp; Tick (delay_after base n resp); Wake k]
     ++ failing_attempts k base (S n) (resp' :: resps))%list.
Proof. reflexivity. Qed.

Lemma run_app evs1 evs2 st :
  run (evs1 ++ evs2)%list st = run evs2 (run evs1 st).
Proof. unfold run. apply fold_left_app. Qed.

Lemma dispatches_app l1 l2 :
  dispatches (l1 ++ l2)%list = dispatches l1 + dispatches l2.
Proof. unfold dispatches. now rewrite List.filter_app, length_app. Qed.

Lemma completed_app k l1 l2 :
  completed k (l1 ++ l2)%list = (completed k l1 ++ completed k l2)%list.
Proof. unfold completed. apply omap_app. Qed.

(** A request whose every attempt fails is sent [maxRetry] more times
    and then leaves with RetryExhausted. *)
Lemma exhaustion resps : forall d k id n obs,
  in_flight d k id n -> n <= maxRetry d ->
  Forall (fun resp => failing resp = true) resps ->
  n + length resps = S (maxRetry d) ->
  exists seen,
    (run (failing_attempts k (backoffBase d) n resps) (d, obs)).2
    = (obs ++ seen ++ [Completed k id RetryExhausted])%list
    /\ dispatches seen = maxRetry d - n
    /\ completed k seen = [].
Proof.
  induction resps as [|resp resps IH]; intros d k id n obs Hin Hle Hall Hlen.
  - simpl in Hlen. lia.
  - apply Forall_cons in Hall as [Hf Hall].
    destruct resps as [|resp' resps].
    + simpl in Hlen.
      destruct (last_round d k id n resp obs Hin Hf ltac:(lia))
        as (seen & E & Hd & Hc).
      exists seen. simpl. unfold exec in E. simpl in E.
      split; [exact E|]. split; [lia | exact Hc].
    + rewrite failing_attempts_more, run_app.
      simpl in Hlen.
      destruct (retry_round d k id n resp obs Hin Hf ltac:(lia))
        as (d' & seen & E & Hin' & Hmax & Hbase & Hd & Hc).
      rewrite E. rewrite <- Hbase.
      destruct (IH d' k id (S n) (obs ++ seen ++ [Dispatched k id (now d')])%list
                  Hin' ltac:(lia) Hall ltac:(simpl; lia))
        as (seen' & E' & Hd' & Hc').
      exists (seen ++ [Dispatched k id (now d')] ++ seen')%list.
      rewrite E'. repeat rewrite <- app_assoc. split; [reflexivity|].
      rewrite !dispatches_app, !completed_app, Hd, Hd', Hc, Hc', Hmax.
      split; [unfold dispatches; simpl; lia | reflexivity].
Qed.

Lemma maxRetry_run evs st : maxRetry (run evs st).1 = maxRetry st.1.
Proof.
  revert st. induction evs as [|ev evs IH]; intros st; simpl; [reflexivity|].
  rewrite IH. simpl. apply maxRetry_step.
Qed.

Lemma retries_bounded_init retries base : retries_bounded (init retries base).
Proof. intros k b p H. simpl in H. now rewrite lookup_empty in H. Qed.

(** A request submitted to an idle dispatcher and sent at once is in
    flight on its first attempt. *)
Lemma first_attempt retries base r :
  exists d,
    run [Submit r; Wake (bucket_key r)] (init retries base, [])
    = (d, [Enqueued (bucket_key r) 0; Dispatched (bucket_key r) 0 0%N])
    /\ in_flight d (bucket_key r) 0 0
    /\ maxRetry d = retries /\ backoffBase d = base.
Proof.
  unfold run, fold_left, exec. simpl. unfold wake. simpl.
  rewrite lookup_insert_eq. simpl. unfold bucket_of. simpl.
  rewrite lookup_empty. simpl.
  eexists. split; [reflexivity|]. split; [|split; reflexivity].
  eexists _, _, []. simpl. rewrite lookup_insert_eq.
  split; [reflexivity|]. simpl. repeat split; try reflexivity; try lia.
Qed.

(** C3.  A request whose every attempt is answered by a 429 or by a 5xx
    or network error is sent again [maxRetry] times, each time after the
    delay the answer asks for, and then leaves its queue with
    RetryExhausted; this holds from any state in which the request is in
    flight, and in particular for a request submitted to an idle
    dispatcher.  The caller is told RetryExhausted only on such an
    answer and only when the retries are used up (in a run from the
    initial state: after exactly [maxRetry] retries); a success gives
    the result, a 4xx that is not retried gives the API error, and no
    429 or 5xx reaches the caller in any other form. *)
Theorem retries_end_in_RetryExhausted :
  (forall d k id n resps obs,
      in_flight d k id n -> n <= maxRetry d ->
      Forall (fun resp => failing resp = true) resps ->
      n + length resps = S (maxRetry d) ->
      exists seen,
        (run (failing_attempts k (backoffBase d) n resps) (d, obs)).2
        = (obs ++ seen ++ [Completed k id RetryExhausted])%list
        /\ dispatches seen = maxRetry d - n
        /\ completed k seen = [])
  /\ (forall retries base r resps,
      Forall (fun resp => failing resp = true) resps ->
      length resps = S retries ->
      exists seen,
        (run ([Submit r; Wake (bucket_key r)]
              ++ failing_attempts (bucket_key r) base 0 resps)%list
           (init retries base, [])).2
        = ([Enqueued (bucket_key r) 0; Dispatched (bucket_key r) 0 0%N]
           ++ seen ++ [Completed (bucket_key r) 0 RetryExhausted])%list
        /\ dispatches seen = retries
        /\ completed (bucket_key r) seen = [])
  /\ (forall d ev k id o,
      In (Completed k id o) (step d ev).2 ->
      exists resp b p rest,
        ev = Answer k resp
        /\ buckets d !! k = Some b /\ queue b = p :: rest /\ inflight b = true
        /\ p_id p = id
        /\ match resp with
           | Success _ _ _ payload => o = Result payload
           | ClientError status payload => o = APIError status payload
           | TooManyRequests _ _ | ServerFailure =>
               o = RetryExhausted /\ maxRetry d < S (p_retries p)
           end)
  /\ (forall retries base evs,
      retries_bounded (run evs (init retries base, [])).1)
  /\ (forall retries base evs ev k id,
      In (Completed k id RetryExhausted)
        (step (run evs (init retries base, [])).1 ev).2 ->
      exists resp b p rest,
        ev = Answer k resp /\ failing resp = true
        /\ buckets (run evs (init retries base, [])).1 !! k = Some b
        /\ queue b = p :: rest /\ p_id p = id
        /\ p_retries p = retries).
Proof.
  assert (forall retries base evs,
             retries_bounded (run evs (init retries base, [])).1) as Hbound.
  { intros retries base evs. apply retries_bounded_run.
    apply retries_bounded_init. }
  split; [|split; [|split; [|split]]].
  - intros d k id n resps obs. apply exhaustion.
  - intros retries base r resps Hall Hlen. rewrite run_app.
    destruct (first_attempt retries base r) as (d & -> & Hin & Hmax & Hbase).
    destruct (exhaustion resps d (bucket_key r) 0 0
                [Enqueued (bucket_key r) 0; Dispatched (bucket_key r) 0 0%N]
                Hin ltac:(lia) Hall ltac:(simpl; lia))
      as (seen & E & Hd & Hc).
    exists seen. rewrite <- Hbase, E. split; [reflexivity|].
    split; [lia | exact Hc].
  - apply completed_step.
  - exact Hbound.
  - intros retries base evs ev k id Hin.
    apply completed_step in Hin
      as (resp & b & p & rest & -> & Hb & Hq & Hi & Hid & Hm).
    exists resp, b, p, rest.
    assert (p_retries p <= retries) as Hle.
    { pose proof (Hbound retries base evs k b p Hb) as H.
      rewrite maxRetry_run in H. simpl in H. apply H. rewrite Hq. now left. }
    rewrite maxRetry_run in Hm. simpl in Hm.
    destruct resp as [lim rem ra payload|ra g| |st payload];
      try discriminate; destruct Hm as [_ Hm];
      repeat split; auto; lia.
Qed.

(** With [maxRetry] = 3, a request that meets a bucket 429, a 5xx, a
    global 429 and another 5xx is sent four times in all and fails with
    RetryExhausted. *)
Lemma retries_end_in_RetryExhausted_witness :
  exists seen,
    (run ([Submit sample_request_a; Wake sample_key_a]
          ++ failing_attempts sample_key_a 100 0 sample_failures)%list
       (init 3 100, [])).2
    = ([Enqueued sample_key_a 0; Dispatched sample_key_a 0 0%N]
       ++ seen ++ [Completed sample_key_a 0 RetryExhausted])%list
    /\ dispatches seen = 3
    /\ completed sample_key_a seen = [].
Proof.
  apply (proj1 (proj2 retries_end_in_RetryExhausted) 3 100%N
           sample_request_a sample_failures).
  - unfold sample_failures. repeat constructor.
  - reflexivity.
Defined.

(** The same run, observation by observation: the waits are 500 ms for
    the bucket 429, 200 ms of backoff, 100 ms for the global 429. *)
Lemma sample_exhaustion_trace :
  (run ([Submit sample_request_a; Wake sample_key_a]
        ++ failing_attempts sample_key_a 100 0 sample_failures)%list
     (init 3 100, [])).2
  = [Enqueued sample_key_a 0;
     Dispatched sample_key_a 0 0;
     RateLimited (mkRateLimitEvent false 500 1 "/channels/:id/messages" "POST") 0;
     Dispatched sample_key_a 0 500;
     Dispatched sample_key_a 0 700;
     RateLimited (mkRateLimitEvent true 100 1 "/channels/:id/messages" "POST") 700;
     Dispatched sample_key_a 0 800;
     Completed sample_key_a 0 RetryExhausted].
Proof. vm_compute. reflexivity. Qed.


End RestFacts.

(* ===================================================================== *)
(** * Part III: further properties of the sources                          *)
(* ===================================================================== *)

(** ** The other responses of an interaction (src/unnamed/part_001) *)

Module ResponsesFacts.
Import Interaction Responses.

Section Methods.
Variable transform : MessagePostData + string -> MessagePostData.

Lemma respond_with_completion http is_http i tok p t net :
  (respond_with http is_http i tok p t net).1 = Return ()
  \/ exists r, (respond_with http is_http i tok p t net).1 = Throw (Rejected r).
Proof.
  unfold respond_with. destruct is_http, http, net; simpl; eauto.
Qed.

(** A response on an acknowledged interaction: the guard throws, nothing
    is sent, nothing changes. *)
Lemma body_of_acknowledged r net this :
  acknowledged this = true ->
  body_of transform r net this = (Throw InteractionAlreadyAcknowledged, this, []).
Proof.
  intros H. destruct r; simpl; unfold lift, completion, after, calls.
  - pose proof (InteractionFacts.ack_call_acknowledged transform
                  (CallReply content0) net this H) as E.
    simpl in E. now rewrite E.
  - pose proof (InteractionFacts.ack_call_acknowledged transform
                  (CallDefer flags) net this H) as E.
    simpl in E. now rewrite E.
  - unfold deferUpdate. now rewrite H.
  - unfold createModal. now rewrite H.
Qed.

(** A response on an interaction that is not acknowledged: it returns or
    it is rejected by the transport; [acknowledged] is set exactly when an
    acknowledging response returns. *)
Lemma body_of_fresh r net this :
  acknowledged this = false ->
  ((body_of transform r net this).1.1 = Return ()
   /\ acknowledged (body_of transform r net this).1.2 = acknowledges r)
  \/ (exists e, (body_of transform r net this).1.1 = Throw (Rejected e)
      /\ (body_of transform r net this).1.2 = this).
Proof.
  intros H. destruct r; simpl; unfold lift.
  - destruct (InteractionFacts.ack_call_fresh transform (CallReply content0)
                net this H) as [[E1 E2]|[e [E1 E2]]]; simpl in *; eauto.
  - destruct (InteractionFacts.ack_call_fresh transform (CallDefer flags)
                net this H) as [[E1 E2]|[e [E1 E2]]]; simpl in *; eauto.
  - unfold deferUpdate. rewrite H. unfold respond_replyable.
    destruct (respond_with_completion (_http this) (isHTTP this)
                (id (base this)) (token (base this)) PEmpty
                InteractionResponseType.DeferredMessageUpdate net) as [E|[e E]];
      destruct (respond_with _ _ _ _ _ _ _) as [c cs]; simpl in *; subst c;
      eauto.
  - unfold createModal. rewrite H. unfold respond_replyable.
    destruct (respond_with_completion (_http this) (isHTTP this)
                (id (base this)) (token (base this)) (PModal data)
                InteractionResponseType.Modal net) as [E|[e E]];
      destruct (respond_with _ _ _ _ _ _ _) as [c cs]; simpl in *; subst c;
      eauto.
Qed.

(** The same for a call on an object of class [cls]: where the class
    lacks the method the call is a TypeError, whatever [acknowledged]
    says. *)
Lemma perform_acknowledged cls r net this :
  acknowledged this = true ->
  perform transform cls r net this
  = (Throw (if has_method cls r then InteractionAlreadyAcknowledged
            else NotAFunction (method_name r)), this, []).
Proof.
  intros H. unfold perform. destruct (has_method cls r); [|reflexivity].
  now apply body_of_acknowledged.
Qed.

Lemma perform_fresh cls r net this :
  acknowledged this = false ->
  (has_method cls r = true
   /\ (perform transform cls r net this).1.1 = Return ()
   /\ acknowledged (perform transform cls r net this).1.2 = acknowledges r)
  \/ (has_method cls r = true
      /\ exists e, (perform transform cls r net this).1.1 = Throw (Rejected e)
                   /\ (perform transform cls r net this).1.2 = this)
  \/ (has_method cls r = false
      /\ perform transform cls r net this
         = (Throw (NotAFunction (method_name r)), this, [])).
Proof.
  intros H. unfold perform. destruct (has_method cls r); [|auto].
  destruct (body_of_fresh r net this H) as [[E1 E2]|[e [E1 E2]]]; eauto 6.
Qed.

(** X1.  [deferUpdate] checks [acknowledged] but never sets it: the flag
    is the same after the call whatever happens, so on an interaction
    that was not acknowledged no later response (reply, defer,
    deferUpdate, createModal), on whatever class it is called, is
    refused with InteractionAlreadyAcknowledged. *)
Theorem deferUpdate_never_acknowledges net this :
  acknowledged (deferUpdate net this).1.2 = acknowledged this
  /\ ((deferUpdate net this).1.1 = Throw InteractionAlreadyAcknowledged
      <-> acknowledged this = true)
  /\ (acknowledged this = false ->
      forall cls r net',
        (perform transform cls r net' (deferUpdate net this).1.2).1.1
        <> Throw InteractionAlreadyAcknowledged).
Proof.
  assert ((deferUpdate net this).1.2 = this) as Hsame.
  { unfold deferUpdate. destruct (acknowledged this); [reflexivity|].
    now destruct (respond_replyable _ _ _ _). }
  split; [now rewrite Hsame|]. split.
  - split.
    + intros H. destruct (acknowledged this) eqn:A; [reflexivity|].
      destruct (body_of_fresh DoDeferUpdate net this A) as [[E _]|[e [E _]]];
        simpl in E; congruence.
    + intros A. pose proof (body_of_acknowledged DoDeferUpdate net this A) as E.
      simpl in E. now rewrite E.
  - intros A cls r net'. rewrite Hsame.
    destruct (perform_fresh cls r net' this A)
      as [(_ & E & _)|[(_ & e & E & _)|(_ & E)]]; rewrite E;
      simpl; discriminate.
Qed.

(** X2.  Once reply, defer or createModal has returned on an object,
    every further response that the object's class has (reply and defer
    on the three replyable classes, deferUpdate on a component or
    modal-submit interaction, createModal on a command interaction)
    throws InteractionAlreadyAcknowledged; a response the class does not
    have is the TypeError of a missing method, as it was before.  In
    both cases nothing is sent and the object is left as it is. *)
Theorem acknowledged_blocks_every_response cls r1 net1 this :
  acknowledges r1 = true ->
  (perform transform cls r1 net1 this).1.1 = Return () ->
  has_method cls r1 = true
  /\ forall r2 net2,
       (has_method cls r2 = true ->
        perform transform cls r2 net2 (perform transform cls r1 net1 this).1.2
        = (Throw InteractionAlreadyAcknowledged,
           (perform transform cls r1 net1 this).1.2, []))
       /\ (has_method cls r2 = false ->
           perform transform cls r2 net2 (perform transform cls r1 net1 this).1.2
           = (Throw (NotAFunction (method_name r2)),
              (perform transform cls r1 net1 this).1.2, []))
       /\ (perform transform cls r2 net2
             (perform transform cls r1 net1 this).1.2).2 = []
       /\ (perform transform cls r2 net2
             (perform transform cls r1 net1 this).1.2).1.2
          = (perform transform cls r1 net1 this).1.2.
Proof.
  intros Hr1 Hret.
  assert (has_method cls r1 = true
          /\ acknowledged (perform transform cls r1 net1 this).1.2 = true)
    as [Hm Hack].
  { destruct (acknowledged this) eqn:A.
    - rewrite perform_acknowledged in Hret by assumption. discriminate.
    - destruct (perform_fresh cls r1 net1 this A)
        as [(Hm & _ & E)|[(_ & e & E & _)|(_ & E)]].
      + split; [exact Hm | now rewrite E].
      + congruence.
      + rewrite E in Hret. discriminate. }
  split; [exact Hm|]. intros r2 net2.
  rewrite (perform_acknowledged cls r2 net2 _ Hack).
  destruct (has_method cls r2); simpl;
    (split; [intros; congruence || reflexivity
            |split; [intros; congruence || reflexivity | split; reflexivity]]).
Qed.

(** X3.  A guard that throws has made no call: a response refused with
    InteractionAlreadyAcknowledged, and a deleteReply, createFollowUP or
    getOriginalReply refused with InteractionNoAcknowledged, reach
    neither the webserver response nor the REST client, and the
    interaction is unchanged. *)
Theorem refused_calls_send_nothing this :
  (forall cls r net,
      (perform transform cls r net this).1.1
      = Throw InteractionAlreadyAcknowledged ->
      (perform transform cls r net this).2 = []
      /\ (perform transform cls r net this).1.2 = this)
  /\ (forall m net,
      completion (deleteReply m net this) = Throw InteractionNoAcknowledged ->
      calls (deleteReply m net this) = [] /\ after (deleteReply m net this) = this)
  /\ (forall c net,
      completion (createFollowUP transform c net this)
      = Throw InteractionNoAcknowledged ->
      calls (createFollowUP transform c net this) = []
      /\ after (createFollowUP transform c net this) = this)
  /\ (forall net,
      completion (getOriginalReply net this) = Throw InteractionNoAcknowledged ->
      calls (getOriginalReply net this) = []
      /\ after (getOriginalReply net this) = this).
Proof.
  split; [|split; [|split]].
  - intros cls r net H. destruct (acknowledged this) eqn:A.
    + now rewrite perform_acknowledged.
    + destruct (perform_fresh cls r net this A)
        as [(_ & E & _)|[(_ & e & E & _)|(_ & E)]]; [congruence..|].
      now rewrite E.
  - intros m net. unfold deleteReply, completion, calls, after.
    destruct (acknowledged this), net; simpl; intros H;
      try discriminate; auto.
  - intros c net. unfold createFollowUP, completion, calls, after.
    destruct (acknowledged this), net; simpl; intros H;
      try discriminate; auto.
  - intros net. unfold getOriginalReply, completion, calls, after.
    destruct (acknowledged this), net; simpl; intros H;
      try discriminate; auto.
Qed.

(** X4.  [editParent] has no guard and never assigns [acknowledged].  On
    an acknowledged interaction it edits the message "@original" over
    REST, also for an interaction that came over HTTP; otherwise it
    answers with UpdateMessage through the usual channel.  The component
    version transforms its content before the test, so on the REST path
    the content is transformed twice; the modal version transforms once
    on the REST path and not at all on the other. *)
Theorem editParent_routes_by_acknowledged content net this :
  (component_editParent transform content net this).1.2 = this
  /\ (modal_editParent transform content net this).1.2 = this
  /\ (acknowledged this = true ->
      (component_editParent transform content net this).2
      = [EditWebhookMessage (applicationId (base this)) (token (base this))
           "@original" (transform (inl (transform (inl content))))]
      /\ (modal_editParent transform content net this).2
         = [EditWebhookMessage (applicationId (base this)) (token (base this))
              "@original" (transform (inl content))])
  /\ (acknowledged this = false ->
      (component_editParent transform content net this).2
      = map Original
          (respond this (BMessage (transform (inl content)))
             InteractionResponseType.UpdateMessage net).2
      /\ (modal_editParent transform content net this).2
         = map Original
             (respond this (BMessage content)
                InteractionResponseType.UpdateMessage net).2).
Proof.
  unfold component_editParent, modal_editParent, editOriginalReply, editReply.
  destruct (acknowledged this); simpl.
  - destruct net; simpl; repeat split; intros; try discriminate; reflexivity.
  - destruct (respond this (BMessage (transform (inl content))) _ net) as [c1 cs1].
    destruct (respond this (BMessage content) _ net) as [c2 cs2]. simpl.
    repeat split; intros; try discriminate; reflexivity.
Qed.

(** X5.  [editReply] and [deleteFollowUP] carry no guard: also on an
    interaction that was never acknowledged they go to the REST client
    and never throw InteractionNoAcknowledged.  [deleteFollowUP] makes
    the very call [deleteReply] makes once the interaction is
    acknowledged; on an interaction that is not, [deleteReply] makes none
    and [deleteFollowUP] still makes it. *)
Theorem unguarded_webhook_calls m content net this :
  (editReply transform m content net this).2
  = [EditWebhookMessage (applicationId (base this)) (token (base this)) m
       (transform content)]
  /\ (editReply transform m content net this).1.1
     <> Throw InteractionNoAcknowledged
  /\ (deleteFollowUP m net this).2
     = [Original (DeleteWebhookMessage (applicationId (base this))
                    (token (base this)) m)]
  /\ (deleteFollowUP m net this).1.1 <> Throw InteractionNoAcknowledged
  /\ (acknowledged this = true ->
      deleteFollowUP m net this = lift (deleteReply m net this))
  /\ (acknowledged this = false ->
      calls (deleteReply m net this) = []).
Proof.
  unfold editReply, deleteFollowUP, deleteReply, lift, completion, after, calls.
  destruct net, (acknowledged this); simpl;
    repeat split; intros; try discriminate; reflexivity.
Qed.

End Methods.

Lemma result_acknowledged choices net this :
  a_acknowledged this = true ->
  autocomplete_result choices net this
  = (Throw InteractionAlreadyAcknowledged, this, []).
Proof. intros H. unfold autocomplete_result. now rewrite H. Qed.

Lemma result_fresh choices net this :
  a_acknowledged this = false ->
  ((autocomplete_result choices net this).1.1 = Return ()
   /\ a_acknowledged (autocomplete_result choices net this).1.2 = true)
  \/ (exists e, (autocomplete_result choices net this).1.1 = Throw (Rejected e)
      /\ (autocomplete_result choices net this).1.2 = this).
Proof.
  intros H. unfold autocomplete_result. rewrite H.
  destruct (respond_with_completion (a_http this) (a_isHTTP this)
              (id (a_base this)) (token (a_base this)) (PChoices choices)
              InteractionResponseType.ApplicationCommandAutocompleteResult net)
    as [E|[e E]];
    destruct (respond_with _ _ _ _ _ _ _) as [c cs]; simpl in E; subst c; simpl;
    eauto.
Qed.

(** X6.  [AutocompleteInteraction.result] throws
    InteractionAlreadyAcknowledged exactly when [acknowledged] is set,
    sets it when the response has gone out and leaves it unset when the
    transport rejects; so a second result after one that returned
    throws and sends nothing. *)
Theorem autocomplete_result_once choices net this :
  ((autocomplete_result choices net this).1.1
   = Throw InteractionAlreadyAcknowledged
   <-> a_acknowledged this = true)
  /\ ((autocomplete_result choices net this).1.1 = Return () ->
      forall choices' net',
        autocomplete_result choices' net' (autocomplete_result choices net this).1.2
        = (Throw InteractionAlreadyAcknowledged,
           (autocomplete_result choices net this).1.2, []))
  /\ (forall e,
      (autocomplete_result choices net this).1.1 = Throw (Rejected e) ->
      (autocomplete_result choices net this).1.2 = this
      /\ a_acknowledged this = false).
Proof.
  destruct (a_acknowledged this) eqn:A.
  - rewrite (result_acknowledged choices net this A). simpl.
    split; [split; auto|]. split; discriminate.
  - destruct (result_fresh choices net this A) as [[E1 E2]|[e [E1 E2]]].
    + split; [split; [congruence | discriminate]|]. split.
      * intros _ choices' net'. now apply result_acknowledged.
      * intros e' H. congruence.
    + split; [split; [congruence | discriminate]|]. split.
      * congruence.
      * intros e' _. auto.
Qed.

(** X7.  An interaction built by [Interaction.from] starts
    unacknowledged, and it answers where it came from: with a webserver
    response handle the first reply is one [send] on that handle, without
    one it is one [respondInteraction] with the id and the token of the
    payload; both carry the transformed content and the response type
    ChannelMessageWithSource, and once they return the interaction is
    acknowledged. *)
Theorem first_reply_goes_where_it_came_from
    (transform : MessagePostData + string -> MessagePostData) data res content :
  let this := new_ReplyableInteraction data res in
  acknowledged this = false
  /\ reply transform content (Fulfilled ()) this
     = (Return (), acknowledge this,
        [match res with
         | Some h => HttpSend h (BMessage (transform content))
                       InteractionResponseType.ChannelMessageWithSource
         | None => RespondInteraction (i_id data) (i_token data)
                     (BMessage (transform content))
                     InteractionResponseType.ChannelMessageWithSource
         end])
  /\ forall r, (reply transform content (RejectedWith r) this).1.2 = this.
Proof.
  intros this. split; [reflexivity|]. split.
  - unfold reply, respond, this. now destruct res as [h|].
  - intros r. unfold reply, respond, this. now destruct res as [h|].
Qed.

(** X8.  The type guards of an object built by [Interaction.from] read
    the payload's type: [isCommand] holds exactly for type 2,
    [isComponent] for 3, [isAutoComplete] for 4, [isModalSubmit] for 5;
    so at most one of them holds, and for a Ping (type 1) none does. *)
Theorem type_guards_follow_type data res :
  (isCommand (from data res) = true
   <-> i_type data = InteractionType.ApplicationCommand)
  /\ (isComponent (from data res) = true
      <-> i_type data = InteractionType.MessageComponent)
  /\ (isAutoComplete (from data res) = true
      <-> i_type data = InteractionType.ApplicationCommandAutocomplete)
  /\ (isModalSubmit (from data res) = true
      <-> i_type data = InteractionType.ModalSubmit)
  /\ (i_type data = InteractionType.Ping ->
      isCommand (from data res) = false /\ isComponent (from data res) = false
      /\ isAutoComplete (from data res) = false
      /\ isModalSubmit (from data res) = false).
Proof.
  unfold isCommand, isComponent, isAutoComplete, isModalSubmit.
  rewrite InteractionFacts.from_class.
  unfold InteractionType.ApplicationCommand, InteractionType.MessageComponent,
    InteractionType.ApplicationCommandAutocomplete, InteractionType.ModalSubmit,
    InteractionType.Ping.
  destruct (Z.eq_dec (i_type data) 2%Z) as [->|N2];
    [simpl; repeat split; intros; congruence|].
  destruct (Z.eq_dec (i_type data) 3%Z) as [->|N3];
    [simpl; repeat split; intros; congruence|].
  destruct (Z.eq_dec (i_type data) 4%Z) as [->|N4];
    [simpl; repeat split; intros; congruence|].
  destruct (Z.eq_dec (i_type data) 5%Z) as [->|N5];
    [simpl; repeat split; intros; congruence|].
  rewrite (InteractionFacts.class_for_other _ N2 N3 N4 N5).
  repeat split; intros; congruence.
Qed.

(** A component interaction defers its update, which goes out, and then
    replies: the reply is not refused. *)
Lemma deferUpdate_never_acknowledges_witness :
  acknowledged sample_component = false
  /\ (perform sample_transform CComponent (DoReply (inr "done")) (Fulfilled ())
        (deferUpdate (Fulfilled ()) sample_component).1.2).1.1
     <> Throw InteractionAlreadyAcknowledged.
Proof.
  split; [reflexivity|].
  apply (proj2 (proj2 (deferUpdate_never_acknowledges sample_transform
                         (Fulfilled ()) sample_component))).
  reflexivity.
Defined.

(** A command interaction shows a modal; a reply after it is refused. *)
Lemma acknowledged_blocks_every_response_witness :
  perform sample_transform CCommand (DoReply (inr "late")) (Fulfilled ())
    (perform sample_transform CCommand (DoCreateModal sample_modal)
       (Fulfilled ()) sample_replyable).1.2
  = (Throw InteractionAlreadyAcknowledged,
     (perform sample_transform CCommand (DoCreateModal sample_modal)
        (Fulfilled ()) sample_replyable).1.2, []).
Proof.
  apply (proj1 (proj2 (acknowledged_blocks_every_response sample_transform
                         CCommand (DoCreateModal sample_modal) (Fulfilled ())
                         sample_replyable eq_refl eq_refl)
                  (DoReply (inr "late")) (Fulfilled ()))).
  reflexivity.
Defined.

(** deleteReply before any acknowledgement: refused, and no REST call. *)
Lemma refused_calls_send_nothing_witness :
  calls (deleteReply "@original" (Fulfilled ()) sample_replyable) = []
  /\ after (deleteReply "@original" (Fulfilled ()) sample_replyable)
     = sample_replyable.
Proof.
  apply (proj1 (proj2 (refused_calls_send_nothing sample_transform
                         sample_replyable))).
  reflexivity.
Defined.

(** editParent before any acknowledgement: one UpdateMessage response
    over REST. *)
Lemma editParent_routes_by_acknowledged_witness :
  (component_editParent sample_transform sample_post (Fulfilled ())
     sample_component).2
  = [Original (RespondInteraction "1001" "tok-a" (BMessage sample_post)
                 InteractionResponseType.UpdateMessage)].
Proof.
  apply (proj1 (proj2 (proj2 (proj2
           (editParent_routes_by_acknowledged sample_transform sample_post
              (Fulfilled ()) sample_component))) eq_refl)).
Defined.

(** deleteReply makes no call on the unacknowledged interaction. *)
Lemma unguarded_webhook_calls_witness :
  calls (deleteReply "m9" (Fulfilled ()) sample_replyable) = []
  /\ (deleteFollowUP "m9" (Fulfilled ()) sample_replyable).2
     = [Original (DeleteWebhookMessage "app" "tok-c" "m9")].
Proof.
  split.
  - apply (proj2 (proj2 (proj2 (proj2 (proj2
             (unguarded_webhook_calls sample_transform "m9" (inr "x")
                (Fulfilled ()) sample_replyable)))))).
    reflexivity.
  - apply (proj1 (proj2 (proj2
             (unguarded_webhook_calls sample_transform "m9" (inr "x")
                (Fulfilled ()) sample_replyable)))).
Defined.

(** Two autocomplete results in a row: the second is refused. *)
Lemma autocomplete_result_once_witness :
  autocomplete_result [mkChoice "b" "2"] (Fulfilled ())
    (autocomplete_result [mkChoice "a" "1"] (Fulfilled ()) sample_autocomplete).1.2
  = (Throw InteractionAlreadyAcknowledged,
     (autocomplete_result [mkChoice "a" "1"] (Fulfilled ()) sample_autocomplete).1.2,
     []).
Proof.
  apply (proj1 (proj2 (autocomplete_result_once [mkChoice "a" "1"]
                         (Fulfilled ()) sample_autocomplete))).
  reflexivity.
Defined.

(** A Ping is none of the four. *)
Lemma type_guards_follow_type_witness :
  isCommand (from sample_ping None) = false
  /\ isComponent (from sample_ping None) = false
  /\ isAutoComplete (from sample_ping None) = false
  /\ isModalSubmit (from sample_ping None) = false.
Proof.
  apply (proj2 (proj2 (proj2 (proj2 (type_guards_follow_type sample_ping None))))).
  reflexivity.
Defined.

End ResponsesFacts.

(** ** Select menus (src/unnamed/part_001) *)

Module SelectMenuFacts.
Import SelectMenu.
Section WithEntities.
Context {E : Entities}.

Lemma length_omap_le {A B : Type} (f : A -> option B) (l : list A) :
  length (omap f l) <= length l.
Proof.
  induction l as [|x l IH]; csimpl; [lia|]. destruct (f x); csimpl; lia.
Qed.

Lemma length_omap_all {A B : Type} (f : A -> option B) (l : list A) :
  length (omap f l) = length l <-> Forall (fun x => is_Some (f x)) l.
Proof.
  induction l as [|x l IH]; csimpl.
  - split; [constructor | reflexivity].
  - pose proof (length_omap_le f l) as Hle. destruct (f x) eqn:Ex; csimpl.
    + split.
      * intros H. constructor; [rewrite Ex; eauto | apply IH; lia].
      * intros H. apply Forall_cons in H as [_ H]. apply IH in H. lia.
    + split; [lia|]. intros H. apply Forall_cons in H as [[y Hy] _].
      congruence.
Qed.

Lemma omap_sublist {A B : Type} (f : A -> option B) (l : list A) :
  exists kept, sublist kept l /\ map f kept = map Some (omap f l).
Proof.
  induction l as [|x l (kept & Hs & Hm)]; csimpl.
  - exists []. split; [constructor | reflexivity].
  - destruct (f x) eqn:Ex; csimpl.
    + exists (x :: kept). split; [now constructor | simpl; now rewrite Ex, Hm].
    + exists kept. split; [now constructor | exact Hm].
Qed.

Lemma _get_throws {T : Type} (fn : string -> option T) this :
  (exists e, _get fn this = inl e) <-> resolved this = None.
Proof.
  unfold _get. destruct (resolved this); split; intros H;
    try discriminate; eauto.
  destruct H as [e H]. discriminate.
Qed.

(** X9.  Every accessor of the selected values except [strings()]
    throws on a string select, where [resolved] is null, also when
    nothing was selected; with [resolved] present none of them throws.
    [strings()] returns the raw values in every case. *)
Theorem select_accessors_need_resolved this :
  ((exists e, channels this = inl e) <-> resolved this = None)
  /\ ((exists e, users this = inl e) <-> resolved this = None)
  /\ ((exists e, members this = inl e) <-> resolved this = None)
  /\ ((exists e, roles this = inl e) <-> resolved this = None)
  /\ ((exists e, mentionables this = inl e) <-> resolved this = None)
  /\ strings this = _rawValues this.
Proof.
  unfold channels, users, members, roles, mentionables.
  repeat split; try apply _get_throws; try (apply _get_throws; assumption).
Qed.

(** X10.  What an accessor returns is never longer than the selection
    and keeps its order: it is the image of a sub-sequence of the raw
    values, those the callback finds.  It has the length of the
    selection exactly when every selected id is found, so an id that is
    not resolved or not cached is dropped without a trace. *)
Theorem select_results_drop_unknown_ids {T : Type} (fn : string -> option T)
    this (found : list T) :
  _get fn this = inr found ->
  length found <= length (_rawValues this)
  /\ (exists kept, sublist kept (_rawValues this)
                   /\ map fn kept = map Some found)
  /\ (length found = length (_rawValues this)
      <-> Forall (fun id => is_Some (fn id)) (_rawValues this)).
Proof.
  unfold _get. destruct (resolved this); [|discriminate].
  intros [= <-]. split; [apply length_omap_le|].
  split; [apply omap_sublist | apply length_omap_all].
Qed.

(** X11.  The callback of [mentionables()] looks at members first: an
    id that is among the resolved members is answered from the guild's
    member cache, or else from the user cache under that same id,
    whatever the resolved users, channels and roles say; users come
    before channels and channels before roles, and the role is looked up
    in the client's role cache, not in the guild's. *)
Theorem mentionable_priority this r id :
  resolved this = Some r ->
  (forall member, at_id (r_members r) id = Some member ->
     mentionable_of this id
     = match guild_member this id with
       | Some m => Some (MentionedMember m)
       | None => MentionedUser <$> users_get id
       end)
  /\ (forall user, at_id (r_members r) id = None ->
       at_id (r_users r) id = Some user ->
       mentionable_of this id = MentionedUser <$> users_get (user_id user))
  /\ (forall channel, at_id (r_members r) id = None ->
       at_id (r_users r) id = None ->
       at_id (r_channels r) id = Some channel ->
       mentionable_of this id
       = MentionedChannel <$> channels_cache_get (rc_id channel))
  /\ (forall role, at_id (r_members r) id = None ->
       at_id (r_users r) id = None -> at_id (r_channels r) id = None ->
       at_id (r_roles r) id = Some role ->
       mentionable_of this id = MentionedRole <$> roles_cache_get (role_id role))
  /\ (at_id (r_members r) id = None -> at_id (r_users r) id = None ->
      at_id (r_channels r) id = None -> at_id (r_roles r) id = None ->
      mentionable_of this id = None).
Proof.
  intros Hr. unfold mentionable_of, resolved_at. rewrite Hr.
  repeat split; intros; repeat match goal with
                               | H : at_id _ _ = _ |- _ => rewrite H; clear H
                               end; reflexivity.
Qed.

Lemma is_select_spec t :
  is_select t = true
  <-> t = ComponentType.StringSelect \/ t = ComponentType.UserSelect
      \/ t = ComponentType.RoleSelect \/ t = ComponentType.MentionableSelect
      \/ t = ComponentType.ChannelSelect.
Proof.
  unfold is_select, ComponentType.StringSelect, ComponentType.UserSelect,
    ComponentType.RoleSelect, ComponentType.MentionableSelect,
    ComponentType.ChannelSelect.
  simpl. rewrite !orb_true_iff, !Z.eqb_eq. intuition discriminate.
Qed.

(** X12.  A component interaction carries select-menu data exactly when
    its component type is one of the five select types; a button or a
    text input has none.  The data of a select hands the payload's values
    back through [strings()], and for a payload without [resolved] (a
    string select) its other accessors throw. *)
Theorem component_data_only_for_selects data g :
  (is_Some (component_data data g)
   <-> component_type data = ComponentType.StringSelect
       \/ component_type data = ComponentType.UserSelect
       \/ component_type data = ComponentType.RoleSelect
       \/ component_type data = ComponentType.MentionableSelect
       \/ component_type data = ComponentType.ChannelSelect)
  /\ (component_type data = ComponentType.Button -> component_data data g = None)
  /\ (component_type data = ComponentType.TextInput -> component_data data g = None)
  /\ (forall d, component_data data g = Some d ->
        strings (sd_values d) = values data
        /\ customId d = custom_id data
        /\ (data_resolved data = None ->
            exists e, channels (sd_values d) = inl e
                      /\ users (sd_values d) = inl e
                      /\ roles (sd_values d) = inl e
                      /\ members (sd_values d) = inl e
                      /\ mentionables (sd_values d) = inl e)).
Proof.
  unfold component_data. split; [|split; [|split]].
  - rewrite <- is_select_spec. destruct (is_select (component_type data));
      split; intros H; eauto; try discriminate. destruct H as [x H]. discriminate.
  - intros ->. reflexivity.
  - intros ->. reflexivity.
  - intros d. destruct (is_select (component_type data)); [|discriminate].
    intros [= <-]. simpl. repeat split.
    intros Hr. exists CannotGetInStringSelect.
    unfold channels, users, roles, members, mentionables, _get. simpl.
    rewrite Hr. auto.
Qed.

End WithEntities.
(** Three channels selected, one of them cached: one channel comes
    back. *)
Lemma select_results_drop_unknown_ids_witness :
  length ["channel c1"] <= length (_rawValues sample_values)
  /\ (exists kept, sublist kept (_rawValues sample_values)
                   /\ map (fun id =>
                             match resolved_at r_channels sample_values id with
                             | Some channel =>
                                 @channels_cache_get sample_entities (rc_id channel)
                             | None => None
                             end) kept
                      = map Some ["channel c1"])
  /\ (length ["channel c1"] = length (_rawValues sample_values)
      <-> Forall (fun id =>
                    is_Some
                      match resolved_at r_channels sample_values id with
                      | Some channel =>
                          @channels_cache_get sample_entities (rc_id channel)
                      | None => None
                      end)
            (_rawValues sample_values)).
Proof.
  apply (@select_results_drop_unknown_ids sample_entities).
  vm_compute. reflexivity.
Defined.

(** u1 is a resolved member the guild has cached, and a resolved user
    too: the member wins. *)
Lemma mentionable_priority_witness :
  mentionable_of
    (@mkValues sample_entities (Some sample_resolved) ["u1"] (Some tt)) "u1"
  = Some (@MentionedMember sample_entities "member u1").
Proof.
  apply (proj1 (@mentionable_priority sample_entities
                  (@mkValues sample_entities (Some sample_resolved) ["u1"] (Some tt))
                  sample_resolved "u1" eq_refl)
           (mkAPIResolvedMember None)).
  vm_compute. reflexivity.
Defined.

(** A string select: its strings come back, its channels throw. *)
Lemma component_data_only_for_selects_witness :
  exists d,
    @component_data sample_entities sample_string_select None = Some d
    /\ strings (sd_values d) = ["red"; "blue"]
    /\ exists e, channels (sd_values d) = inl e.
Proof.
  exists (@new_SelectMenuInteractionData sample_entities sample_string_select None).
  split; [reflexivity|].
  destruct (proj2 (proj2 (proj2
              (@component_data_only_for_selects sample_entities
                 sample_string_select None)))
              (@new_SelectMenuInteractionData sample_entities
                 sample_string_select None) eq_refl)
    as (Hs & _ & Hthrow).
  split; [exact Hs|].
  destruct (Hthrow eq_refl) as (e & Hc & _). now exists e.
Defined.

End SelectMenuFacts.

(** ** Command options (src/unnamed/part_001) *)

Module CommandOptionsFacts.
Import CommandOptions.
Section WithEntities.
Context {E : Entities}.

(** X13.  The constructor unwraps a leading Subcommand first and a
    leading SubcommandGroup second.  So [subCommand] is set exactly when
    the first option of the payload is a Subcommand; a payload led by a
    SubcommandGroup gives [subCommandGroup] and the group's children as
    options, and a Subcommand among those children is not unwrapped:
    [subCommand] stays unset.  A payload led by neither keeps its options
    as they are. *)
Theorem options_unwrap_subcommand_then_group opts res g :
  (forall n,
      subCommand (new_CommandInteractionOptions opts res g) = Some n
      <-> exists o rest,
            opts = o :: rest
            /\ opt_type o = ApplicationCommandOptionType.Subcommand
            /\ opt_name o = n)
  /\ (forall o rest,
      opts = o :: rest ->
      opt_type o = ApplicationCommandOptionType.SubcommandGroup ->
      subCommand (new_CommandInteractionOptions opts res g) = None
      /\ subCommandGroup (new_CommandInteractionOptions opts res g)
         = Some (opt_name o)
      /\ toArray (new_CommandInteractionOptions opts res g) = children o)
  /\ (forall o rest,
      opts = o :: rest ->
      opt_type o = ApplicationCommandOptionType.Subcommand ->
      (forall first others, children o = first :: others ->
         opt_type first <> ApplicationCommandOptionType.SubcommandGroup) ->
      subCommandGroup (new_CommandInteractionOptions opts res g) = None
      /\ toArray (new_CommandInteractionOptions opts res g) = children o)
  /\ ((forall o rest, opts = o :: rest ->
         opt_type o <> ApplicationCommandOptionType.Subcommand
         /\ opt_type o <> ApplicationCommandOptionType.SubcommandGroup) ->
      new_CommandInteractionOptions opts res g
      = {| options := opts; subCommand := None; subCommandGroup := None;
           resolved := res; guild := g |}).
Proof.
  unfold new_CommandInteractionOptions, unwrap, toArray,
    ApplicationCommandOptionType.Subcommand,
    ApplicationCommandOptionType.SubcommandGroup.
  split; [|split; [|split]].
  - intros n. destruct opts as [|o rest]; simpl.
    + split; [discriminate|]. intros (o & rest & H & _). discriminate.
    + destruct (Z.eqb_spec (opt_type o) 1) as [E1|N1].
      * destruct (children o) as [|first others]; simpl;
          [|destruct (opt_type first =? 2)%Z]; simpl;
          (split; [intros [= <-]; eauto
                  |intros (o' & rest' & [= <- <-] & _ & <-); reflexivity]).
      * destruct (opt_type o =? 2)%Z; simpl;
          (split; [discriminate
                  |intros (o' & rest' & [= <- <-] & H & _); congruence]).
  - intros o rest -> Ht. simpl.
    destruct (Z.eqb_spec (opt_type o) 1) as [E1|N1]; [congruence|].
    rewrite Ht. simpl. auto.
  - intros o rest -> Ht Hfirst. simpl. rewrite Ht. simpl.
    destruct (children o) as [|first others] eqn:Ec; simpl; [auto|].
    destruct (Z.eqb_spec (opt_type first) 2) as [E2|N2]; simpl; [|auto].
    exfalso. eapply Hfirst; eauto.
  - intros H. destruct opts as [|o rest]; simpl; [reflexivity|].
    destruct (H o rest eq_refl) as [N1 N2].
    destruct (Z.eqb_spec (opt_type o) 1); [congruence|].
    destruct (Z.eqb_spec (opt_type o) 2); [congruence|]. reflexivity.
Qed.

Lemma get_type name this got effects :
  get name this = inr (Some got, effects) ->
  exists o, find (fun o => String.eqb (opt_name o) name) (options this) = Some o
            /\ got_type got = opt_type o /\ got_name got = name.
Proof.
  unfold get. destruct (find _ (options this)) as [o|] eqn:Ef; [|discriminate].
  apply find_some in Ef as Hf. destruct Hf as [_ Hn]. apply String.eqb_eq in Hn.
  destruct (is_resolved_kind (opt_type o)).
  - destruct (resolved this) as [r|]; [|discriminate].
    destruct (resolve (guild this) r o) as [v eff]. intros [= <- <-].
    exists o. simpl. auto.
  - intros [= <- <-]. exists o. simpl. auto.
Qed.

(** X14.  A typed getter answers with the value only when the first
    option of that name has the getter's type, and with null otherwise,
    also when no option has the name.  Hence two getters of different
    types never both answer with a non-null value for the same name. *)
Theorem typed_getters_exclude_each_other name this :
  (forall kind v effects,
      typed kind name this = inr (v, effects) -> v <> Null ->
      exists o,
        find (fun o => String.eqb (opt_name o) name) (options this) = Some o
        /\ opt_type o = kind)
  /\ (forall k1 k2 v1 v2 e1 e2,
      k1 <> k2 ->
      typed k1 name this = inr (v1, e1) -> typed k2 name this = inr (v2, e2) ->
      v1 = Null \/ v2 = Null)
  /\ (find (fun o => String.eqb (opt_name o) name) (options this) = None ->
      forall kind, typed kind name this = inr (Null, [])).
Proof.
  assert (forall kind v effects,
             typed kind name this = inr (v, effects) -> v <> Null ->
             exists o,
               find (fun o => String.eqb (opt_name o) name) (options this) = Some o
               /\ opt_type o = kind) as Hkind.
  { intros kind v effects. unfold typed.
    destruct (get name this) as [e|[[got|] eff]] eqn:Eg; [discriminate| |].
    - apply get_type in Eg as (o & Hf & Ht & _).
      destruct (Z.eqb_spec (got_type got) kind) as [Hk|Hk].
      + intros _ _. exists o. split; [exact Hf | congruence].
      + intros [= <- _] Hv. congruence.
    - intros [= <- _] Hv. congruence. }
  split; [exact Hkind|]. split.
  - intros k1 k2 v1 v2 e1 e2 Hne H1 H2.
    destruct v1; try (right; destruct v2; try reflexivity;
      exfalso;
      (edestruct (Hkind k1) as (o1 & Hf1 & Ht1); [exact H1|discriminate|]);
      (edestruct (Hkind k2) as (o2 & Hf2 & Ht2); [exact H2|discriminate|]);
      congruence).
    now left.
  - intros Hnone kind. unfold typed, get. now rewrite Hnone.
Qed.

(** X15.  An option of a basic type (string, integer, boolean, number,
    subcommand) is handed out as it is, with no cache touched and with or
    without resolved data.  An option of type attachment, user, channel,
    role or mentionable reads the resolved data, and when the payload
    had none the call fails on the undefined object. *)
Theorem get_needs_resolved_only_for_entities name this o :
  find (fun o => String.eqb (opt_name o) name) (options this) = Some o ->
  (is_resolved_kind (opt_type o) = false ->
   get name this
   = inr (Some {| got_value := match opt_value o with
                                | Some v => Basic v
                                | None => Undefined
                                end;
                  got_name := opt_name o; got_type := opt_type o;
                  got_option := Some o |}, []))
  /\ (is_resolved_kind (opt_type o) = true -> resolved this = None ->
      get name this = inl TypeErrorResolvedUndefined)
  /\ (is_resolved_kind (opt_type o) = true ->
      forall r, resolved this = Some r ->
        exists v effects,
          get name this
          = inr (Some {| got_value := v; got_name := opt_name o;
                         got_type := opt_type o; got_option := None |}, effects)
          /\ resolve (guild this) r o = (v, effects)).
Proof.
  intros Hf. unfold get. rewrite Hf. repeat split.
  - intros ->. reflexivity.
  - intros -> ->. reflexivity.
  - intros -> r ->. destruct (resolve (guild this) r o) as [v eff]. eauto.
Qed.

(** X16.  A channel option answers with the cached channel when the
    client has it and with the raw resolved record when it has not; a
    user option puts the resolved user into the user cache and answers
    with it; a role option answers null outside a guild even when the
    role is resolved; each of them answers null, with no cache touched,
    when the id is not among the resolved data. *)
Theorem entity_options_resolve g r o :
  (opt_type o = ApplicationCommandOptionType.Channel ->
   resolve g r o
   = (match lookup_id (r_channels r) (opt_value o) with
      | Some channel =>
          match channels_cache_get (rc_id channel) with
          | Some c => ChannelValue c
          | None => RawChannelValue channel
          end
      | None => Null
      end, []))
  /\ (opt_type o = ApplicationCommandOptionType.User ->
      resolve g r o
      = match lookup_id (r_users r) (opt_value o) with
        | Some user => (UserValue (users_add user), [AddedUser user])
        | None => (Null, [])
        end)
  /\ (opt_type o = ApplicationCommandOptionType.Role ->
      (g = None -> resolve g r o = (Null, []))
      /\ (forall guild role,
            g = Some guild -> lookup_id (r_roles r) (opt_value o) = Some role ->
            resolve g r o
            = (RoleValue (guild_roles_add guild role), [AddedRole role]))
      /\ (lookup_id (r_roles r) (opt_value o) = None ->
          resolve g r o = (Null, []))).
Proof.
  unfold resolve, ApplicationCommandOptionType.Channel,
    ApplicationCommandOptionType.User, ApplicationCommandOptionType.Role,
    ApplicationCommandOptionType.Attachment.
  split; [|split].
  - intros ->. reflexivity.
  - intros ->. reflexivity.
  - intros ->. simpl. split; [|split].
    + intros ->. now destruct (lookup_id (r_roles r) (opt_value o)).
    + intros guild role -> ->. reflexivity.
    + intros ->. reflexivity.
Qed.

(** X17.  A mentionable option prefers the guild member: when the id is
    a resolved member that the guild has cached, the member is the
    answer and no cache is touched.  Otherwise a resolved user is put
    into the user cache and answered; otherwise a resolved role, in a
    guild, is put into the role cache and answered; otherwise the answer
    is null. *)
Theorem mentionable_option_priority g r o :
  opt_type o = ApplicationCommandOptionType.Mentionable ->
  (forall member m,
      lookup_id (r_members r) (opt_value o) = Some member ->
      guild_member g (opt_value o) = Some m ->
      resolve g r o = (MemberValue m, []))
  /\ (forall user,
      (lookup_id (r_members r) (opt_value o) = None
       \/ guild_member g (opt_value o) = None) ->
      lookup_id (r_users r) (opt_value o) = Some user ->
      resolve g r o = (UserValue (users_add user), [AddedUser user]))
  /\ (forall guild role,
      (lookup_id (r_members r) (opt_value o) = None
       \/ guild_member g (opt_value o) = None) ->
      lookup_id (r_users r) (opt_value o) = None ->
      g = Some guild -> lookup_id (r_roles r) (opt_value o) = Some role ->
      resolve g r o = (RoleValue (guild_roles_add guild role), [AddedRole role]))
  /\ ((lookup_id (r_members r) (opt_value o) = None
       \/ guild_member g (opt_value o) = None) ->
      lookup_id (r_users r) (opt_value o) = None ->
      (lookup_id (r_roles r) (opt_value o) = None \/ g = None) ->
      resolve g r o = (Null, [])).
Proof.
  unfold ApplicationCommandOptionType.Mentionable. intros Ht.
  unfold resolve, ApplicationCommandOptionType.Channel,
    ApplicationCommandOptionType.User, ApplicationCommandOptionType.Role,
    ApplicationCommandOptionType.Attachment. rewrite Ht. simpl.
  split; [|split; [|split]].
  - intros member m -> ->. reflexivity.
  - intros user [->| ->] ->; [reflexivity|].
    now destruct (lookup_id (r_members r) (opt_value o)).
  - intros guild role [->| ->] -> -> ->; [reflexivity|].
    now destruct (lookup_id (r_members r) (opt_value o)).
  - intros [->| ->] -> [->| ->]; try reflexivity;
      repeat match goal with
             | |- context [match ?x with _ => _ end] => destruct x
             end; reflexivity.
Qed.

(** X24.  What [get] puts into a cache is what it answers with: a call
    adds at most one entity, a user exactly when the answer is that
    user as the user cache returned it, a role exactly when the answer is
    that role as the guild's role cache returned it.  Only options of type
    user, role or mentionable add anything; a null answer has added
    nothing; and a mentionable option never answers with a channel or an
    attachment. *)
Theorem get_effects_match_answer name this got effects :
  get name this = inr (Some got, effects) ->
  (effects = []
   \/ (exists user,
         effects = [AddedUser user]
         /\ got_value got = UserValue (users_add user))
   \/ (exists gd role,
         guild this = Some gd /\ effects = [AddedRole role]
         /\ got_value got = RoleValue (guild_roles_add gd role)))
  /\ (effects <> [] ->
      got_type got = ApplicationCommandOptionType.User
      \/ got_type got = ApplicationCommandOptionType.Role
      \/ got_type got = ApplicationCommandOptionType.Mentionable)
  /\ (got_value got = Null -> effects = [])
  /\ (got_type got = ApplicationCommandOptionType.Mentionable ->
      (forall c, got_value got <> ChannelValue c)
      /\ (forall c, got_value got <> RawChannelValue c)
      /\ (forall a, got_value got <> AttachmentValue a)).
Proof.
  unfold get.
  destruct (find _ (options this)) as [o|]; [|discriminate].
  destruct (is_resolved_kind (opt_type o)) eqn:Ek.
  - destruct (resolved this) as [r|]; [|discriminate].
    destruct (resolve (guild this) r o) as [v eff] eqn:Er.
    intros [= <- <-]. simpl.
    revert Ek Er.
    unfold is_resolved_kind, resolve, ApplicationCommandOptionType.Channel,
      ApplicationCommandOptionType.User, ApplicationCommandOptionType.Role,
      ApplicationCommandOptionType.Attachment,
      ApplicationCommandOptionType.Mentionable.
    simpl.
    destruct (Z.eqb_spec (opt_type o) 11) as [E11|N11];
      [|destruct (Z.eqb_spec (opt_type o) 6) as [E6|N6];
        [|destruct (Z.eqb_spec (opt_type o) 7) as [E7|N7];
          [|destruct (Z.eqb_spec (opt_type o) 8) as [E8|N8];
            [|destruct (Z.eqb_spec (opt_type o) 9) as [E9|N9]]]]];
      simpl; intros Ek; try discriminate Ek.
    + intros [= <- <-].
      split; [now left|]. split; [congruence|]. split; [reflexivity|].
      intros H. lia.
    + destruct (lookup_id (r_users r) (opt_value o)) as [user|];
        intros [= <- <-].
      * split; [right; left; eauto|]. split; [auto|].
        split; [discriminate|]. intros H. lia.
      * split; [now left|]. split; [congruence|]. split; [reflexivity|].
        intros H. lia.
    + intros [= <- <-].
      split; [now left|]. split; [congruence|]. split; [reflexivity|].
      intros H. lia.
    + destruct (lookup_id (r_roles r) (opt_value o)) as [role|];
        [destruct (guild this) as [gd|]|]; intros [= <- <-].
      * split; [right; right; eauto|]. split; [auto|].
        split; [discriminate|]. intros H. lia.
      * split; [now left|]. split; [congruence|]. split; [reflexivity|].
        intros H. lia.
      * split; [now left|]. split; [congruence|]. split; [reflexivity|].
        intros H. lia.
    + assert (forall v eff,
                 match lookup_id (r_users r) (opt_value o) with
                 | Some user => (UserValue (users_add user), [AddedUser user])
                 | None =>
                     match lookup_id (r_roles r) (opt_value o), guild this with
                     | Some role, Some g =>
                         (RoleValue (guild_roles_add g role), [AddedRole role])
                     | _, _ => (Null, [])
                     end
                 end = (v, eff) ->
                 (eff = []
                  \/ (exists user,
                        eff = [AddedUser user] /\ v = UserValue (users_add user))
                  \/ (exists gd role,
                        guild this = Some gd /\ eff = [AddedRole role]
                        /\ v = RoleValue (guild_roles_add gd role)))
                 /\ (eff <> [] -> opt_type o = 6%Z \/ opt_type o = 8%Z
                                  \/ opt_type o = 9%Z)
                 /\ (v = Null -> eff = [])
                 /\ (opt_type o = 9%Z ->
                     (forall c, v <> ChannelValue c)
                     /\ (forall c, v <> RawChannelValue c)
                     /\ (forall a, v <> AttachmentValue a))) as Hrest.
      { intros v' eff'.
        destruct (lookup_id (r_users r) (opt_value o)) as [user|];
          [|destruct (lookup_id (r_roles r) (opt_value o)) as [role|];
            [destruct (guild this) as [gd|]|]]; intros [= <- <-].
        - split; [right; left; eauto|]. split; [auto|].
          split; [discriminate|]. intros _. repeat split; discriminate.
        - split; [right; right; eauto|]. split; [auto|].
          split; [discriminate|]. intros _. repeat split; discriminate.
        - split; [now left|]. split; [congruence|]. split; [reflexivity|].
          intros _. repeat split; discriminate.
        - split; [now left|]. split; [congruence|]. split; [reflexivity|].
          intros _. repeat split; discriminate. }
      destruct (lookup_id (r_members r) (opt_value o)) as [member|];
        [destruct (guild_member (guild this) (opt_value o)) as [m|]|];
        try exact (Hrest v eff).
      intros [= <- <-].
      split; [now left|]. split; [congruence|]. split; [discriminate|].
      intros _. repeat split; discriminate.
  - intros [= <- <-]. simpl.
    split; [now left|]. split; [congruence|]. split; [reflexivity|].
    intros Ht. revert Ek. rewrite Ht. discriminate.
Qed.


End WithEntities.
(** /moderation ban ...: the group is recognised, the subcommand is not,
    and the options are the subcommand itself. *)
Lemma options_unwrap_subcommand_then_group_witness :
  subCommand (@new_CommandInteractionOptions sample_entities
                [sample_moderation] None None) = None
  /\ subCommandGroup (@new_CommandInteractionOptions sample_entities
                        [sample_moderation] None None) = Some "moderation"
  /\ toArray (@new_CommandInteractionOptions sample_entities
                [sample_moderation] None None) = [sample_ban].
Proof.
  apply (proj1 (proj2 (@options_unwrap_subcommand_then_group sample_entities
                         [sample_moderation] None None))
           sample_moderation []); reflexivity.
Defined.

(** "reason" is a string option: its string is there, its integer is
    null. *)
Lemma typed_getters_exclude_each_other_witness :
  @Basic sample_entities (VString "spam") = Null
  \/ @Null sample_entities = Null.
Proof.
  apply (proj1 (proj2 (@typed_getters_exclude_each_other sample_entities
                         "reason" sample_options))
           ApplicationCommandOptionType.String
           ApplicationCommandOptionType.Integer
           (Basic (VString "spam")) Null [] []).
  - discriminate.
  - vm_compute. reflexivity.
  - vm_compute. reflexivity.
Defined.

(** Without resolved data the string option is still there, the user
    option fails. *)
Lemma get_needs_resolved_only_for_entities_witness :
  (exists got, get "reason" sample_options_unresolved = inr (Some got, []))
  /\ get "target" sample_options_unresolved = inl TypeErrorResolvedUndefined.
Proof.
  split.
  - eexists.
    apply (proj1 (@get_needs_resolved_only_for_entities sample_entities
                    "reason" sample_options_unresolved
                    (mkDataOption "reason" 3 (Some (VString "spam")) None)
                    eq_refl)).
    reflexivity.
  - apply (proj1 (proj2 (@get_needs_resolved_only_for_entities sample_entities
                           "target" sample_options_unresolved
                           (mkDataOption "target" 6 (Some (VString "u2")) None)
                           eq_refl))); reflexivity.
Defined.

(** Channel c2 is resolved but not cached: the raw record is the
    answer. *)
Lemma entity_options_resolve_witness :
  @resolve sample_entities (Some tt) sample_resolved
    (mkDataOption "where" 7 (Some (VString "c2")) None)
  = (RawChannelValue (mkAPIResolvedChannel "c2" 0), []).
Proof.
  rewrite (proj1 (@entity_options_resolve sample_entities (Some tt)
                    sample_resolved
                    (mkDataOption "where" 7 (Some (VString "c2")) None))
             eq_refl).
  vm_compute. reflexivity.
Defined.

(** u1 is a resolved member cached by the guild: the member is the
    answer and the user cache is not touched. *)
Lemma mentionable_option_priority_witness :
  @resolve sample_entities (Some tt) sample_resolved
    (mkDataOption "who" 9 (Some (VString "u1")) None)
  = (@MemberValue sample_entities "member u1", []).
Proof.
  apply (proj1 (@mentionable_option_priority sample_entities (Some tt)
                  sample_resolved
                  (mkDataOption "who" 9 (Some (VString "u1")) None) eq_refl)
           (mkAPIResolvedMember None)).
  - vm_compute. reflexivity.
  - reflexivity.
Defined.

(** The user option "target" puts user u2 into the user cache, and it
    is an option of type user. *)
Lemma get_effects_match_answer_witness :
  get "target" sample_options
  = inr (Some {| got_value := @UserValue sample_entities "user u2";
                 got_name := "target"; got_type := 6; got_option := None |},
         [AddedUser (mkAPIUser "u2" "bob")])
  /\ (6%Z = ApplicationCommandOptionType.User
      \/ 6%Z = ApplicationCommandOptionType.Role
      \/ 6%Z = ApplicationCommandOptionType.Mentionable).
Proof.
  assert (get "target" sample_options
          = inr (Some {| got_value := @UserValue sample_entities "user u2";
                         got_name := "target"; got_type := 6;
                         got_option := None |},
                 [AddedUser (mkAPIUser "u2" "bob")])) as Hget
      by (vm_compute; reflexivity).
  split; [exact Hget|].
  apply (proj1 (proj2 (@get_effects_match_answer sample_entities "target"
                         sample_options _ _ Hget))).
  discriminate.
Defined.

End CommandOptionsFacts.

(** ** The other methods of a message (src/src/resources/Message.ts and
    src/packages/darkcord/src/resources/Message.ts) *)

Module MessageMoreFacts.
Import DarkcordMessageMore.

Section Update.
Variable Date_parse : string -> Z.

(** X18.  [_update] is a partial update: a key that is absent leaves its
    field alone, and an empty payload changes nothing.  Flags equal to 0
    and an [edited_timestamp] that is null or empty are not applied, so
    an update can never clear the flags or the edit time; a [position]
    that is null becomes 0; the channel is filled in once and then kept.
    Applying the same payload twice is the same as applying it once. *)
Theorem update_fields_partial data cached this :
  update_fields Date_parse data cached (update_fields Date_parse data cached this)
  = update_fields Date_parse data cached this
  /\ (f_channel this <> None \/ cached = None ->
      update_fields Date_parse empty_update cached this = this)
  /\ (u_flags data = Some 0%Z ->
      f_flags (update_fields Date_parse data cached this) = f_flags this)
  /\ (u_edited_timestamp data = Some None
      \/ u_edited_timestamp data = Some (Some "") ->
      f_editedTimestamp (update_fields Date_parse data cached this)
      = f_editedTimestamp this)
  /\ (u_position data = Some None ->
      f_position (update_fields Date_parse data cached this) = Some 0%Z)
  /\ (forall ch, f_channel this = Some ch ->
        f_channel (update_fields Date_parse data cached this) = Some ch)
  /\ (u_content data = None ->
      f_content (update_fields Date_parse data cached this) = f_content this).
Proof.
  split; [|split; [|split; [|split; [|split; [|split]]]]].
  - unfold update_fields, assign. simpl. f_equal.
    + now destruct (u_content data).
    + now destruct (u_mention_everyone data).
    + now destruct (u_embeds data).
    + now destruct (u_attachments data).
    + now destruct (u_position data) as [[p|]|].
    + destruct (u_flags data) as [f|]; [|reflexivity].
      destruct (f =? 0)%Z eqn:Ef; [reflexivity|]. reflexivity.
    + destruct (u_edited_timestamp data) as [[ts|]|]; try reflexivity.
      now destruct (truthy_string ts).
    + now destruct (u_sticker_items data).
    + destruct (f_channel this); [reflexivity|]. now destruct cached.
  - intros H. destruct this as [c m e a p f t s ch]. unfold update_fields.
    simpl in *. f_equal. destruct ch; [reflexivity|].
    destruct H as [H| ->]; [congruence | reflexivity].
  - intros H. simpl. now rewrite H.
  - intros [H|H]; simpl; now rewrite H.
  - intros H. simpl. now rewrite H.
  - intros ch H. simpl. now rewrite H.
  - intros H. simpl. now rewrite H.
Qed.

End Update.

Section WithResources.
Context {R : Resources} {C : ReactionCacheOps}.

(** X19.  In src/src a message resolves itself on demand: the first
    [reply] or [delete] of an unresolved message takes the channel that
    is found, sends to it and leaves the message resolved with that
    channel, so that every later [reply] and [delete] goes to the same
    channel without looking again; when the channel cannot be fetched,
    nothing is sent and the message stays unresolved. *)
Theorem message_resolves_on_demand (this : Message.Message) c reason ch :
  Message.resolved this = false ->
  let this' := Message._resolve ch this in
  Message.reply c (Fulfilled ch) this
  = (Return (), this', [CreateMessage ch (Message.with_reference this c)])
  /\ MessageMore.delete reason (Fulfilled ch) this
     = (Return (), this', [DeleteMessage ch (Message.id this) reason])
  /\ (forall c' found',
        Message.reply c' found' this'
        = (Return (), this', [CreateMessage ch (Message.with_reference this c')]))
  /\ (forall reason' found',
        MessageMore.delete reason' found' this'
        = (Return (), this', [DeleteMessage ch (Message.id this) reason']))
  /\ (forall r,
        Message.reply c (RejectedWith r) this = (Throw (Rejected r), this, [])
        /\ MessageMore.delete reason (RejectedWith r) this
           = (Throw (Rejected r), this, [])).
Proof.
  intros H this'.
  unfold Message.reply, MessageMore.delete. rewrite H. simpl.
  repeat split.
Qed.

(** X20.  In packages/darkcord a message never resolves itself:
    [delete] throws "Message not resolved" exactly when the message is
    unresolved, and so does [reply] on a message of type Default or
    Reply; neither sends anything then.  On a message of any other type
    [reply] returns at once, sending nothing and throwing nothing,
    resolved or not. *)
Theorem unresolved_message_throws (this : DarkcordMessage.Message) :
  (forall reason,
      (delete reason this).1 = Throw MessageNotResolved
      <-> DarkcordMessage.isResolved this = false)
  /\ (forall c,
      DarkcordMessage.type this = MessageType.Default
      \/ DarkcordMessage.type this = MessageType.Reply ->
      ((DarkcordMessage.reply c this).1 = Throw MessageNotResolved
       <-> DarkcordMessage.isResolved this = false))
  /\ (forall c reason,
      DarkcordMessage.isResolved this = false ->
      (delete reason this).2 = [] /\ (DarkcordMessage.reply c this).2 = [])
  /\ (forall c,
      DarkcordMessage.type this <> MessageType.Default ->
      DarkcordMessage.type this <> MessageType.Reply ->
      DarkcordMessage.reply c this = (Return (), [])).
Proof.
  unfold delete, DarkcordMessage.reply, MessageType.Default, MessageType.Reply.
  split; [|split; [|split]].
  - intros reason. destruct (DarkcordMessage.isResolved this); simpl.
    + destruct (DarkcordMessage.channel this); split; discriminate.
    + split; reflexivity.
  - intros c [-> | ->]; simpl; destruct (DarkcordMessage.isResolved this); simpl;
      try (destruct (DarkcordMessage.channel this)); split;
      try discriminate; reflexivity.
  - intros c reason ->. simpl. split; [reflexivity|].
    now destruct (negb _ && negb _).
  - intros c N0 N19.
    destruct (Z.eqb_spec (DarkcordMessage.type this) 19); [congruence|].
    destruct (Z.eqb_spec (DarkcordMessage.type this) 0); [congruence|].
    reflexivity.
Qed.

(** X21.  In packages/darkcord [createReaction] adds a reaction exactly
    as the [_update] loop adds it from a payload: the same item, with
    replacement, under the key [emoji.id ?? emoji.name].  In src/src the
    constructor adds the same items as [createReaction] would, but with
    the item alone, where [createReaction] passes replacement and the
    key [emoji.id]. *)
Theorem createReaction_adds_like_update data rs :
  m_reactions data = Some rs ->
  (forall this : DarkcordMessage.Message,
      DarkcordMessage.update_adds (DarkcordMessage.client this) data
      = map (DarkcordMessage.createReaction_add this) rs)
  /\ (forall this : Message.Message,
      map add_item (Message.constructor_adds (Message.client this) data)
      = map (fun r => add_item (Message.createReaction_add this r)) rs
      /\ Forall (fun a => add_replace a = None /\ add_id a = None)
           (Message.constructor_adds (Message.client this) data)
      /\ Forall (fun r =>
                   add_replace (Message.createReaction_add this r) = Some true
                   /\ add_id (Message.createReaction_add this r)
                      = Some (emoji_id (stored_emoji
                                (add_item (Message.createReaction_add this r)))))
           rs).
Proof.
  intros Hrs. split.
  - intros this. unfold DarkcordMessage.update_adds. rewrite Hrs.
    apply map_ext. intros r.
    unfold DarkcordMessage.createReaction_add, resolve_reaction.
    now destruct (partial_Reaction (DarkcordMessage.client this)).
  - intros this. unfold Message.constructor_adds. rewrite Hrs.
    split; [|split].
    + rewrite map_map. apply map_ext. intros r. simpl.
      unfold resolve_reaction.
      now destruct (partial_Reaction (Message.client this)).
    + apply List.Forall_forall. intros a Ha.
      apply in_map_iff in Ha as (r & <- & _). simpl. auto.
    + apply List.Forall_forall. intros r _. simpl. auto.
Qed.

End WithResources.
(** An update with flags 0 and a null edit time leaves both fields, and
    its null position becomes 0. *)
Lemma update_fields_partial_witness :
  f_flags (update_fields (fun _ => 0%Z) sample_update None sample_fields)
  = Some 64%Z
  /\ f_editedTimestamp (update_fields (fun _ => 0%Z) sample_update None sample_fields)
     = Some 1700000000000%Z
  /\ f_position (update_fields (fun _ => 0%Z) sample_update None sample_fields)
     = Some 0%Z.
Proof.
  pose proof (update_fields_partial (fun _ => 0%Z) sample_update None sample_fields)
    as (_ & _ & Hflags & Htime & Hpos & _).
  split; [exact (Hflags eq_refl)|].
  split; [exact (Htime (or_introl eq_refl)) | exact (Hpos eq_refl)].
Defined.

(** The first reply of an unresolved message finds channel c1; a delete
    afterwards goes there too although the lookup would now fail. *)
Lemma message_resolves_on_demand_witness :
  MessageMore.delete None (RejectedWith "offline")
    (Message._resolve sample_channel sample_unresolved_message)
  = (Return (), Message._resolve sample_channel sample_unresolved_message,
     [DeleteMessage sample_channel "m1" None]).
Proof.
  apply (proj1 (proj2 (proj2 (proj2
           (@message_resolves_on_demand sample_resources sample_cache
              sample_unresolved_message sample_post None sample_channel
              eq_refl))))).
Defined.

(** An unresolved message throws on delete; a member-join message
    ignores a reply. *)
Lemma unresolved_message_throws_witness :
  (delete None sample_unresolved_darkcord_message).1 = Throw MessageNotResolved
  /\ DarkcordMessage.reply (inr "welcome") sample_join_message = (Return (), []).
Proof.
  split.
  - apply (proj1 (@unresolved_message_throws sample_resources sample_cache
                    sample_unresolved_darkcord_message) None).
    reflexivity.
  - apply (proj2 (proj2 (proj2
             (@unresolved_message_throws sample_resources sample_cache
                sample_join_message)))); discriminate.
Defined.

(** The one reaction of the payload is added as createReaction would
    add it. *)
Lemma createReaction_adds_like_update_witness :
  DarkcordMessage.update_adds
    (DarkcordMessage.client sample_darkcord_message) sample_payload
  = [DarkcordMessage.createReaction_add sample_darkcord_message sample_reaction].
Proof.
  apply (proj1 (@createReaction_adds_like_update sample_resources sample_cache
                  sample_payload [sample_reaction] eq_refl)
           sample_darkcord_message).
Defined.

End MessageMoreFacts.

(** ** The reaction-removal handler, continued
    (src/src/gateway/events/messageReactionRemoveEmoji.ts) *)

Module HandlerMoreFacts.
Import MessageReactionRemoveEmoji.

Section Collections.
Context {K T : Type} `{EqDecision K}.
Implicit Types (c : Cache.CacheCollection K T) (k : K).

Lemma get_put_back k (v v0 : T) c :
  Cache.get k c = Some v0 -> Cache.get k (put_back k v c) = Some v.
Proof.
  unfold Cache.get, put_back. simpl. unfold Cache.overwrite.
  induction (Cache.storage c) as [|e l IH]; simpl; [discriminate|].
  destruct (Cache.is_key k e) eqn:Ek; simpl.
  - intros _. unfold Cache.is_key in *. simpl. now rewrite Ek.
  - rewrite Ek. exact IH.
Qed.

Lemma has_delete k c : Cache.has k (Cache.delete k c).2 = false.
Proof.
  apply CacheFacts.has_false. unfold Cache.keys, Cache.delete. simpl.
  intros Hin. apply in_map_iff in Hin as (e & He & Hin).
  apply filter_In in Hin as [_ Hn]. apply negb_true_iff in Hn.
  apply CacheFacts.is_key_false in Hn. congruence.
Qed.

Lemma get_delete_other k k' c :
  k' <> k -> Cache.get k' (Cache.delete k c).2 = Cache.get k' c.
Proof.
  intros Hne. unfold Cache.get, Cache.delete. simpl.
  induction (Cache.storage c) as [|e l IH]; simpl; [reflexivity|].
  destruct (Cache.is_key k e) eqn:Ek; simpl.
  - apply CacheFacts.is_key_true in Ek.
    replace (Cache.is_key k' e) with false; [exact IH|].
    symmetry. apply CacheFacts.is_key_false. congruence.
  - now destruct (Cache.is_key k' e).
Qed.

End Collections.

Section Collaborators.
Context {R : Resources}.
Variables Guild Store : Type.
Variable getGuild : option string -> Store -> Completion (option Guild).
Variable channels_get :
  string -> option Guild -> Store -> Completion (option CachedChannel).
Variable channels_replace :
  string -> option Guild -> CachedChannel -> Store -> Store.
Variable structuredClone :
  option StoredReaction -> Completion (option StoredReaction).
Variable emit : CachedMessage -> option StoredReaction -> Completion unit.

Local Abbreviation handler :=
  (handle Guild Store getGuild channels_get channels_replace structuredClone
     emit).

(** X22.  Whatever [getGuild], the channel lookup, [structuredClone]
    and the listeners of [emit] do, with the message and reaction caches
    as the design document describes them: the handler calls [emit] at
    most once, exactly when the lookups return, the channel found is
    text-based, the message is in its cache and [structuredClone]
    returns.  It throws only what one of these four throws.  The
    reaction is deleted after it has been cloned and before the event
    goes out: when [structuredClone] throws nothing is deleted and
    nothing emitted; otherwise the event carries the message without the
    reaction and the clone, also when a listener then throws.  A channel
    that is not found or not text-based, or a message that is not
    cached, ends the handler with nothing done.  Whenever nothing is
    emitted the store is as it was. *)
Theorem handler_emits_after_clone data store :
  length (handler data store).2 <= 1
  /\ ((handler data store).2 <> []
      <-> exists guild messages message removed,
            getGuild (d_guild_id data) store = Return guild
            /\ channels_get (d_channel_id data) guild store
               = Return (Some (TextBased messages))
            /\ Cache.get (d_message_id data) messages = Some message
            /\ structuredClone
                 (Cache.get (emoji_id (d_emoji data)) (cm_reactions message))
               = Return removed)
  /\ ((handler data store).2 = [] -> (handler data store).1.2 = store)
  /\ (forall e,
        (handler data store).1.1 = Throw e ->
        getGuild (d_guild_id data) store = Throw e
        \/ (exists guild,
              getGuild (d_guild_id data) store = Return guild
              /\ channels_get (d_channel_id data) guild store = Throw e)
        \/ (exists value,
              structuredClone value = Throw e /\ (handler data store).2 = [])
        \/ (exists message removed,
              emit message removed = Throw e
              /\ (handler data store).2
                 = [EmitMessageReactionRemoveEmoji message removed]))
  /\ (forall guild messages message,
        getGuild (d_guild_id data) store = Return guild ->
        channels_get (d_channel_id data) guild store
        = Return (Some (TextBased messages)) ->
        Cache.get (d_message_id data) messages = Some message ->
        let message' :=
          {| cm_id := cm_id message;
             cm_reactions :=
               (Cache.delete (emoji_id (d_emoji data)) (cm_reactions message)).2 |}
        in
        (forall e,
            structuredClone
              (Cache.get (emoji_id (d_emoji data)) (cm_reactions message))
            = Throw e ->
            handler data store = (Throw e, store, []))
        /\ (forall removed,
              structuredClone
                (Cache.get (emoji_id (d_emoji data)) (cm_reactions message))
              = Return removed ->
              (handler data store).2
              = [EmitMessageReactionRemoveEmoji message' removed]
              /\ (handler data store).1.2
                 = channels_replace (d_channel_id data) guild
                     (TextBased (put_back (d_message_id data) message' messages))
                     store
              /\ Cache.has (emoji_id (d_emoji data)) (cm_reactions message')
                 = false
              /\ (handler data store).1.1
                 = match emit message' removed with
                   | Return _ => Return ()
                   | Throw e => Throw e
                   end))
  /\ (forall guild,
        getGuild (d_guild_id data) store = Return guild ->
        channels_get (d_channel_id data) guild store = Return None
        \/ channels_get (d_channel_id data) guild store
           = Return (Some NotTextBased)
        \/ (exists messages,
              channels_get (d_channel_id data) guild store
              = Return (Some (TextBased messages))
              /\ Cache.get (d_message_id data) messages = None) ->
        handler data store = (Return (), store, [])).
Proof.
  split; [|split; [|split; [|split; [|split]]]].
  - unfold handle.
    repeat match goal with
           | |- context [match ?x with _ => _ end] => destruct x; simpl
           end; lia.
  - unfold handle.
    destruct (getGuild (d_guild_id data) store) as [guild|e] eqn:Eg; simpl.
    2:{ split; [congruence|]. intros (g & ms & m & r & H & _). discriminate. }
    destruct (channels_get (d_channel_id data) guild store)
      as [[[messages|]|]|e] eqn:Ec; simpl;
      try (split; [congruence|];
           intros (g & ms & m & r & [= <-] & H & _); congruence).
    destruct (Cache.get (d_message_id data) messages) as [message|] eqn:Em;
      simpl.
    2:{ split; [congruence|].
        intros (g & ms & m & r & [= <-] & H & Hm & _).
        rewrite Ec in H. injection H as <-. congruence. }
    destruct (structuredClone _) as [removed|e] eqn:Es; simpl.
    + split.
      * intros _. exists guild, messages, message, removed. auto.
      * intros _. destruct (emit _ removed); discriminate.
    + split; [congruence|].
      intros (g & ms & m & r & [= <-] & H & Hm & Hs).
      rewrite Ec in H. injection H as <-. rewrite Em in Hm.
      injection Hm as <-. congruence.
  - unfold handle.
    repeat match goal with
           | |- context [match ?x with _ => _ end] => destruct x; simpl
           end; try reflexivity; discriminate.
  - intros e. unfold handle.
    destruct (getGuild (d_guild_id data) store) as [guild|e0] eqn:Eg; simpl.
    2:{ intros [= <-]. now left. }
    destruct (channels_get (d_channel_id data) guild store)
      as [[[messages|]|]|e0] eqn:Ec; simpl; try discriminate.
    2:{ intros [= <-]. right; left. eauto. }
    destruct (Cache.get (d_message_id data) messages) as [message|] eqn:Em;
      simpl; [|discriminate].
    destruct (structuredClone _) as [removed|e0] eqn:Es; simpl.
    + destruct (emit _ removed) as [u|e0] eqn:Ee; simpl; [discriminate|].
      intros [= <-]. right; right; right. eauto.
    + intros [= <-]. right; right; left. eauto.
  - intros guild messages message Hg Hc Hm message'. unfold handle.
    rewrite Hg, Hc, Hm. split.
    + intros e He. now rewrite He.
    + intros removed Hr. rewrite Hr. fold message'.
      assert (Cache.has (emoji_id (d_emoji data)) (cm_reactions message')
              = false) as Hgone by apply has_delete.
      destruct (emit message' removed); simpl; auto.
  - intros guild Hg Hc. unfold handle. rewrite Hg.
    destruct Hc as [-> | [-> | (messages & -> & ->)]]; reflexivity.
Qed.

End Collaborators.

Section Handler.
Context {R : Resources}.

(** X23.  With the caches as the design document describes them: for a
    cached message the event carries the reaction that was cached under
    the emoji's id (undefined when there was none), and the cached
    message afterwards has no reaction under that id and all its other
    reactions as before.  A second run for the same emoji carries
    undefined and changes nothing more. *)
Theorem run_removes_the_reaction data channels messages message :
  Cache.get (d_channel_id data) channels = Some (TextBased messages) ->
  Cache.get (d_message_id data) messages = Some message ->
  exists message' messages',
    (run data channels).2
    = [EmitMessageReactionRemoveEmoji message'
         (Cache.get (emoji_id (d_emoji data)) (cm_reactions message))]
    /\ Cache.get (d_channel_id data) (run data channels).1.2
       = Some (TextBased messages')
    /\ Cache.get (d_message_id data) messages' = Some message'
    /\ cm_id message' = cm_id message
    /\ Cache.has (emoji_id (d_emoji data)) (cm_reactions message') = false
    /\ (forall k, k <> emoji_id (d_emoji data) ->
          Cache.get k (cm_reactions message') = Cache.get k (cm_reactions message))
    /\ (run data (run data channels).1.2).2
       = [EmitMessageReactionRemoveEmoji message' None].
Proof.
  intros Hc Hm.
  set (reactions' := (Cache.delete (emoji_id (d_emoji data))
                        (cm_reactions message)).2).
  set (message' := {| cm_id := cm_id message; cm_reactions := reactions' |}).
  set (messages' := put_back (d_message_id data) message' messages).
  assert ((run data channels)
          = (Return (),
             put_back (d_channel_id data) (TextBased messages') channels,
             [EmitMessageReactionRemoveEmoji message'
                (Cache.get (emoji_id (d_emoji data)) (cm_reactions message))]))
    as Erun.
  { unfold run, handle. now rewrite Hc, Hm. }
  assert (Cache.has (emoji_id (d_emoji data)) reactions' = false) as Hgone
    by apply has_delete.
  assert (Cache.get (d_channel_id data)
            (put_back (d_channel_id data) (TextBased messages') channels)
          = Some (TextBased messages')) as Hc'
    by (eapply get_put_back; eauto).
  assert (Cache.get (d_message_id data) messages' = Some message') as Hm'
    by (eapply get_put_back; eauto).
  exists message', messages'. rewrite Erun. simpl.
  split; [reflexivity|]. split; [exact Hc'|]. split; [exact Hm'|].
  split; [reflexivity|]. split; [exact Hgone|]. split.
  - intros k Hk. now apply get_delete_other.
  - unfold run, handle. rewrite Hc', Hm'.
    change (cm_reactions message') with reactions'.
    rewrite (CacheFacts.get_unknown _ _ Hgone),
      (CacheFacts.delete_unknown _ _ Hgone).
    reflexivity.
Qed.

End Handler.
(** Emoji e1 is removed from message m1 of channel c1: the event carries
    the cached reaction, and a second run carries undefined. *)
Lemma run_removes_the_reaction_witness :
  exists message' messages',
    (run sample_dispatch sample_channels).2
    = [EmitMessageReactionRemoveEmoji message'
         (Some (@Raw sample_resources sample_reaction))]
    /\ Cache.get "c1" (run sample_dispatch sample_channels).1.2
       = Some (TextBased messages')
    /\ Cache.has (Some "e1") (cm_reactions message') = false
    /\ (run sample_dispatch (run sample_dispatch sample_channels).1.2).2
       = [EmitMessageReactionRemoveEmoji message' None].
Proof.
  destruct (@run_removes_the_reaction sample_resources sample_dispatch
              sample_channels sample_messages sample_cached_message
              eq_refl eq_refl)
    as (message' & messages' & H1 & H2 & _ & _ & H5 & _ & H7).
  exists message', messages'. auto.
Defined.

(** The reaction is cached as a hydrated Reaction and the clone fails
    on it: the handler throws what the clone threw, the caches are as
    they were and nothing is emitted. *)
Lemma handler_emits_after_clone_witness :
  handle unit
    (Cache.CacheCollection string (@CachedChannel sample_resources))
    (fun _ _ => Return None)
    (fun id _ store => Return (Cache.get id store))
    (fun id _ channel store => put_back id channel store)
    sample_clone
    (fun _ _ => Return ())
    sample_dispatch sample_hydrated_channels
  = (Throw (Rejected "DataCloneError"), sample_hydrated_channels, []).
Proof.
  apply (proj1 (proj2 (proj2 (proj2 (proj2
           (@handler_emits_after_clone sample_resources unit
              (Cache.CacheCollection string (@CachedChannel sample_resources))
              (fun _ _ => Return None)
              (fun id _ store => Return (Cache.get id store))
              (fun id _ channel store => put_back id channel store)
              sample_clone
              (fun _ _ => Return ())
              sample_dispatch sample_hydrated_channels)))))
           None sample_hydrated_messages sample_hydrated_message);
    reflexivity.
Defined.

End HandlerMoreFacts.
